(** * NetJobs: coordinator and agent, shallow embedding

    The definitions below follow [NetJobs.py] (the coordinator, "scheduler")
    and [NetJobsAgent.py] (the agent) function by function.  Python
    dictionaries are finite maps, Python exceptions are an error result,
    sockets are replaced by the sequence of outcomes of the socket calls, and
    a thread body is a function of the sequence of things the thread observes
    on each turn of its loop.  Text and bytes are both strings of 8-bit
    characters, so [len] counts bytes and [decode] and [bytes(..., 'UTF-8')]
    are the identity. *)

From Stdlib Require Import ZArith String Ascii List Lia Bool.
From stdpp Require Import gmap strings list fin_maps pretty.
Import ListNotations.

Local Open Scope string_scope.
Local Open Scope Z_scope.

(** ** Python values shared by both programs *)

(** The exceptions that the modelled code can raise.  [SystemExit] is what
    [sys.exit] raises: it is not an [Exception], so neither
    [except socket.error] nor [except Exception] stops it; a bare [except:]
    does. *)
Inductive exn : Type :=
  | KeyError
  | IndexError
  | NameError
  | UnboundLocalError
  | ValueError
  | TypeError
  | SocketTimeout
  | SocketError
  | SystemExit.

Inductive except (A : Type) : Type :=
  | Ok (a : A)
  | Raise (e : exn).
Arguments Ok {A} a.
Arguments Raise {A} e.

Definition bind {A B} (r : except A) (k : A -> except B) : except B :=
  match r with
  | Ok a => k a
  | Raise e => Raise e
  end.

Notation "'let!' x ':=' r 'in' k" := (bind r (fun x => k))
  (at level 10, x pattern, r at level 100, k at level 200).

(** [d[k]] on a dictionary: [KeyError] when the key is absent. *)
Definition getitem {V} (d : gmap string V) (k : string) : except V :=
  match d !! k with
  | Some v => Ok v
  | None => Raise KeyError
  end.

(** [l[i]] on a list: [IndexError] out of range (indices here are never
    negative). *)
Definition list_getitem {V} (l : list V) (i : nat) : except V :=
  match l !! i with
  | Some v => Ok v
  | None => Raise IndexError
  end.

(** [l[i] = v] on a list: Python raises [IndexError] out of range, it does
    not extend the list. *)
Definition list_setitem {V} (l : list V) (i : nat) (v : V) : except (list V) :=
  if decide (i < length l)%nat then Ok (<[i:=v]> l) else Raise IndexError.

(** An insertion-ordered dictionary whose iteration order matters
    ([test.specs]): keys in insertion order. *)
Fixpoint dict_get {V} (d : list (string * V)) (k : string) : except V :=
  match d with
  | [] => Raise KeyError
  | (k', v) :: d' => if String.eqb k' k then Ok v else dict_get d' k
  end.

Definition keys {V} (d : list (string * V)) : list string := map fst d.

(** ** Constants (identical in the two programs) *)

Definition TAB : ascii := "009"%char.
Definition LF : ascii := "010"%char.

Definition TIMEOUT_NONE : Z := 0.
Definition MIN_HOSTS_ALL : Z := -1.
Definition BUFFER_SIZE : nat := 4096.
Definition SOCKET_DELIMITER : string := String TAB "".
Definition READY_STRING : string := "// READY //" ++ String LF "".
Definition START_STRING : string := "// START //" ++ String LF "".
Definition KILL_STRING : string := "// KILL //" ++ String LF "".
Definition DONE_STRING : string := "// DONE //" ++ String LF "".
Definition SUCCESS_STATUS : string := "SUCCESS".
Definition ERROR_STATUS : string := "ERROR".
Definition TIMEOUT_STATUS : string := "TIMEOUT".
Definition KILLED_STATUS : string := "KILLED".

(** The status vocabulary of the protocol. *)
Definition status_vocabulary : list string :=
  [SUCCESS_STATUS; ERROR_STATUS; TIMEOUT_STATUS; KILLED_STATUS].

(** ** String operations *)

(** [s.split(sep)] for a one-character separator: never empty, the empty
    string gives one empty field. *)
Fixpoint split (sep : ascii) (s : string) : list string :=
  match s with
  | EmptyString => [EmptyString]
  | String c s' =>
      if Ascii.eqb c sep then EmptyString :: split sep s'
      else match split sep s' with
           | [] => [String c EmptyString]
           | t :: ts => String c t :: ts
           end
  end.

(** [s.replace(c, '')] for a one-character [c]. *)
Fixpoint remove_char (c : ascii) (s : string) : string :=
  match s with
  | EmptyString => EmptyString
  | String a s' =>
      if Ascii.eqb a c then remove_char c s' else String a (remove_char c s')
  end.

(** * The coordinator: NetJobs.py *)
Module NetJobs.

(** ** class TestConfig *)

(** A stored result is [None] until a record (or the signoff) sets it to a
    [(status, output)] tuple. *)
Definition stored := option (string * string).

Record TestConfig : Type := mkTestConfig {
  label : string;
  generalTimeout : Z;
  minHosts : Z;
  specs : list (string * list string);
  timeouts : gmap string (gmap string (option Z));
  results : gmap string (gmap string stored);
  timeoutsRemaining : option Z;
  listenerTimeouts : gmap string (option Z)
}.

(** The inner loop of [TestConfig.__init__] over the commands of one target:
    [res] is [self.results[target]] and [timeout] the running maximum, an
    integer as long as the loop runs; a [None] entry ends the loop ([break])
    with the timeout [None]. *)
Fixpoint init_commands (tmos : gmap string (gmap string (option Z)))
    (target : string) (commands : list string)
    (res : gmap string stored) (timeout : Z)
    : except (gmap string stored * option Z) :=
  match commands with
  | [] => Ok (res, Some timeout)
  | command :: rest =>
      let res := <[command := None]> res in
      let! tmo := getitem tmos target in
      let! v := getitem tmo command in
      match v with
      | None => Ok (res, None)
      | Some t =>
          init_commands tmos target rest res (if timeout <? t then t else timeout)
      end
  end.

(** The outer loop of [TestConfig.__init__] over [specs.keys()]. *)
Fixpoint init_targets (generalTimeout : Z)
    (tmos : gmap string (gmap string (option Z)))
    (sp : list (string * list string))
    (res : gmap string (gmap string stored)) (lt : gmap string (option Z))
    : except (gmap string (gmap string stored) * gmap string (option Z)) :=
  match sp with
  | [] => Ok (res, lt)
  | (target, commands) :: rest =>
      let! (r, timeout) := init_commands tmos target commands ∅ generalTimeout in
      init_targets generalTimeout tmos rest
        (<[target := r]> res) (<[target := timeout]> lt)
  end.

Definition TestConfig_init (label : string) (generalTimeout minHosts : Z)
    (specs : list (string * list string))
    (timeouts : gmap string (gmap string (option Z))) : except TestConfig :=
  let! (res, lt) := init_targets generalTimeout timeouts specs ∅ ∅ in
  Ok {| label := label;
        generalTimeout := generalTimeout;
        minHosts := minHosts;
        specs := specs;
        timeouts := timeouts;
        results := res;
        timeoutsRemaining := if minHosts =? 0 then None else Some minHosts;
        listenerTimeouts := lt |}.

(** ** class NetJobs: the state shared by the threads of one test *)

(** [sockets] holds the targets whose preparation succeeded, in insertion
    order; [listeners] holds the [running] flag of every registered
    [ListenThread] object, so that a flag written through the registry
    ([kill]) and the flag read by the thread itself are the same cell.  The
    bytes that [kill] writes to the socket are not part of the state. *)
Record NetJobs : Type := mkNetJobs {
  testAborted : bool;
  sockets : list string;
  listeners : gmap string bool
}.

Definition set_testAborted (b : bool) (nj : NetJobs) : NetJobs :=
  {| testAborted := b; sockets := sockets nj; listeners := listeners nj |}.

Definition set_listeners (l : gmap string bool) (nj : NetJobs) : NetJobs :=
  {| testAborted := testAborted nj; sockets := sockets nj; listeners := l |}.

Definition add_socket (target : string) (nj : NetJobs) : NetJobs :=
  {| testAborted := testAborted nj;
     sockets := if decide (target ∈ sockets nj) then sockets nj
                else sockets nj ++ [target];
     listeners := listeners nj |}.

Definition set_timeoutsRemaining (r : option Z) (t : TestConfig) : TestConfig :=
  {| label := label t; generalTimeout := generalTimeout t;
     minHosts := minHosts t; specs := specs t; timeouts := timeouts t;
     results := results t; timeoutsRemaining := r;
     listenerTimeouts := listenerTimeouts t |}.

Definition set_results (r : gmap string (gmap string stored)) (t : TestConfig)
    : TestConfig :=
  {| label := label t; generalTimeout := generalTimeout t;
     minHosts := minHosts t; specs := specs t; timeouts := timeouts t;
     results := r; timeoutsRemaining := timeoutsRemaining t;
     listenerTimeouts := listenerTimeouts t |}.

(** [ListenThread.kill] for every registered listener. *)
Definition stop_and_kill_listeners (nj : NetJobs) : NetJobs :=
  set_listeners ((fun _ : bool => false) <$> listeners nj) nj.

(** [NetJobs.handle_timeout(target, test, netJobs)]. *)
Definition handle_timeout (target : string) (test : TestConfig) (nj : NetJobs)
    : NetJobs * TestConfig :=
  if negb (testAborted nj) then
    if minHosts test =? MIN_HOSTS_ALL then
      (stop_and_kill_listeners (set_testAborted true nj), test)
    else
      match timeoutsRemaining test with
      | Some r =>
          if r <? 1 then
            (stop_and_kill_listeners (set_testAborted true nj), test)
          else (nj, set_timeoutsRemaining (Some (r - 1)) test)
      | None => (nj, test)
      end
  else (nj, test).

(** The state in which [NetJobs.start] enters a test. *)
Definition fresh : NetJobs :=
  {| testAborted := false; sockets := []; listeners := ∅ |}.

(** The targets [failing] fail one after the other: each failure is one
    call of [handle_timeout]. *)
Fixpoint fail_targets (failing : list string) (st : NetJobs * TestConfig)
    : NetJobs * TestConfig :=
  match failing with
  | [] => st
  | target :: rest => fail_targets rest (handle_timeout target (snd st) (fst st))
  end.

(** ** class ListenThread *)

Definition running (target : string) (nj : NetJobs) : bool :=
  default false (listeners nj !! target).

Definition set_running (target : string) (b : bool) (nj : NetJobs) : NetJobs :=
  set_listeners (<[target := b]> (listeners nj)) nj.

(** [ListenThread.handle_timeout]. *)
Definition ListenThread_handle_timeout (target : string)
    (st : NetJobs * TestConfig) : NetJobs * TestConfig :=
  handle_timeout target (snd st) (set_running target false (fst st)).

(** [self.test.results[target][command] = v]: the outer lookup raises on an
    unknown target, the inner assignment adds the key when it is new. *)
Definition store (target command : string) (v : stored) (test : TestConfig)
    : except TestConfig :=
  let! r := getitem (results test) target in
  Ok (set_results (<[target := <[command := v]> r]> (results test)) test).

(** The padding loop [for i in range(0, 4-count): tokens[4-count] = ''],
    with [n] iterations left. *)
Fixpoint pad (n count : nat) (tokens : list string) : except (list string) :=
  match n with
  | O => Ok tokens
  | S n' =>
      let! tokens' := list_setitem tokens (4 - count) "" in
      pad n' count tokens'
  end.

Definition process_result_string (message : string) (test : TestConfig)
    : except TestConfig :=
  let tokens := split TAB message in
  let count := List.length tokens in
  let! tokens := (if (count <? 4)%nat then pad (4 - count) count tokens
                  else Ok tokens) in
  let! target := list_getitem tokens 0 in
  let! command := list_getitem tokens 1 in
  let! status := list_getitem tokens 2 in
  let! output := list_getitem tokens 3 in
  store target command (Some (status, output)) test.

Fixpoint signoff_commands (target : string) (commands : list string)
    (test : TestConfig) : except TestConfig :=
  match commands with
  | [] => Ok test
  | command :: rest =>
      let! r := getitem (results test) target in
      let! v := getitem r command in
      match v with
      | None =>
          let! test' := store target command (Some (KILLED_STATUS, "")) test in
          signoff_commands target rest test'
      | Some _ => signoff_commands target rest test
      end
  end.

Definition print_signoff (target : string) (test : TestConfig)
    : except TestConfig :=
  let! commands := dict_get (specs test) target in
  signoff_commands target commands test.

(** What one turn of the listener's loop observes after the deadline test. *)
Inductive observation : Type :=
  | NotReady
  | Received (status : string)
  | Raised.

(** What happens between two tests of [self.running]: a turn of the loop,
    with the clock reading [elapsedTime], or a call of
    [ListenThread.handle_timeout] made meanwhile by the listener of
    [target'] in its own thread. *)
Inductive event : Type :=
  | Turn (elapsedTime : Z) (o : observation)
  | Elsewhere (target' : string).

Definition deadline_reached (timeout : option Z) (elapsedTime : Z) : bool :=
  match timeout with
  | Some t => t <=? elapsedTime
  | None => false
  end.

(** The [try: while self.running: ... except: self.handle_timeout()] of
    [ListenThread.run]; [None] when the loop is still running after the last
    event. *)
Fixpoint listen_loop (target : string) (timeout : option Z) (evs : list event)
    (st : NetJobs * TestConfig) : option (NetJobs * TestConfig) :=
  if negb (running target (fst st)) then Some st
  else
    match evs with
    | [] => None
    | Elsewhere target' :: evs' =>
        listen_loop target timeout evs' (ListenThread_handle_timeout target' st)
    | Turn elapsedTime o :: evs' =>
        if deadline_reached timeout elapsedTime then
          listen_loop target timeout evs' (ListenThread_handle_timeout target st)
        else
          match o with
          | NotReady => listen_loop target timeout evs' st
          | Raised => Some (ListenThread_handle_timeout target st)
          | Received status =>
              if String.eqb status "" then listen_loop target timeout evs' st
              else if String.eqb status DONE_STRING then
                listen_loop target timeout evs'
                  (set_running target false (fst st), snd st)
              else
                match process_result_string status (snd st) with
                | Ok test' => listen_loop target timeout evs' (fst st, test')
                | Raise _ => Some (ListenThread_handle_timeout target st)
                end
          end
    end.

(** [if self.timeout == TIMEOUT_NONE: self.timeout = None]. *)
Definition effective_timeout (timeout : option Z) : option Z :=
  match timeout with
  | Some t => if t =? TIMEOUT_NONE then None else Some t
  | None => None
  end.

(** [ListenThread.run]: [None] while the thread has not exited, otherwise
    the state after [print_signoff] (or the exception that ended the
    thread). *)
Definition ListenThread_run (target : string) (timeout : option Z)
    (evs : list event) (st : NetJobs * TestConfig)
    : option (except (NetJobs * TestConfig)) :=
  match listen_loop target (effective_timeout timeout) evs
          (set_running target true (fst st), snd st) with
  | None => None
  | Some st' =>
      Some (let! test' := print_signoff target (snd st') in Ok (fst st', test'))
  end.

(** The messages among the events. *)
Fixpoint received (evs : list event) : list string :=
  match evs with
  | [] => []
  | Turn _ (Received message) :: evs' => message :: received evs'
  | _ :: evs' => received evs'
  end.

(** [NetJobs.start_agents], as far as the registry goes: a [ListenThread]
    (not yet running) is registered for every target that has a socket.  The
    start message written to each socket is not part of the state. *)
Definition start_agents (nj : NetJobs) : NetJobs :=
  set_listeners
    (fold_left (fun l target => <[target := false]> l) (sockets nj) (listeners nj))
    nj.

(** [results[target][command]] read without raising: [None] when either
    key is absent, [Some None] for an entry that is still unset. *)
Definition result_of (test : TestConfig) (target command : string)
    : option stored :=
  results test !! target ≫= (fun row => row !! command).

(** Every command of [commands] has an entry, set or unset, under
    [target]. *)
Definition covered (target : string) (commands : list string)
    (test : TestConfig) : Prop :=
  forall command, command ∈ commands -> is_Some (result_of test target command).

(** [v] was stored from one of the messages among [evs]: a message whose
    first two fields are [tgt] and [cmd], with its third and fourth
    fields. *)
Definition from_record (evs : list event) (tgt cmd : string) (v : stored) : Prop :=
  exists message status output rest,
    message ∈ received evs
    /\ split TAB message = tgt :: cmd :: status :: output :: rest
    /\ v = Some (status, output).

(** [timeouts[target][command]] read without raising. *)
Definition plan_timeout (tmos : gmap string (gmap string (option Z)))
    (target command : string) : option (option Z) :=
  tmos !! target ≫= (fun tmo => tmo !! command).

(** The integer that [parse_config] stored for a job (0 for [none]). *)
Definition timeout_value (tmos : gmap string (gmap string (option Z)))
    (target command : string) : Z :=
  match plan_timeout tmos target command with
  | Some (Some t) => t
  | _ => 0
  end.

(** What [parse_config] hands to [TestConfig]: [specs] is a dictionary, so
    its keys are distinct, and every job has an integer timeout. *)
Definition parsed (sp : list (string * list string))
    (tmos : gmap string (gmap string (option Z))) : Prop :=
  NoDup (keys sp)
  /\ forall target commands command,
       (target, commands) ∈ sp -> command ∈ commands ->
       exists t, plan_timeout tmos target command = Some (Some t).

(** The largest of [floor] and the timeouts of the jobs [commands] of
    [target]. *)
Definition largest_timeout (tmos : gmap string (gmap string (option Z)))
    (target : string) (commands : list string) (floor : Z) : Z :=
  fold_left Z.max (map (timeout_value tmos target) commands) floor.

(** ** Preparing the agents *)

(** The outcome of one socket call ([create_connection], [sendall] or
    [recv]): it returns (with the bytes read, for [recv]), raises
    [socket.timeout], or raises another [socket.error]. *)
Inductive io : Type :=
  | Returned (data : string)
  | TimedOut
  | Failed.

Definition io_outcome (o : io) : except string :=
  match o with
  | Returned data => Ok data
  | TimedOut => Raise SocketTimeout
  | Failed => Raise SocketError
  end.

(** [str(timeout)] of an integer or [None]. *)
Definition py_str (v : option Z) : string :=
  match v with
  | Some t => pretty t
  | None => "None"
  end.

(** [sock.sendall(testBytes); response = sock.recv(BUFFER_SIZE);
    if response != testBytes: sys.exit(...)].  The agent at the other end is
    [peer]: the outcome of the [n]-th socket call on this connection. *)
Definition echo_test (peer : nat -> io) (n : nat) (testBytes : string)
    : except nat :=
  let! _ := io_outcome (peer n) in
  let! response := io_outcome (peer (S n)) in
  if String.eqb response testBytes then Ok (S (S n)) else Raise SystemExit.

Fixpoint send_jobs (peer : nat -> io) (tmo : gmap string (option Z))
    (commands : list string) (n : nat) : except nat :=
  match commands with
  | [] => Ok n
  | command :: rest =>
      let! timeout := getitem tmo command in
      let! n := echo_test peer n
                  ("command" ++ SOCKET_DELIMITER ++ command ++ String LF "") in
      let! n := echo_test peer n
                  ("timeout" ++ SOCKET_DELIMITER ++ py_str timeout ++ String LF "") in
      send_jobs peer tmo rest n
  end.

(** The body of the second [try] of [prep_agents] for one target, up to
    [self.sockets[target] = sock]. *)
Definition prep_agent (test : TestConfig) (target : string) (peer : nat -> io)
    : except unit :=
  let! _ := io_outcome (peer 0%nat) in
  let! n := echo_test peer 1
              ("name" ++ SOCKET_DELIMITER ++ target ++ String LF "") in
  let! commands := dict_get (specs test) target in
  let! tmo := getitem (timeouts test) target in
  let! n := send_jobs peer tmo commands n in
  let! _ := echo_test peer n READY_STRING in
  Ok tt.

(** The loop of [prep_agents].  [created target] tells whether
    [socket.socket] succeeds for the target.  [Raise e] is the exception
    that leaves [prep_agents], ending the coordinator process. *)
Fixpoint prep_targets (simulate : bool) (created : string -> bool)
    (peers : string -> nat -> io) (targets : list string)
    (st : NetJobs * TestConfig) : except (NetJobs * TestConfig) :=
  match targets with
  | [] => Ok st
  | target :: rest =>
      if simulate then prep_targets simulate created peers rest st
      else if negb (created target) then Raise SystemExit
      else
        match prep_agent (snd st) target (peers target) with
        | Ok _ =>
            prep_targets simulate created peers rest
              (add_socket target (fst st), snd st)
        | Raise SocketTimeout =>
            prep_targets simulate created peers rest
              (handle_timeout target (snd st) (fst st))
        | Raise SocketError => Raise SystemExit
        | Raise e => Raise e
        end
  end.

Definition prep_agents (simulate : bool) (created : string -> bool)
    (peers : string -> nat -> io) (st : NetJobs * TestConfig)
    : except (NetJobs * TestConfig) :=
  prep_targets simulate created peers (keys (specs (snd st))) st.

(** The configuration messages that [prep_agents] sends to [target], in
    order: the name, a command and a timeout for every job, and the ready
    message. *)
Fixpoint job_messages (tmo : gmap string (option Z)) (commands : list string)
    : except (list string) :=
  match commands with
  | [] => Ok []
  | command :: rest =>
      let! timeout := getitem tmo command in
      let! msgs := job_messages tmo rest in
      Ok (("command" ++ SOCKET_DELIMITER ++ command ++ String LF "")
            :: ("timeout" ++ SOCKET_DELIMITER ++ py_str timeout ++ String LF "")
            :: msgs)
  end.

Definition config_messages (test : TestConfig) (target : string)
    : except (list string) :=
  let! commands := dict_get (specs test) target in
  let! tmo := getitem (timeouts test) target in
  let! msgs := job_messages tmo commands in
  Ok (("name" ++ SOCKET_DELIMITER ++ target ++ String LF "")
        :: msgs ++ [READY_STRING]).

(** The ways in which the preparation of one agent can fail: at the
    connection, or at the [j]-th configuration message, when it is sent, when
    its echo is read, or by an echo that differs from it. *)
Inductive failure : Type :=
  | ConnectTimeout
  | ConnectError
  | SendTimeout (j : nat)
  | SendError (j : nat)
  | RecvTimeout (j : nat)
  | RecvError (j : nat)
  | Mismatch (j : nat).

Definition is_timeout (f : failure) : bool :=
  match f with
  | ConnectTimeout | SendTimeout _ | RecvTimeout _ => true
  | _ => false
  end.

(** The connection is made and the first [j] messages are sent and echoed
    verbatim. *)
Definition agrees (peer : nat -> io) (msgs : list string) (j : nat) : Prop :=
  (exists d, peer 0%nat = Returned d)
  /\ forall i m, (i < j)%nat -> msgs !! i = Some m ->
       (exists d, peer (1 + 2 * i)%nat = Returned d)
       /\ peer (2 + 2 * i)%nat = Returned m.

(** The first thing that goes wrong with [peer] is [f]. *)
Definition fails_with (peer : nat -> io) (msgs : list string) (f : failure)
    : Prop :=
  match f with
  | ConnectTimeout => peer 0%nat = TimedOut
  | ConnectError => peer 0%nat = Failed
  | SendTimeout j =>
      agrees peer msgs j /\ (j < List.length msgs)%nat
      /\ peer (1 + 2 * j)%nat = TimedOut
  | SendError j =>
      agrees peer msgs j /\ (j < List.length msgs)%nat
      /\ peer (1 + 2 * j)%nat = Failed
  | RecvTimeout j =>
      agrees peer msgs j /\ (j < List.length msgs)%nat
      /\ (exists d, peer (1 + 2 * j)%nat = Returned d)
      /\ peer (2 + 2 * j)%nat = TimedOut
  | RecvError j =>
      agrees peer msgs j /\ (j < List.length msgs)%nat
      /\ (exists d, peer (1 + 2 * j)%nat = Returned d)
      /\ peer (2 + 2 * j)%nat = Failed
  | Mismatch j =>
      agrees peer msgs j
      /\ exists m d r, msgs !! j = Some m
           /\ peer (1 + 2 * j)%nat = Returned d
           /\ peer (2 + 2 * j)%nat = Returned r
           /\ r <> m
  end.

(** A sequence of echo tests. *)
Fixpoint exchange (peer : nat -> io) (n : nat) (msgs : list string) : except nat :=
  match msgs with
  | [] => Ok n
  | m :: rest => let! n' := echo_test peer n m in exchange peer n' rest
  end.

End NetJobs.

(** * The agent: NetJobsAgent.py *)
Module NetJobsAgent.

(** ** [int(s)] on the text of a timeout *)

Definition is_space (c : ascii) : bool :=
  let n := nat_of_ascii c in
  ((9 <=? n) && (n <=? 13) || (28 <=? n) && (n <=? 32))%nat.

Fixpoint lstrip (s : string) : string :=
  match s with
  | EmptyString => EmptyString
  | String c s' => if is_space c then lstrip s' else s
  end.

Definition rstrip (s : string) : string :=
  String.rev (lstrip (String.rev s)).

Definition digit (c : ascii) : option Z :=
  let n := nat_of_ascii c in
  if ((48 <=? n) && (n <=? 57))%nat then Some (Z.of_nat (n - 48)) else None.

(** Decimal digits, with single underscores allowed between two digits. *)
Fixpoint digits (s : string) (acc : Z) (after_digit : bool) : option Z :=
  match s with
  | EmptyString => if after_digit then Some acc else None
  | String c s' =>
      match digit c with
      | Some d => digits s' (10 * acc + d) true
      | None =>
          if Ascii.eqb c "_"%char && after_digit then digits s' acc false
          else None
      end
  end.

(** [int(s)]: [None] stands for [ValueError]. *)
Definition py_int (s : string) : option Z :=
  match rstrip (lstrip s) with
  | String "+"%char r => digits r 0 false
  | String "-"%char r => Z.opp <$> digits r 0 false
  | r => digits r 0 false
  end.

(** ** Subprocesses and the connection *)

(** A spawned subprocess, by what [communicate] gives when it has ended. *)
Record Popen : Type := mkPopen {
  returncode : Z;
  stdout : string;
  stderr : string
}.

Record ProcThread : Type := mkProcThread {
  running : bool;
  command : string;
  timeout : option Z;
  proc : Popen;
  result : string
}.

(** [ProcThread.__init__]. *)
Definition ProcThread_init (command : string) (timeout : option Z)
    (proc : Popen) : ProcThread :=
  {| running := false; command := command; timeout := timeout;
     proc := proc; result := "NONE" |}.

(** The module's globals, with what has been written to the connection:
    every [sendall] in order, with whether it succeeded. *)
Record Agent : Type := mkAgent {
  name : string;
  ready : bool;
  sosTimeout : Z;
  subthreads : list ProcThread;
  results : gmap string string;
  sent : list (string * bool);
  closed : bool
}.

Definition set_name (v : string) (a : Agent) : Agent :=
  {| name := v; ready := ready a; sosTimeout := sosTimeout a;
     subthreads := subthreads a; results := results a; sent := sent a;
     closed := closed a |}.

Definition set_ready (v : bool) (a : Agent) : Agent :=
  {| name := name a; ready := v; sosTimeout := sosTimeout a;
     subthreads := subthreads a; results := results a; sent := sent a;
     closed := closed a |}.

Definition set_sosTimeout (v : Z) (a : Agent) : Agent :=
  {| name := name a; ready := ready a; sosTimeout := v;
     subthreads := subthreads a; results := results a; sent := sent a;
     closed := closed a |}.

Definition set_subthreads (v : list ProcThread) (a : Agent) : Agent :=
  {| name := name a; ready := ready a; sosTimeout := sosTimeout a;
     subthreads := v; results := results a; sent := sent a;
     closed := closed a |}.

Definition set_agent_results (v : gmap string string) (a : Agent) : Agent :=
  {| name := name a; ready := ready a; sosTimeout := sosTimeout a;
     subthreads := subthreads a; results := v; sent := sent a;
     closed := closed a |}.

Definition set_closed (v : bool) (a : Agent) : Agent :=
  {| name := name a; ready := ready a; sosTimeout := sosTimeout a;
     subthreads := subthreads a; results := results a; sent := sent a;
     closed := v |}.

(** [sock.sendall(data)]: [send_ok k] tells whether the [k]-th write on the
    connection succeeds.  The attempt is logged either way; the [bool] is
    [false] when the call raises. *)
Definition sendall (send_ok : nat -> bool) (data : string) (a : Agent)
    : Agent * bool :=
  let ok := send_ok (List.length (sent a)) in
  ({| name := name a; ready := ready a; sosTimeout := sosTimeout a;
      subthreads := subthreads a; results := results a;
      sent := sent a ++ [(data, ok)]; closed := closed a |}, ok).

(** What a [recv] on the connection gives: bytes (empty when the
    coordinator has closed), or an exception.  When nothing more arrives the
    socket timeout of 60 seconds raises, so the end of the list reads as
    [RecvRaises]. *)
Inductive arrival : Type :=
  | Recv (data : string)
  | RecvRaises.

(** ** get_specs *)

(** The [while not ready] loop; the results are [commands], [timeouts], the
    globals, and what is left to read. *)
Fixpoint get_specs_loop (send_ok : nat -> bool) (inbox : list arrival)
    (a : Agent) (commands : list string) (timeouts : list (option Z))
    : list string * list (option Z) * Agent * list arrival :=
  if ready a then (commands, timeouts, a, inbox)
  else
    match inbox with
    | [] => (commands, timeouts, a, [])
    | RecvRaises :: rest => (commands, timeouts, a, rest)
    | Recv receiveString :: rest =>
        let (a, ok) := sendall send_ok receiveString a in
        if negb ok then (commands, timeouts, a, rest)
        else if String.eqb receiveString READY_STRING then
          get_specs_loop send_ok rest (set_ready true a) commands timeouts
        else
          let tokens := split TAB (remove_char LF receiveString) in
          match tokens with
          | key :: value :: _ =>
              if String.eqb key "name" then
                get_specs_loop send_ok rest (set_name value a) commands timeouts
              else if String.eqb key "command" then
                get_specs_loop send_ok rest a (commands ++ [value]) timeouts
              else if String.eqb key "timeout" then
                match py_int value with
                | Some timeout =>
                    if timeout =? TIMEOUT_NONE then
                      get_specs_loop send_ok rest a commands (timeouts ++ [None])
                    else
                      get_specs_loop send_ok rest
                        (if sosTimeout a <? timeout
                         then set_sosTimeout timeout a else a)
                        commands (timeouts ++ [Some timeout])
                | None => (commands, timeouts, a, rest)
                end
              else (commands, timeouts, a, rest)
          | _ => (commands, timeouts, a, rest)
          end
    end.

Definition get_specs (send_ok : nat -> bool) (inbox : list arrival) (a : Agent)
    : list string * list (option Z) * Agent * list arrival :=
  get_specs_loop send_ok inbox (set_sosTimeout TIMEOUT_NONE a) [] [].

(** ** start_run *)

(** The loop [for i in range(0, min(len(commands), len(timeouts)))].
    [popen i command] is what [subprocess.Popen] gives for the [i]-th spawn,
    [None] when it raises; the local [proc] then keeps its previous value and
    is unbound in the first turn.  The result is the global [subthreads] and
    the exception that left the function, if any. *)
Fixpoint start_run_loop (popen : nat -> string -> option Popen)
    (commands : list string) (timeouts : list (option Z)) (range : list nat)
    (proc : option Popen) (subthreads : list ProcThread)
    : list ProcThread * option exn :=
  match range with
  | [] => (subthreads, None)
  | i :: rest =>
      match list_getitem commands i with
      | Raise e => (subthreads, Some e)
      | Ok command =>
          match list_getitem timeouts i with
          | Raise e => (subthreads, Some e)
          | Ok timeout =>
              let proc := match popen i command with
                          | Some p => Some p
                          | None => proc
                          end in
              match proc with
              | None => (subthreads, Some UnboundLocalError)
              | Some p =>
                  let thread := ProcThread_init command timeout p in
                  start_run_loop popen commands timeouts rest proc
                    (subthreads ++ [thread])
              end
          end
      end
  end.

Definition start_run (popen : nat -> string -> option Popen)
    (commands : list string) (timeouts : list (option Z))
    (subthreads : list ProcThread) : list ProcThread * option exn :=
  start_run_loop popen commands timeouts
    (seq 0 (Nat.min (List.length commands) (List.length timeouts)))
    None subthreads.

(** ** class ProcThread *)

Definition set_result (v : string) (t : ProcThread) : ProcThread :=
  {| running := running t; command := command t; timeout := timeout t;
     proc := proc t; result := v |}.

Definition set_thread_running (v : bool) (t : ProcThread) : ProcThread :=
  {| running := v; command := command t; timeout := timeout t;
     proc := proc t; result := result t |}.

(** [ProcThread.stop_and_kill_subproc(reason)]. *)
Definition stop_and_kill_subproc (name reason : string) (t : ProcThread)
    : ProcThread :=
  set_result (name ++ SOCKET_DELIMITER ++ command t ++ SOCKET_DELIMITER ++ reason)
    (set_thread_running false t).

(** What the thread meets between two tests of its loop condition: a poll
    of the subprocess ([finished] when [poll()] is not [None]) with the clock
    reading, or a call of [stop_and_kill_subproc(reason)] by the
    [SOSThread]. *)
Inductive poll_event : Type :=
  | Poll (finished : bool) (elapsedTime : Z)
  | Stop (reason : string).

(** [str(e)] for the [TypeError] of [elapsedTime >= None]. *)
Definition type_error_text : string :=
  "'>=' not supported between instances of 'float' and 'NoneType'".

(** The [try: while self.running and self.proc.poll() is None: ...] of
    [ProcThread.run]; [None] while the thread is still polling. *)
Fixpoint wait_loop (name : string) (evs : list poll_event) (t : ProcThread)
    : option ProcThread :=
  if negb (running t) then Some t
  else
    match evs with
    | [] => None
    | Stop reason :: evs' => wait_loop name evs' (stop_and_kill_subproc name reason t)
    | Poll finished elapsedTime :: evs' =>
        if finished then Some t
        else
          match timeout t with
          | None =>
              Some (stop_and_kill_subproc name
                      (ERROR_STATUS ++ SOCKET_DELIMITER ++ type_error_text) t)
          | Some tm =>
              if tm <=? elapsedTime then
                wait_loop name evs'
                  (stop_and_kill_subproc name (TIMEOUT_STATUS ++ SOCKET_DELIMITER) t)
              else wait_loop name evs' t
          end
    end.

(** The record composed from a subprocess that ended by itself. *)
Definition compose (name : string) (t : ProcThread) : string :=
  if (0 <? returncode (proc t)) || negb (String.eqb (stderr (proc t)) "") then
    name ++ SOCKET_DELIMITER ++ command t ++ SOCKET_DELIMITER
      ++ ERROR_STATUS ++ SOCKET_DELIMITER ++ stderr (proc t)
  else
    name ++ SOCKET_DELIMITER ++ command t ++ SOCKET_DELIMITER
      ++ SUCCESS_STATUS ++ SOCKET_DELIMITER ++ stdout (proc t).

(** [ProcThread.send_result].  The name [resultString] is bound nowhere in
    the module, so the truncation raises [NameError]; the exception leaves
    the method before [sendall]. *)
Definition send_result (send_ok : nat -> bool) (t : ProcThread) (a : Agent)
    : ProcThread * Agent * option exn :=
  let t := if String.eqb (result t) "NONE" then set_result (compose (name a) t) t
           else t in
  let a := set_agent_results (<[command t := result t]> (results a)) a in
  if (BUFFER_SIZE <? String.length (result t))%nat then (t, a, Some NameError)
  else (t, fst (sendall send_ok (result t) a), None).

(** [ProcThread.run]: [None] while the thread has not ended. *)
Definition ProcThread_run (send_ok : nat -> bool) (evs : list poll_event)
    (t : ProcThread) (a : Agent) : option (ProcThread * Agent * option exn) :=
  match wait_loop (name a) evs (set_thread_running true t) with
  | None => None
  | Some t' => Some (send_result send_ok t' a)
  end.

(** ** main: serving one connection *)

(** The [while ready] loop that waits for the start message.  The [recv] is
    outside any [try]: an exception leaves [main]. *)
Fixpoint await_start (popen : nat -> string -> option Popen)
    (commands : list string) (timeouts : list (option Z))
    (inbox : list arrival) (a : Agent) : Agent * option exn :=
  if negb (ready a) then (a, None)
  else
    match inbox with
    | [] => (a, Some SocketTimeout)
    | RecvRaises :: _ => (a, Some SocketError)
    | Recv status :: rest =>
        if String.eqb status "" then await_start popen commands timeouts rest a
        else if String.eqb status START_STRING then
          let (threads, e) := start_run popen commands timeouts (subthreads a) in
          (set_ready false (set_subthreads threads a), e)
        else (set_ready false a, None)
    end.

(** The threads run to their end, here one after the other in the order of
    [subthreads]; [polls i] is what the [i]-th thread meets.  [None] when
    some thread never ends, so that [join] blocks. *)
Fixpoint join_all (send_ok : nat -> bool) (polls : nat -> list poll_event)
    (i : nat) (threads : list ProcThread) (a : Agent)
    : option (list ProcThread * Agent) :=
  match threads with
  | [] => Some ([], a)
  | t :: rest =>
      match ProcThread_run send_ok (polls i) t a with
      | None => None
      | Some (t', a', _) =>
          match join_all send_ok polls (S i) rest a' with
          | None => None
          | Some (ts, a'') => Some (t' :: ts, a'')
          end
      end
  end.

(** The body of the [while True] of [main] from [accept] on: [None] when a
    [join] blocks for ever, otherwise the final globals with the exception
    that ended the process, if any. *)
Definition main_connection (send_ok : nat -> bool)
    (popen : nat -> string -> option Popen) (polls : nat -> list poll_event)
    (inbox : list arrival) : option (Agent * option exn) :=
  let a := {| name := ""; ready := false; sosTimeout := TIMEOUT_NONE;
              subthreads := []; results := ∅; sent := []; closed := false |} in
  let '(commands, timeouts, a, inbox) := get_specs send_ok inbox a in
  match await_start popen commands timeouts inbox a with
  | (a, Some e) => Some (a, Some e)
  | (a, None) =>
      match join_all send_ok polls 0 (subthreads a) a with
      | None => None
      | Some (threads, a) =>
          let a := set_subthreads threads a in
          let a := fst (sendall send_ok DONE_STRING a) in
          Some (set_closed true a, None)
      end
  end.

(** ** Reading messages and records *)




(** No tabulation in [s]. *)
Definition tab_free (s : string) : Prop :=
  ~ In TAB (list_ascii_of_string s).

(** The [i]-th field of a record. *)
Definition field (i : nat) (rec : string) : option string :=
  split TAB rec !! i.

(** The record that [send_result] has in [self.result] after its first
    statement. *)
Definition composed (name : string) (t : ProcThread) : string :=
  if String.eqb (result t) "NONE" then compose name t else result t.

(** The job of a supervisor. *)
Definition job (t : ProcThread) : string * option Z := (command t, timeout t).

(** The agent as [main] sets it up for a connection, under the name that
    the coordinator registered. *)
Definition serving (name : string) : Agent :=
  {| name := name; ready := false; sosTimeout := TIMEOUT_NONE;
     subthreads := []; results := ∅; sent := []; closed := false |}.

End NetJobsAgent.

(** * Concrete plans and traffic used below *)
Module Scenarios.

(** Three targets with one job each; the timeout of every job is the
    general timeout, 0 ([none]). *)
Definition specs3 : list (string * list string) :=
  [("t1", ["echo ok"]); ("t2", ["echo ok"]); ("t3", ["echo ok"])].

Definition timeouts3 : gmap string (gmap string (option Z)) :=
  list_to_map [("t1", {["echo ok" := Some 0]});
               ("t2", {["echo ok" := Some 0]});
               ("t3", {["echo ok" := Some 0]})].

(** One target with one job. *)
Definition specs1 : list (string * list string) := [("t1", ["c1"])].

Definition timeouts1 : gmap string (gmap string (option Z)) :=
  {["t1" := {["c1" := Some 0]}]}.

(** The plan of [specs1] with [minhosts: all], as [TestConfig.__init__]
    leaves it. *)
Definition test1 : NetJobs.TestConfig :=
  {| NetJobs.label := "test";
     NetJobs.generalTimeout := 0;
     NetJobs.minHosts := MIN_HOSTS_ALL;
     NetJobs.specs := specs1;
     NetJobs.timeouts := timeouts1;
     NetJobs.results := {["t1" := {["c1" := None]}]};
     NetJobs.timeoutsRemaining := Some MIN_HOSTS_ALL;
     NetJobs.listenerTimeouts := {["t1" := Some 0]} |}.

(** The coordinator after [prep_agents] and [start_agents] succeeded for
    [t1]. *)
Definition started1 : NetJobs.NetJobs :=
  NetJobs.start_agents (NetJobs.add_socket "t1" NetJobs.fresh).

(** The plan of [specs3] with [minhosts: 2], as [TestConfig.__init__]
    leaves it. *)
Definition test3 : NetJobs.TestConfig :=
  {| NetJobs.label := "test";
     NetJobs.generalTimeout := 0;
     NetJobs.minHosts := 2;
     NetJobs.specs := specs3;
     NetJobs.timeouts := timeouts3;
     NetJobs.results :=
       list_to_map [("t1", {["echo ok" := None]});
                    ("t2", {["echo ok" := None]});
                    ("t3", {["echo ok" := None]})];
     NetJobs.timeoutsRemaining := Some 2;
     NetJobs.listenerTimeouts :=
       list_to_map [("t1", Some 0); ("t2", Some 0); ("t3", Some 0)] |}.

(** The same plan with [minhosts: 1]. *)
Definition test3_one : NetJobs.TestConfig :=
  {| NetJobs.label := "test";
     NetJobs.generalTimeout := 0;
     NetJobs.minHosts := 1;
     NetJobs.specs := specs3;
     NetJobs.timeouts := timeouts3;
     NetJobs.results :=
       list_to_map [("t1", {["echo ok" := None]});
                    ("t2", {["echo ok" := None]});
                    ("t3", {["echo ok" := None]})];
     NetJobs.timeoutsRemaining := Some 1;
     NetJobs.listenerTimeouts :=
       list_to_map [("t1", Some 0); ("t2", Some 0); ("t3", Some 0)] |}.

Definition record (target command status output : string) : string :=
  target ++ SOCKET_DELIMITER ++ command ++ SOCKET_DELIMITER
    ++ status ++ SOCKET_DELIMITER ++ output.

(** A record for [t1] whose command is not in the plan, then the end of the
    agent's run. *)
Definition traffic_unknown_command : list NetJobs.event :=
  [NetJobs.Turn 0 (NetJobs.Received (record "t1" "bogus" "SUCCESS" "x"));
   NetJobs.Turn 1 (NetJobs.Received DONE_STRING)].

(** A record for [t1] and [c1] whose status is not in the vocabulary, then
    the end of the agent's run. *)
Definition traffic_unknown_status : list NetJobs.event :=
  [NetJobs.Turn 0 (NetJobs.Received (record "t1" "c1" "BOGUS" "x"));
   NetJobs.Turn 1 (NetJobs.Received DONE_STRING)].

(** A record whose target is not in the plan. *)
Definition traffic_unknown_target : list NetJobs.event :=
  [NetJobs.Turn 0 (NetJobs.Received (record "t9" "c1" "SUCCESS" "x"))].

(** An agent that accepts the connection and answers the name message with
    other bytes. *)
Definition peer_wrong_name (n : nat) : NetJobs.io :=
  match n with
  | 0%nat => NetJobs.Returned ""
  | 1%nat => NetJobs.Returned ""
  | 2%nat => NetJobs.Returned ("name" ++ SOCKET_DELIMITER ++ "other" ++ String LF "")
  | _ => NetJobs.TimedOut
  end.

(** An agent that accepts the connection and never answers. *)
Definition peer_silent (n : nat) : NetJobs.io :=
  match n with
  | 0%nat => NetJobs.Returned ""
  | 1%nat => NetJobs.Returned ""
  | _ => NetJobs.TimedOut
  end.

(** A host that refuses the connection. *)
Definition peer_refusing (n : nat) : NetJobs.io := NetJobs.Failed.

(** A subprocess that ends by a signal it sends to itself, as the command
    [kill -9 $$] does: the return code is the negated signal number and
    nothing is written. *)
Definition self_killed : NetJobsAgent.ProcThread :=
  NetJobsAgent.ProcThread_init "kill -9 $$" (Some 60)
    {| NetJobsAgent.returncode := -9;
       NetJobsAgent.stdout := "";
       NetJobsAgent.stderr := "" |}.

(** A subprocess that succeeds after writing 5000 characters. *)
Definition long_output : string := string_of_list_ascii (repeat "a"%char 5000).

Definition talkative : NetJobsAgent.ProcThread :=
  NetJobsAgent.ProcThread_init "yes a | head -c 5000" (Some 60)
    {| NetJobsAgent.returncode := 0;
       NetJobsAgent.stdout := long_output;
       NetJobsAgent.stderr := "" |}.


(** Two jobs, the first without a deadline ([timeout 0]), the second with
    30 seconds. *)
Definition inbox_none_and_30 : list NetJobsAgent.arrival :=
  [NetJobsAgent.Recv ("name" ++ SOCKET_DELIMITER ++ "t1" ++ String LF "");
   NetJobsAgent.Recv ("command" ++ SOCKET_DELIMITER ++ "c1" ++ String LF "");
   NetJobsAgent.Recv ("timeout" ++ SOCKET_DELIMITER ++ "0" ++ String LF "");
   NetJobsAgent.Recv ("command" ++ SOCKET_DELIMITER ++ "c2" ++ String LF "");
   NetJobsAgent.Recv ("timeout" ++ SOCKET_DELIMITER ++ "30" ++ String LF "");
   NetJobsAgent.Recv READY_STRING].

(** Two jobs of 10 and 30 seconds. *)
Definition inbox_10_and_30 : list NetJobsAgent.arrival :=
  [NetJobsAgent.Recv ("name" ++ SOCKET_DELIMITER ++ "t1" ++ String LF "");
   NetJobsAgent.Recv ("command" ++ SOCKET_DELIMITER ++ "c1" ++ String LF "");
   NetJobsAgent.Recv ("timeout" ++ SOCKET_DELIMITER ++ "10" ++ String LF "");
   NetJobsAgent.Recv ("command" ++ SOCKET_DELIMITER ++ "c2" ++ String LF "");
   NetJobsAgent.Recv ("timeout" ++ SOCKET_DELIMITER ++ "30" ++ String LF "");
   NetJobsAgent.Recv READY_STRING].

(** The same two plans on the coordinator: [t1] with the jobs [c1] and
    [c2]. *)
Definition specs2 : list (string * list string) := [("t1", ["c1"; "c2"])].

Definition timeouts_none_and_30 : gmap string (gmap string (option Z)) :=
  {["t1" := <["c2" := Some 30]> {["c1" := Some 0]}]}.

Definition timeouts_10_and_30 : gmap string (gmap string (option Z)) :=
  {["t1" := <["c2" := Some 30]> {["c1" := Some 10]}]}.

(** Two commands but a single timeout, then the ready and the start
    messages. *)
Definition inbox_surplus_command : list NetJobsAgent.arrival :=
  [NetJobsAgent.Recv ("name" ++ SOCKET_DELIMITER ++ "t1" ++ String LF "");
   NetJobsAgent.Recv ("command" ++ SOCKET_DELIMITER ++ "c1" ++ String LF "");
   NetJobsAgent.Recv ("timeout" ++ SOCKET_DELIMITER ++ "10" ++ String LF "");
   NetJobsAgent.Recv ("command" ++ SOCKET_DELIMITER ++ "c2" ++ String LF "");
   NetJobsAgent.Recv READY_STRING;
   NetJobsAgent.Recv START_STRING].

(** Every write succeeds, every spawn succeeds with a subprocess that
    prints nothing and returns 0, and every subprocess has ended at the first
    poll. *)
Definition send_ok_always (k : nat) : bool := true.

Definition popen_quiet (i : nat) (command : string) : option NetJobsAgent.Popen :=
  Some {| NetJobsAgent.returncode := 0;
          NetJobsAgent.stdout := "";
          NetJobsAgent.stderr := "" |}.

Definition polls_ended (i : nat) : list NetJobsAgent.poll_event :=
  [NetJobsAgent.Poll true 0].

End Scenarios.

(** * The agent's SOSThread *)
Module SOSThread.
Import NetJobsAgent.

(** What a turn of the loop of [SOSThread.run] meets: [select] returns
    without the socket being readable, [recv] returns [buffer] (empty when
    the coordinator has closed the connection), one of the calls raises, or
    [main] has called [stop] since the last turn. *)
Inductive sos_event : Type :=
  | Idle
  | Read (buffer : string)
  | Fault
  | Stopped.

(** [SOSThread.timeout_handler] and [SOSThread.stop_and_kill_run], as they
    change the supervisors of the global [subthreads]. *)
Definition timeout_handler (name : string) (subthreads : list ProcThread)
    : list ProcThread :=
  map (stop_and_kill_subproc name (TIMEOUT_STATUS ++ SOCKET_DELIMITER)) subthreads.

Definition stop_and_kill_run (name : string) (subthreads : list ProcThread)
    : list ProcThread :=
  map (stop_and_kill_subproc name (KILLED_STATUS ++ SOCKET_DELIMITER)) subthreads.

(** The [try: while self.running: ... except: self.timeout_handler()] of
    [SOSThread.run], with [timeout] the value given to the constructor
    ([None] or an integer): [None] while the thread is still in its loop,
    otherwise the supervisors as the thread leaves them. *)
Fixpoint run_loop (name : string) (timeout : option Z) (evs : list sos_event)
    (running : bool) (subthreads : list ProcThread) : option (list ProcThread) :=
  if negb running then Some subthreads
  else
    match evs with
    | [] => None
    | Idle :: evs' => run_loop name timeout evs' running subthreads
    | Stopped :: evs' => run_loop name timeout evs' false subthreads
    | Fault :: _ => Some (timeout_handler name subthreads)
    | Read buffer :: evs' =>
        if String.eqb buffer "" then
          match timeout with
          | Some _ => Some (timeout_handler name subthreads)
          | None => run_loop name timeout evs' running subthreads
          end
        else if String.eqb buffer KILL_STRING then
          run_loop name timeout evs' false (stop_and_kill_run name subthreads)
        else run_loop name timeout evs' running subthreads
    end.

(** [SOSThread.run], for the thread that [main] creates with
    [SOSThread(sock, sosTimeout)]. *)
Definition run (a : Agent) (evs : list sos_event) : option (list ProcThread) :=
  run_loop (name a) (Some (sosTimeout a)) evs true (subthreads a).

(** A turn that changes nothing: the socket is not readable, or what is
    read is neither empty nor the kill message. *)
Definition ignored (ev : sos_event) : bool :=
  match ev with
  | Idle => true
  | Read buffer => negb (String.eqb buffer "") && negb (String.eqb buffer KILL_STRING)
  | _ => false
  end.

(** A turn that the thread takes for the loss of the coordinator: an
    empty read, or an exception of [select], [recv] or [decode]. *)
Definition lost (ev : sos_event) : bool :=
  match ev with
  | Read buffer => String.eqb buffer ""
  | Fault => true
  | _ => false
  end.

End SOSThread.

(** * The coordinator's reading of timeouts *)
Module Timeouts.

(** [s[-1]], [None] for the [IndexError] on an empty string, and [s[:-1]]. *)
Fixpoint last_char (s : string) : option ascii :=
  match s with
  | EmptyString => None
  | String c EmptyString => Some c
  | String _ s' => last_char s'
  end.

Fixpoint but_last (s : string) : string :=
  match s with
  | EmptyString => EmptyString
  | String _ EmptyString => EmptyString
  | String c s' => String c (but_last s')
  end.

(** [int(s)] on ASCII text, as the coordinator applies it to a token of a
    line: around the digits it skips the characters 9 to 13 and the space,
    not the separators 28 to 31 that [strip] also removes.  [None] stands
    for [ValueError]. *)
Definition int_space (c : ascii) : bool :=
  let n := nat_of_ascii c in
  ((9 <=? n) && (n <=? 13) || (n =? 32))%nat.

Fixpoint int_lstrip (s : string) : string :=
  match s with
  | EmptyString => EmptyString
  | String c s' => if int_space c then int_lstrip s' else s
  end.

Definition int_rstrip (s : string) : string :=
  String.rev (int_lstrip (String.rev s)).

Definition int (s : string) : option Z :=
  match int_rstrip (int_lstrip s) with
  | String "+"%char r => NetJobsAgent.digits r 0 false
  | String "-"%char r => Z.opp <$> NetJobsAgent.digits r 0 false
  | r => NetJobsAgent.digits r 0 false
  end.

(** [evaluate_timeout_status(timeout)].  The tests [unit is 'h'] and
    [unit is 'm'] compare the identity of two one-character strings, the
    character taken from [timeout] and a literal.  Equal one-character
    strings are one object in some interpreters and two in others (in
    CPython 3.11 ['1m'[-1] is 'm'] is [False]); [shared] tells which, so
    that the test is an equality when [shared] and fails otherwise. *)
Definition evaluate_timeout_status (shared : bool) (timeout : string) : except Z :=
  if String.eqb timeout "none" then Ok TIMEOUT_NONE
  else
    match last_char timeout with
    | None => Raise IndexError
    | Some unit =>
        match int (but_last timeout) with
        | None => Raise ValueError
        | Some value =>
            let multiplier :=
              if shared && Ascii.eqb unit "h" then 60 * 60
              else if shared && Ascii.eqb unit "m" then 60
              else 1 in
            Ok (value * multiplier)
        end
    end.

End Timeouts.

(** * The coordinator's configuration file: parse_config *)
Module Parser.

(** ** Regular expressions, as far as the patterns of the module use them *)

Inductive regex : Type :=
  | Nul
  | Eps
  | Chr (p : ascii -> bool)
  | Seq (r1 r2 : regex)
  | Alt (r1 r2 : regex)
  | Star (r : regex).

Definition Plus (r : regex) : regex := Seq r (Star r).
Definition Opt (r : regex) : regex := Alt r Eps.

Fixpoint Lit (s : string) : regex :=
  match s with
  | EmptyString => Eps
  | String c s' => Seq (Chr (Ascii.eqb c)) (Lit s')
  end.

Fixpoint nullable (r : regex) : bool :=
  match r with
  | Nul => false
  | Eps => true
  | Chr _ => false
  | Seq r1 r2 => nullable r1 && nullable r2
  | Alt r1 r2 => nullable r1 || nullable r2
  | Star _ => true
  end.

(** The expression for what may follow [c]. *)
Fixpoint deriv (c : ascii) (r : regex) : regex :=
  match r with
  | Nul => Nul
  | Eps => Nul
  | Chr p => if p c then Eps else Nul
  | Seq r1 r2 =>
      if nullable r1 then Alt (Seq (deriv c r1) r2) (deriv c r2)
      else Seq (deriv c r1) r2
  | Alt r1 r2 => Alt (deriv c r1) (deriv c r2)
  | Star r' => Seq (deriv c r') (Star r')
  end.

(** The whole of [s] is matched by [r]. *)
Fixpoint fullmatch (r : regex) (s : string) : bool :=
  match s with
  | EmptyString => nullable r
  | String c s' => fullmatch (deriv c r) s'
  end.

(** [re.compile(pattern).match(s)] is not [None], for a pattern
    [^ r $]: [r] matches from the start of [s], up to its end or up to a
    line feed that ends it. *)
Definition re_match (r : regex) (s : string) : bool :=
  fullmatch (Seq r (Opt (Chr (Ascii.eqb LF)))) s.

(** The classes [\w], [\d], [\s] and [.] on ASCII text. *)
Definition word (c : ascii) : bool :=
  let n := nat_of_ascii c in
  ((48 <=? n) && (n <=? 57) || (65 <=? n) && (n <=? 90)
   || (97 <=? n) && (n <=? 122) || (n =? 95))%nat.

Definition decimal (c : ascii) : bool :=
  let n := nat_of_ascii c in ((48 <=? n) && (n <=? 57))%nat.

Definition dot (c : ascii) : bool := negb (Ascii.eqb c LF).

Definition one_of (s : string) (c : ascii) : bool :=
  existsb (Ascii.eqb c) (list_ascii_of_string s).

Definition spaces : regex := Star (Chr (Ascii.eqb " ")).
Definition ws : regex := Star (Chr NetJobsAgent.is_space).

(** The part "(\d+ *[hms])|(none)" of the two timeout patterns. *)
Definition time_or_none : regex :=
  Alt (Seq (Plus (Chr decimal)) (Seq spaces (Chr (one_of "hms")))) (Lit "none").

(** The pattern "^(\w|\.)+ *: *$". *)
Definition TEST_LABEL_REGEX : regex :=
  Seq (Plus (Alt (Chr word) (Lit ".")))
    (Seq spaces (Seq (Lit ":") spaces)).

(** The pattern made of "^(\w|\.)+ *: *", the optional group
    "\d+ *[hms] *: *" and ".*\s*$". *)
Definition TEST_SPEC_REGEX : regex :=
  Seq (Plus (Alt (Chr word) (Lit ".")))
    (Seq spaces (Seq (Lit ":") (Seq spaces
      (Seq (Opt (Seq (Plus (Chr decimal))
                   (Seq spaces (Seq (Chr (one_of "hms"))
                      (Seq spaces (Seq (Lit ":") spaces))))))
        (Seq (Star (Chr dot)) ws))))).

(** The pattern "^\-timeout *: *((\d+ *[hms])|(none))\s*$". *)
Definition TEST_TIMEOUT_REGEX : regex :=
  Seq (Lit "-timeout")
    (Seq spaces (Seq (Lit ":") (Seq spaces (Seq time_or_none ws)))).

(** The pattern "^\-generaltimeout *: *((\d+ *[hms])|(none))\s*$". *)
Definition TEST_GENERAL_TIMEOUT_REGEX : regex :=
  Seq (Lit "-generaltimeout")
    (Seq spaces (Seq (Lit ":") (Seq spaces (Seq time_or_none ws)))).

(** The pattern "^\-minhosts *: *(\d+|all)\s*$". *)
Definition TEST_MIN_HOSTS_REGEX : regex :=
  Seq (Lit "-minhosts")
    (Seq spaces (Seq (Lit ":") (Seq spaces
      (Seq (Alt (Plus (Chr decimal)) (Lit "all")) ws)))).

(** The pattern "^end\s*$". *)
Definition TEST_END_REGEX : regex := Seq (Lit "end") ws.

(** [re.split] on the pattern ": *": [skipping] after a colon, while the spaces that
    follow it are consumed. *)
Fixpoint re_split_from (skipping : bool) (s : string) : list string :=
  match s with
  | EmptyString => [EmptyString]
  | String c s' =>
      if skipping && Ascii.eqb c " " then re_split_from true s'
      else if Ascii.eqb c ":" then EmptyString :: re_split_from true s'
      else match re_split_from false s' with
           | [] => [String c EmptyString]
           | t :: ts => String c t :: ts
           end
  end.

Definition re_split (s : string) : list string := re_split_from false s.

(** ** Strings and dictionaries *)

Definition strip (s : string) : string :=
  NetJobsAgent.rstrip (NetJobsAgent.lstrip s).

Definition startswith (c : ascii) (s : string) : bool :=
  match s with
  | String c' _ => Ascii.eqb c' c
  | EmptyString => false
  end.

Definition QUOTE : ascii := "034"%char.

(** [command[1:-1]] when [command] has more than one character and both
    starts and ends with a double quote. *)
Definition unquote (command : string) : string :=
  match command with
  | String c rest =>
      if (1 <? String.length command)%nat && Ascii.eqb c QUOTE
         && bool_decide (Timeouts.last_char command = Some QUOTE)
      then Timeouts.but_last rest
      else command
  | EmptyString => command
  end.

(** [d[k] = v] on an insertion-ordered dictionary. *)
Fixpoint dict_set {V} (d : list (string * V)) (k : string) (v : V)
    : list (string * V) :=
  match d with
  | [] => [(k, v)]
  | (k', v') :: d' =>
      if String.eqb k' k then (k', v) :: d' else (k', v') :: dict_set d' k v
  end.

Definition in_dict {V} (k : string) (d : list (string * V)) : bool :=
  existsb (String.eqb k) (keys d).

(** ** The state machine *)

Inductive State : Type := outsideTest | inTestNoTarget | inTestAndTarget.

(** The local variables of [parse_config] and [self.tests].  Before the
    first label line the variables of a test are unbound; they are not read
    in the state [outsideTest], and the label line assigns all of them but
    [command].  The local [timeout] is only read where it is assigned. *)
Record locals : Type := mkLocals {
  state : State;
  target : option string;
  command : option string;
  generalTimeout : Z;
  minHosts : Z;
  testLabel : string;
  specs : list (string * list string);
  timeouts : gmap string (gmap string (option Z));
  tests : list NetJobs.TestConfig
}.

Definition set_state (v : State) (l : locals) : locals :=
  {| state := v; target := target l; command := command l;
     generalTimeout := generalTimeout l; minHosts := minHosts l;
     testLabel := testLabel l; specs := specs l; timeouts := timeouts l;
     tests := tests l |}.

Definition set_generalTimeout (v : Z) (l : locals) : locals :=
  {| state := state l; target := target l; command := command l;
     generalTimeout := v; minHosts := minHosts l;
     testLabel := testLabel l; specs := specs l; timeouts := timeouts l;
     tests := tests l |}.

Definition set_minHosts (v : Z) (l : locals) : locals :=
  {| state := state l; target := target l; command := command l;
     generalTimeout := generalTimeout l; minHosts := v;
     testLabel := testLabel l; specs := specs l; timeouts := timeouts l;
     tests := tests l |}.

Definition set_timeouts (v : gmap string (gmap string (option Z))) (l : locals)
    : locals :=
  {| state := state l; target := target l; command := command l;
     generalTimeout := generalTimeout l; minHosts := minHosts l;
     testLabel := testLabel l; specs := specs l; timeouts := v;
     tests := tests l |}.

(** [evaluate_timeout_status(tokens[1])] with the test [< 0], inside
    [try: ... except ValueError: sys.exit(...)]. *)
Definition read_timeout (shared : bool) (tokens : list string) : except Z :=
  let! text := list_getitem tokens 1 in
  match Timeouts.evaluate_timeout_status shared text with
  | Ok timeout => if timeout <? 0 then Raise SystemExit else Ok timeout
  | Raise ValueError => Raise SystemExit
  | Raise e => Raise e
  end.

(** The block [if state is State.outsideTest: ... elif state is
    State.inTestNoTarget: ...]. *)
Definition before_target (shared : bool) (line : string) (tokens : list string)
    (l : locals) : except locals :=
  match state l with
  | outsideTest =>
      if negb (re_match TEST_LABEL_REGEX line) then Raise SystemExit
      else
        let! label := list_getitem tokens 0 in
        Ok {| state := inTestNoTarget; target := None; command := command l;
              generalTimeout := TIMEOUT_NONE; minHosts := MIN_HOSTS_ALL;
              testLabel := label; specs := []; timeouts := ∅;
              tests := tests l |}
  | inTestNoTarget =>
      if re_match TEST_GENERAL_TIMEOUT_REGEX line then
        let! timeout := read_timeout shared tokens in
        Ok (set_generalTimeout timeout l)
      else if re_match TEST_MIN_HOSTS_REGEX line then
        let! text := list_getitem tokens 1 in
        if String.eqb text "all" then Ok (set_minHosts MIN_HOSTS_ALL l)
        else
          match Timeouts.int text with
          | Some n => Ok (set_minHosts n l)
          | None => Raise SystemExit
          end
      else if re_match TEST_END_REGEX line then Raise SystemExit
      else if re_match TEST_TIMEOUT_REGEX line then Raise SystemExit
      else if re_match TEST_SPEC_REGEX line then Ok (set_state inTestAndTarget l)
      else Raise SystemExit
  | inTestAndTarget => Ok l
  end.

(** The block [if state is State.inTestAndTarget: ...].  In its timeout
    branch [target] and [command] are those of the last job line; with
    [target] still [None] the branch would add an entry under [None], which
    no target reads. *)
Definition with_target (shared : bool) (line : string) (tokens : list string)
    (l : locals) : except locals :=
  if re_match TEST_SPEC_REGEX line then
    let! target := list_getitem tokens 0 in
    let! command := list_getitem tokens 1 in
    let command := unquote command in
    let specs := if in_dict target (specs l) then specs l
                 else dict_set (specs l) target [] in
    let! commands := dict_get specs target in
    let specs := dict_set specs target (commands ++ [command])%list in
    let timeouts := match timeouts l !! target with
                    | None => <[target := ∅]> (timeouts l)
                    | Some _ => timeouts l
                    end in
    let! tmo := getitem timeouts target in
    let timeouts :=
      <[target := <[command := Some (generalTimeout l)]> tmo]> timeouts in
    Ok {| state := state l; target := Some target; command := Some command;
          generalTimeout := generalTimeout l; minHosts := minHosts l;
          testLabel := testLabel l; specs := specs; timeouts := timeouts;
          tests := tests l |}
  else if re_match TEST_TIMEOUT_REGEX line then
    let! timeout := read_timeout shared tokens in
    match target l with
    | None => Ok l
    | Some target =>
        match timeouts l !! target with
        | None => Ok (set_timeouts (<[target := ∅]> (timeouts l)) l)
        | Some tmo =>
            match command l with
            | None => Raise UnboundLocalError
            | Some command =>
                Ok (set_timeouts
                      (<[target := <[command := Some timeout]> tmo]> (timeouts l)) l)
            end
        end
    end
  else if re_match TEST_END_REGEX line then
    let! test := NetJobs.TestConfig_init (testLabel l) (generalTimeout l)
                   (minHosts l) (specs l) (timeouts l) in
    Ok {| state := outsideTest; target := target l; command := command l;
          generalTimeout := generalTimeout l; minHosts := minHosts l;
          testLabel := testLabel l; specs := specs l; timeouts := timeouts l;
          tests := (tests l ++ [test])%list |}
  else if re_match TEST_GENERAL_TIMEOUT_REGEX line
          || re_match TEST_MIN_HOSTS_REGEX line then Raise SystemExit
  else Raise SystemExit.

(** One turn of [while lines:]. *)
Definition parse_line (shared : bool) (line : string) (l : locals)
    : except locals :=
  let tokens := re_split line in
  let! l := before_target shared line tokens l in
  match state l with
  | inTestAndTarget => with_target shared line tokens l
  | _ => Ok l
  end.

Fixpoint parse_lines (shared : bool) (lines : list string) (l : locals)
    : except locals :=
  match lines with
  | [] => Ok l
  | line :: rest =>
      let! l := parse_line shared line l in
      parse_lines shared rest l
  end.

(** The lines of the queue: stripped, without the empty ones and those
    that start with a hash. *)
Definition queue (file : list string) : list string :=
  List.filter (fun line => negb (startswith "#" line)
                           && negb (String.eqb (strip line) ""))
    (map strip file).

Definition start_locals : locals :=
  {| state := outsideTest; target := None; command := None;
     generalTimeout := TIMEOUT_NONE; minHosts := MIN_HOSTS_ALL;
     testLabel := ""; specs := []; timeouts := ∅; tests := [] |}.

(** [parse_config] for a coordinator whose [tests] is empty; [file] is the
    sequence of lines that iterating over the file gives, [None] when
    [open] raises [IOError]; [shared] is as for
    [evaluate_timeout_status].  The result is [self.tests]. *)
Definition parse_config (shared : bool) (file : option (list string))
    : except (list NetJobs.TestConfig) :=
  match file with
  | None => Raise SystemExit
  | Some file =>
      let! l := parse_lines shared (queue file) start_locals in
      Ok (tests l)
  end.

End Parser.

(** * Further predicates and scenarios *)
Module Predicates.

(** A turn of the listener's loop at which nothing arrives: the socket is
    not ready, or the read is empty. *)
Definition quiet (ev : NetJobs.event) : bool :=
  match ev with
  | NetJobs.Turn _ NetJobs.NotReady => true
  | NetJobs.Turn _ (NetJobs.Received status) => String.eqb status ""
  | _ => false
  end.

(** A quiet turn at which the clock reads less than [T]. *)
Definition quiet_before (T : Z) (ev : NetJobs.event) : bool :=
  match ev with
  | NetJobs.Turn elapsedTime _ => quiet ev && (elapsedTime <? T)
  | _ => false
  end.

(** An agent that accepts the connection and echoes every message of
    [msgs]: the calls are the connection, then a send and a read for each
    message. *)
Definition peer_echoing (msgs : list string) (n : nat) : NetJobs.io :=
  match n with
  | O => NetJobs.Returned ""
  | S k =>
      if Nat.even k then NetJobs.Returned ""
      else match msgs !! (k / 2)%nat with
           | Some m => NetJobs.Returned m
           | None => NetJobs.TimedOut
           end
  end.

(** The configuration messages for [t1] in the plan [test1]. *)
Definition messages1 : list string :=
  ["name" ++ SOCKET_DELIMITER ++ "t1" ++ String LF "";
   "command" ++ SOCKET_DELIMITER ++ "c1" ++ String LF "";
   "timeout" ++ SOCKET_DELIMITER ++ "0" ++ String LF "";
   READY_STRING].

(** No character of [s] is white space. *)
Definition unspaced (s : string) : Prop :=
  Forall (fun c => NetJobsAgent.is_space c = false) (list_ascii_of_string s).

(** Neither a tabulation nor a line feed in [s]. *)
Definition plain (s : string) : Prop :=
  ~ In TAB (list_ascii_of_string s) /\ ~ In LF (list_ascii_of_string s).

(** What the agent registers for the timeout [t] of the plan. *)
Definition agent_timeout (t : Z) : option Z :=
  if t =? TIMEOUT_NONE then None else Some t.

(** A poll that finds the subprocess still running before the deadline of
    the supervisor; no event is of that kind for a supervisor without a
    deadline. *)
Definition pending (timeout : option Z) (ev : NetJobsAgent.poll_event) : bool :=
  match timeout, ev with
  | Some tm, NetJobsAgent.Poll false elapsedTime => elapsedTime <? tm
  | _, _ => false
  end.

(** The record of a supervisor for [command] with the rest [rest]. *)
Definition record_of (name command rest : string) : string :=
  name ++ SOCKET_DELIMITER ++ command ++ SOCKET_DELIMITER ++ rest.

(** A supervisor for [sleep 30] with a deadline of 10 seconds, and one
    without a deadline. *)
Definition sleeper : NetJobsAgent.ProcThread :=
  NetJobsAgent.ProcThread_init "sleep 30" (Some 10)
    {| NetJobsAgent.returncode := 0;
       NetJobsAgent.stdout := "";
       NetJobsAgent.stderr := "" |}.

Definition sleeper_no_deadline : NetJobsAgent.ProcThread :=
  NetJobsAgent.ProcThread_init "sleep 30" None
    {| NetJobsAgent.returncode := 0;
       NetJobsAgent.stdout := "";
       NetJobsAgent.stderr := "" |}.

(** An agent serving [t1] whose run has the two supervisors. *)
Definition agent_running : NetJobsAgent.Agent :=
  NetJobsAgent.set_subthreads
    [NetJobsAgent.set_thread_running true sleeper;
     NetJobsAgent.set_thread_running true sleeper_no_deadline]
    (NetJobsAgent.set_sosTimeout 10 (NetJobsAgent.serving "t1")).

(** A [subprocess.Popen] that succeeds for the first command only. *)
Definition popen_first_only (i : nat) (command : string)
    : option NetJobsAgent.Popen :=
  match i with
  | O => Some {| NetJobsAgent.returncode := 0;
                 NetJobsAgent.stdout := "one";
                 NetJobsAgent.stderr := "" |}
  | S _ => None
  end.

(** No colon in [s]. *)
Definition colon_free (s : string) : Prop :=
  ~ In ":"%char (list_ascii_of_string s).

(** No colon in a target or a command of the plan. *)
Definition colon_free_plan (sp : list (string * list string)) : Prop :=
  forall target commands,
    (target, commands) ∈ sp ->
    colon_free target /\ forall command, command ∈ commands -> colon_free command.

(** Every timeout stored is an integer that is not negative. *)
Definition timeouts_nonneg (tmos : gmap string (gmap string (option Z))) : Prop :=
  forall target tmo command v,
    tmos !! target = Some tmo -> tmo !! command = Some v ->
    exists t, v = Some t /\ 0 <= t.

(** A test as the claims about the coordinator take it: no target twice,
    an integer timeout for every job, none of them negative. *)
Definition well_formed (test : NetJobs.TestConfig) : Prop :=
  NetJobs.parsed (NetJobs.specs test) (NetJobs.timeouts test)
  /\ timeouts_nonneg (NetJobs.timeouts test)
  /\ 0 <= NetJobs.generalTimeout test.

(** What the parser keeps true of its variables and of the tests it has
    built. *)
Definition parser_invariant (l : Parser.locals) : Prop :=
  colon_free_plan (Parser.specs l)
  /\ NetJobs.parsed (Parser.specs l) (Parser.timeouts l)
  /\ timeouts_nonneg (Parser.timeouts l)
  /\ 0 <= Parser.generalTimeout l
  /\ Forall (fun test => colon_free_plan (NetJobs.specs test) /\ well_formed test)
       (Parser.tests l).

(** A configuration file: a comment, a test of two targets, and a second
    test that no [end] line closes. *)
Definition file_example : list string :=
  ["# two hosts" ++ String LF "";
   "nightly:" ++ String LF "";
   "-generaltimeout: 90s" ++ String LF "";
   "-minhosts: 1" ++ String LF "";
   "t1: scp a t2:b" ++ String LF "";
   "-timeout: 30s" ++ String LF "";
   "t2: sleep 5" ++ String LF "";
   "end" ++ String LF ""].

Definition file_unclosed : list string :=
  ["weekly:" ++ String LF "";
   "t3: make check" ++ String LF ""].

(** The test that [parse_config] builds from [file_example]. *)
Definition test_example : NetJobs.TestConfig :=
  {| NetJobs.label := "nightly";
     NetJobs.generalTimeout := 90;
     NetJobs.minHosts := 1;
     NetJobs.specs := [("t1", ["scp a t2"]); ("t2", ["sleep 5"])];
     NetJobs.timeouts :=
       {["t1" := {["scp a t2" := Some 30]}; "t2" := {["sleep 5" := Some 90]}]};
     NetJobs.results :=
       {["t1" := {["scp a t2" := None]}; "t2" := {["sleep 5" := None]}]};
     NetJobs.timeoutsRemaining := Some 1;
     NetJobs.listenerTimeouts := {["t1" := Some 90; "t2" := Some 90]} |}.

(** A [subprocess.Popen] that raises for every command. *)
Definition popen_failing (i : nat) (command : string)
    : option NetJobsAgent.Popen := None.

(** The first poll of every supervisor finds the subprocess running, the
    second finds it ended. *)
Definition polls_running_once (i : nat) : list NetJobsAgent.poll_event :=
  [NetJobsAgent.Poll false 0; NetJobsAgent.Poll true 1].

(** The supervisor of a command whose spawn failed has the subprocess of
    the supervisor before it; there is one. *)
Definition reuses_previous (popen : nat -> string -> option NetJobsAgent.Popen)
    (threads : list NetJobsAgent.ProcThread) : Prop :=
  forall i t,
    threads !! i = Some t ->
    popen i (NetJobsAgent.command t) = None ->
    exists i' previous,
      i = S i' /\ threads !! i' = Some previous
      /\ NetJobsAgent.proc t = NetJobsAgent.proc previous.

End Predicates.

(** * Properties of the coordinator *)
Module NetJobsSpec.
Import NetJobs Scenarios.

(** ** The abort policy *)

Lemma handle_timeout_aborted_stays target test nj :
  testAborted nj = true ->
  handle_timeout target test nj = (nj, test).
Proof. intros H. unfold handle_timeout. now rewrite H. Qed.

(** Once the test is aborted, further failures change nothing. *)
Lemma fail_targets_aborted failing test nj :
  testAborted nj = true ->
  fail_targets failing (nj, test) = (nj, test).
Proof.
  induction failing as [|target rest IH]; intros H; simpl; [reflexivity|].
  rewrite handle_timeout_aborted_stays by assumption. now apply IH.
Qed.

(** With [r] timeouts remaining, the test is aborted exactly by the
    [(r+1)]-th failure. *)
Lemma fail_targets_remaining failing : forall test nj r,
  testAborted nj = false ->
  minHosts test <> MIN_HOSTS_ALL ->
  timeoutsRemaining test = Some r ->
  0 <= r ->
  testAborted (fst (fail_targets failing (nj, test)))
  = (r <? Z.of_nat (List.length failing)).
Proof.
  induction failing as [|target rest IH]; intros test nj r Hna Hall Hr Hpos.
  - simpl. rewrite Hna. symmetry. apply Z.ltb_ge. lia.
  - cbn [fail_targets fst snd]. unfold handle_timeout.
    rewrite Hna. cbn [negb].
    destruct (minHosts test =? MIN_HOSTS_ALL) eqn:E; [apply Z.eqb_eq in E; tauto|].
    rewrite Hr.
    assert (Hlen : Z.of_nat (List.length (target :: rest))
                   = 1 + Z.of_nat (List.length rest))
      by (cbn [List.length]; lia).
    rewrite Hlen. destruct (r <? 1) eqn:E1.
    + rewrite fail_targets_aborted by reflexivity.
      cbn [fst set_testAborted stop_and_kill_listeners set_listeners testAborted].
      symmetry. apply Z.ltb_lt. apply Z.ltb_lt in E1. lia.
    + apply Z.ltb_ge in E1.
      rewrite (IH _ nj (r - 1)) by (assumption || reflexivity || lia).
      destruct (r - 1 <? Z.of_nat (List.length rest)) eqn:E2; symmetry.
      * apply Z.ltb_lt. apply Z.ltb_lt in E2. lia.
      * apply Z.ltb_ge. apply Z.ltb_ge in E2. lia.
Qed.

(** What the policy computes for a plan with [minHosts = K >= 1]: after [M]
    failures the test is aborted if and only if [M > K], whatever the number
    of targets. *)
Lemma fail_targets_minhosts failing test K :
  minHosts test = K ->
  timeoutsRemaining test = Some K ->
  1 <= K ->
  testAborted (fst (fail_targets failing (fresh, test))) = true
  <-> K < Z.of_nat (List.length failing).
Proof.
  intros Hk Hr Hpos.
  rewrite (fail_targets_remaining failing test fresh K);
    [apply Z.ltb_lt | reflexivity | unfold MIN_HOSTS_ALL; lia | assumption | lia].
Qed.

Lemma test3_init : TestConfig_init "test" 0 2 specs3 timeouts3 = Ok test3.
Proof. vm_compute. reflexivity. Qed.

Lemma test1_init :
  TestConfig_init "test" 0 MIN_HOSTS_ALL specs1 timeouts1 = Ok test1.
Proof. vm_compute. reflexivity. Qed.

Lemma test3_one_init : TestConfig_init "test" 0 1 specs3 timeouts3 = Ok test3_one.
Proof. vm_compute. reflexivity. Qed.

(** C1, at the plan of three targets.  With [minhosts: 2], after two
    targets have failed only one host is left, fewer than the two that the
    test requires, and the abort policy has not aborted the test.  With
    [minhosts: 1], after two targets have failed one host is left, as many as
    the test requires, and the abort policy has aborted the test. *)
Theorem minhosts_threshold_at_three_targets :
  TestConfig_init "test" 0 2 specs3 timeouts3 = Ok test3
  /\ List.length (specs test3) = 3%nat
  /\ minHosts test3 = 2
  /\ testAborted (fst (fail_targets ["t1"; "t2"] (fresh, test3))) = false
  /\ ~ (3 - 2 >= minHosts test3)
  /\ TestConfig_init "test" 0 1 specs3 timeouts3 = Ok test3_one
  /\ minHosts test3_one = 1
  /\ testAborted (fst (fail_targets ["t1"; "t2"] (fresh, test3_one))) = true
  /\ 3 - 2 >= minHosts test3_one.
Proof.
  split; [exact test3_init|].
  do 3 (split; [reflexivity|]). split; [cbn; lia|].
  split; [exact test3_one_init|].
  do 2 (split; [reflexivity|]). cbn. lia.
Qed.

(** ** Parsing a record *)

Lemma split_nonempty sep s : split sep s <> [].
Proof.
  destruct s as [|c s]; simpl; [discriminate|].
  destruct (Ascii.eqb c sep); [discriminate|].
  destruct (split sep s); discriminate.
Qed.

(** A message of fewer than four fields: the padding loop assigns to the
    index [4 - count], which is past the end for one or two fields and is the
    command field for three, so either the assignment or the read of
    [tokens[3]] raises. *)
Lemma process_result_string_short message test :
  (List.length (split TAB message) < 4)%nat ->
  process_result_string message test = Raise IndexError.
Proof.
  unfold process_result_string. intros Hlen.
  pose proof (split_nonempty TAB message) as Hne.
  destruct (split TAB message) as [|a [|b [|c [|d l]]]]; cbn in *;
    try reflexivity; try congruence; lia.
Qed.

(** A message of at least four fields is stored under its own first two
    fields. *)
Lemma process_result_string_full message test tgt cmd status output rest :
  split TAB message = tgt :: cmd :: status :: output :: rest ->
  process_result_string message test
  = store tgt cmd (Some (status, output)) test.
Proof.
  unfold process_result_string. intros ->. cbn [List.length].
  destruct (S (S (S (S (List.length rest)))) <? 4)%nat eqn:E;
    [apply Nat.ltb_lt in E; lia | reflexivity].
Qed.

(** C8, at records of three, two and one fields: each raises [IndexError]
    in [process_result_string] instead of being padded. *)
Theorem short_records_raise_index_error :
  forall test,
    process_result_string (String.concat SOCKET_DELIMITER ["t1"; "c1"; "SUCCESS"]) test
    = Raise IndexError
    /\ process_result_string (String.concat SOCKET_DELIMITER ["t1"; "c1"]) test
       = Raise IndexError
    /\ process_result_string "t1" test = Raise IndexError.
Proof.
  intros test. repeat split; apply process_result_string_short; vm_compute; lia.
Qed.

(** ** The result map under stores *)

Lemma store_unknown_target target command v test :
  results test !! target = None ->
  store target command v test = Raise KeyError.
Proof. intros H. unfold store, getitem. now rewrite H. Qed.

Lemma store_known_target target command v test row :
  results test !! target = Some row ->
  store target command v test
  = Ok (set_results (<[target := <[command := v]> row]> (results test)) test).
Proof. intros H. unfold store, getitem. now rewrite H. Qed.

Lemma result_of_store target command v test test' tgt cmd :
  store target command v test = Ok test' ->
  result_of test' tgt cmd
  = if decide (tgt = target /\ cmd = command) then Some v
    else result_of test tgt cmd.
Proof.
  unfold store, getitem.
  destruct (results test !! target) as [row|] eqn:Hrow; [|discriminate].
  cbn. intros [= <-]. unfold result_of. cbn.
  destruct (decide (tgt = target)) as [->|Hne].
  - rewrite lookup_insert_eq, Hrow. cbn.
    destruct (decide (cmd = command)) as [->|Hc].
    + rewrite lookup_insert_eq. now rewrite decide_True.
    + rewrite lookup_insert_ne by congruence.
      rewrite decide_False; [reflexivity | intros [_ ?]; congruence].
  - rewrite lookup_insert_ne by congruence.
    rewrite decide_False; [reflexivity | intros [? _]; congruence].
Qed.

Lemma store_specs target command v test test' :
  store target command v test = Ok test' -> specs test' = specs test.
Proof.
  unfold store. destruct (getitem (results test) target); cbn; [|discriminate].
  now intros [= <-].
Qed.

(** A store never removes an entry. *)
Lemma store_keeps_entries target command v test test' tgt cmd :
  store target command (Some v) test = Ok test' ->
  is_Some (result_of test tgt cmd) ->
  is_Some (result_of test' tgt cmd).
Proof.
  intros Hs Hsome. rewrite (result_of_store _ _ _ _ _ tgt cmd Hs).
  destruct (decide _); [eauto | assumption].
Qed.

Lemma handle_timeout_results target test nj :
  results (snd (handle_timeout target test nj)) = results test.
Proof.
  unfold handle_timeout.
  destruct (negb (testAborted nj)); [|reflexivity].
  destruct (minHosts test =? MIN_HOSTS_ALL); [reflexivity|].
  destruct (timeoutsRemaining test) as [r|]; [|reflexivity].
  destruct (r <? 1); reflexivity.
Qed.

Lemma handle_timeout_specs target test nj :
  specs (snd (handle_timeout target test nj)) = specs test.
Proof.
  unfold handle_timeout.
  destruct (negb (testAborted nj)); [|reflexivity].
  destruct (minHosts test =? MIN_HOSTS_ALL); [reflexivity|].
  destruct (timeoutsRemaining test) as [r|]; [|reflexivity].
  destruct (r <? 1); reflexivity.
Qed.

Lemma result_of_handle_timeout target test nj tgt cmd :
  result_of (snd (handle_timeout target test nj)) tgt cmd = result_of test tgt cmd.
Proof. unfold result_of. now rewrite handle_timeout_results. Qed.

(** ** The listener's loop, one record at a time *)

Lemma listen_loop_record target timeout elapsedTime message evs st :
  running target (fst st) = true ->
  deadline_reached timeout elapsedTime = false ->
  message <> "" ->
  message <> DONE_STRING ->
  listen_loop target timeout (Turn elapsedTime (Received message) :: evs) st
  = match process_result_string message (snd st) with
    | Ok test' => listen_loop target timeout evs (fst st, test')
    | Raise _ => Some (ListenThread_handle_timeout target st)
    end.
Proof.
  intros Hrun Hdl Hne Hdone. cbn [listen_loop]. rewrite Hrun, Hdl. cbn [negb].
  destruct (String.eqb_spec message ""); [contradiction|].
  destruct (String.eqb_spec message DONE_STRING); [contradiction|].
  reflexivity.
Qed.

(** C10, as the code has it: a record of four fields or more is stored
    under its own target and command fields.  When its target field is not
    a key of [results] the store raises, the listener calls [handle_timeout]
    and leaves its loop (for [print_signoff], which [ListenThread_run] applies
    to the state the loop ends with).  When its target field is a key the
    store succeeds, also for a command that is not in the plan, whose entry
    is added, and the listener goes on with the next event. *)
Theorem record_stored_under_own_fields
    target timeout elapsedTime message evs st tgt cmd status output rest :
  running target (fst st) = true ->
  deadline_reached timeout elapsedTime = false ->
  message <> "" ->
  message <> DONE_STRING ->
  split TAB message = tgt :: cmd :: status :: output :: rest ->
  listen_loop target timeout (Turn elapsedTime (Received message) :: evs) st
  = match results (snd st) !! tgt with
    | None => Some (ListenThread_handle_timeout target st)
    | Some row =>
        listen_loop target timeout evs
          (fst st,
           set_results (<[tgt := <[cmd := Some (status, output)]> row]>
                          (results (snd st))) (snd st))
    end.
Proof.
  intros Hrun Hdl Hne Hdone Hsplit.
  rewrite listen_loop_record by assumption.
  rewrite (process_result_string_full _ _ _ _ _ _ _ Hsplit).
  destruct (results (snd st) !! tgt) as [row|] eqn:Hrow.
  - now rewrite (store_known_target _ _ _ _ _ Hrow).
  - now rewrite (store_unknown_target _ _ _ _ Hrow).
Qed.

(** The theorem above at a record for an unknown target: the listener of
    [t1] leaves its loop through [handle_timeout]. *)
Lemma record_stored_under_own_fields_witness :
  listen_loop "t1" None traffic_unknown_target
    (set_running "t1" true started1, test1)
  = Some (ListenThread_handle_timeout "t1" (set_running "t1" true started1, test1)).
Proof.
  exact (record_stored_under_own_fields "t1" None 0
           (record "t9" "c1" "SUCCESS" "x") []
           (set_running "t1" true started1, test1)
           "t9" "c1" "SUCCESS" "x" []
           eq_refl eq_refl
           ltac:(discriminate) ltac:(discriminate) eq_refl).
Defined.

(** C10 as stated fails for a command that is not in the plan: under
    [minhosts: all] any call of [handle_timeout] aborts the test, and after a
    record for the unknown command [bogus] the test is not aborted, the
    record is stored, and the listener has gone on to the end of the run. *)
Lemma unknown_command_is_stored_without_timeout :
  testAborted (fst (handle_timeout "t1" test1 started1)) = true
  /\ match ListenThread_run "t1" (Some 0) traffic_unknown_command (started1, test1) with
     | Some (Ok (nj', test')) =>
         result_of test1 "t1" "bogus" = None
         /\ result_of test' "t1" "bogus" = Some (Some ("SUCCESS", "x"))
         /\ testAborted nj' = false
         /\ timeoutsRemaining test' = timeoutsRemaining test1
     | _ => False
     end.
Proof. vm_compute. repeat split; reflexivity. Qed.

(** ** Signoff *)

Lemma result_of_some test target command v :
  result_of test target command = Some v ->
  exists row, results test !! target = Some row /\ row !! command = Some v.
Proof.
  unfold result_of. destruct (results test !! target) as [row|]; cbn; [|discriminate].
  intros H. now exists row.
Qed.

(** Over commands that all have an entry, the signoff loop does not raise;
    it sets exactly the unset entries of [commands] to [(KILLED, "")]. *)
Lemma signoff_commands_spec target : forall commands test,
  covered target commands test ->
  exists test',
    signoff_commands target commands test = Ok test'
    /\ specs test' = specs test
    /\ forall tgt cmd,
         result_of test' tgt cmd
         = if decide (tgt = target /\ cmd ∈ commands
                      /\ result_of test tgt cmd = Some None)
           then Some (Some (KILLED_STATUS, ""))
           else result_of test tgt cmd.
Proof.
  induction commands as [|command rest IH]; intros test Hcov.
  - exists test. repeat split. intros tgt cmd.
    rewrite decide_False; [reflexivity|]. intros (_ & Hin & _). inversion Hin.
  - destruct (Hcov command) as [v Hv]; [left|].
    destruct (result_of_some _ _ _ _ Hv) as (row & Hrow & Hcmd).
    cbn [signoff_commands]. unfold getitem at 1. rewrite Hrow. cbn [bind].
    unfold getitem at 1. rewrite Hcmd. cbn [bind].
    destruct v as [v|].
    + destruct (IH test) as (test' & Hs & Hsp & Hres).
      { intros c Hc. apply Hcov. now right. }
      exists test'. repeat split; [assumption..|].
      intros tgt cmd. rewrite Hres.
      repeat case_decide; try reflexivity.
      * exfalso. destruct H as (-> & Hin & Hn). apply H0. repeat split; [now right | assumption].
      * exfalso. destruct H0 as (-> & Hin & Hn). apply H. repeat split; [|assumption].
        apply elem_of_cons in Hin as [->|Hin]; [congruence | assumption].
    + destruct (store target command (Some (KILLED_STATUS, "")) test)
        as [test1|e] eqn:Hstore;
        [|rewrite (store_known_target _ _ _ _ _ Hrow) in Hstore; discriminate].
      cbn [bind].
      destruct (IH test1) as (test' & Hs & Hsp & Hres).
      { intros c Hc. eapply store_keeps_entries; [exact Hstore|].
        apply Hcov. now right. }
      exists test'. split; [assumption|].
      split; [rewrite Hsp; eapply store_specs; exact Hstore|].
      intros tgt cmd. rewrite Hres.
      rewrite !(result_of_store _ _ _ _ _ tgt cmd Hstore).
      repeat case_decide; try reflexivity; exfalso.
      * destruct H0 as [-> ->]. destruct H as (_ & _ & Hn). discriminate.
      * destruct H as (-> & Hin & Hn). apply H1. repeat split; [now right | assumption].
      * destruct H0 as [-> ->]. apply H1. repeat split; [left | assumption].
      * destruct H1 as (-> & Hin & Hn). apply H. repeat split; [|assumption].
        apply elem_of_cons in Hin as [->|Hin]; [tauto | assumption].
Qed.

(** ** What the loop does to the result map *)

Lemma process_result_string_ok message test test' :
  process_result_string message test = Ok test' ->
  exists tgt cmd status output rest,
    split TAB message = tgt :: cmd :: status :: output :: rest
    /\ store tgt cmd (Some (status, output)) test = Ok test'.
Proof.
  intros H.
  destruct (split TAB message) as [|a [|b [|c [|d l]]]] eqn:E.
  1-4: rewrite process_result_string_short in H
         by (rewrite E; cbn [List.length]; lia); discriminate.
  exists a, b, c, d, l. split; [reflexivity|].
  now rewrite <- (process_result_string_full _ _ _ _ _ _ _ E).
Qed.

Lemma ListenThread_handle_timeout_results target st :
  results (snd (ListenThread_handle_timeout target st)) = results (snd st)
  /\ specs (snd (ListenThread_handle_timeout target st)) = specs (snd st).
Proof.
  unfold ListenThread_handle_timeout.
  now rewrite handle_timeout_results, handle_timeout_specs.
Qed.

Lemma from_record_later ev evs tgt cmd v :
  from_record evs tgt cmd v -> from_record (ev :: evs) tgt cmd v.
Proof.
  intros (m & st & o & r & Hin & Hsp & Hv). exists m, st, o, r.
  repeat split; [|assumption..].
  destruct ev as [e [| |]|]; cbn; try assumption. now right.
Qed.

Lemma listen_loop_results target timeout evs : forall st st',
  listen_loop target timeout evs st = Some st' ->
  specs (snd st') = specs (snd st)
  /\ forall tgt cmd,
       (is_Some (result_of (snd st) tgt cmd) -> is_Some (result_of (snd st') tgt cmd))
       /\ (result_of (snd st') tgt cmd = result_of (snd st) tgt cmd
           \/ from_record evs tgt cmd (default None (result_of (snd st') tgt cmd))
              /\ is_Some (result_of (snd st') tgt cmd)).
Proof.
  assert (Hrefl : forall (st : NetJobs * TestConfig) evs',
    specs (snd st) = specs (snd st)
    /\ forall tgt cmd,
         (is_Some (result_of (snd st) tgt cmd) -> is_Some (result_of (snd st) tgt cmd))
         /\ (result_of (snd st) tgt cmd = result_of (snd st) tgt cmd
             \/ from_record evs' tgt cmd (default None (result_of (snd st) tgt cmd))
                /\ is_Some (result_of (snd st) tgt cmd))).
  { intros st evs'. split; [reflexivity|]. intros; split; [tauto | now left]. }
  assert (Hht : forall (st : NetJobs * TestConfig) evs',
    specs (snd (ListenThread_handle_timeout target st)) = specs (snd st)
    /\ forall tgt cmd,
         (is_Some (result_of (snd st) tgt cmd)
          -> is_Some (result_of (snd (ListenThread_handle_timeout target st)) tgt cmd))
         /\ (result_of (snd (ListenThread_handle_timeout target st)) tgt cmd
             = result_of (snd st) tgt cmd
             \/ from_record evs' tgt cmd
                  (default None (result_of (snd (ListenThread_handle_timeout target st)) tgt cmd))
                /\ is_Some (result_of (snd (ListenThread_handle_timeout target st)) tgt cmd))).
  { intros st evs'. destruct (ListenThread_handle_timeout_results target st) as [Hr Hs].
    split; [assumption|]. intros tgt cmd. unfold result_of. rewrite Hr.
    split; [tauto | now left]. }
  assert (Hstep : forall ev evs' (st1 st2 st3 : NetJobs * TestConfig),
    (specs (snd st2) = specs (snd st1)
     /\ forall tgt cmd,
          (is_Some (result_of (snd st1) tgt cmd) -> is_Some (result_of (snd st2) tgt cmd))
          /\ (result_of (snd st2) tgt cmd = result_of (snd st1) tgt cmd
              \/ from_record (ev :: evs') tgt cmd (default None (result_of (snd st2) tgt cmd))
                 /\ is_Some (result_of (snd st2) tgt cmd))) ->
    (specs (snd st3) = specs (snd st2)
     /\ forall tgt cmd,
          (is_Some (result_of (snd st2) tgt cmd) -> is_Some (result_of (snd st3) tgt cmd))
          /\ (result_of (snd st3) tgt cmd = result_of (snd st2) tgt cmd
              \/ from_record evs' tgt cmd (default None (result_of (snd st3) tgt cmd))
                 /\ is_Some (result_of (snd st3) tgt cmd))) ->
    specs (snd st3) = specs (snd st1)
    /\ forall tgt cmd,
         (is_Some (result_of (snd st1) tgt cmd) -> is_Some (result_of (snd st3) tgt cmd))
         /\ (result_of (snd st3) tgt cmd = result_of (snd st1) tgt cmd
             \/ from_record (ev :: evs') tgt cmd (default None (result_of (snd st3) tgt cmd))
                /\ is_Some (result_of (snd st3) tgt cmd))).
  { intros ev evs' st1 st2 st3 [Hs12 H12] [Hs23 H23].
    split; [congruence|]. intros tgt cmd.
    destruct (H12 tgt cmd) as [Ha Hb]. destruct (H23 tgt cmd) as [Hc Hd].
    split; [tauto|].
    destruct Hd as [Heq|[Hfrom Hsome]].
    - rewrite Heq. exact Hb.
    - right. split; [now apply from_record_later | assumption]. }
  induction evs as [|ev evs IH]; intros st st' Hloop; cbn [listen_loop] in Hloop.
  - destruct (negb (running target (fst st))); [|discriminate].
    injection Hloop as <-. apply Hrefl.
  - destruct (negb (running target (fst st))).
    { injection Hloop as <-. apply Hrefl. }
    destruct ev as [elapsedTime o|target'].
    + destruct (deadline_reached timeout elapsedTime).
      { eapply Hstep; [|exact (IH _ _ Hloop)].
        destruct (Hht st (Turn elapsedTime o :: evs)) as [? ?]. now split. }
      destruct o as [|message|].
      * eapply Hstep; [apply Hrefl | exact (IH _ _ Hloop)].
      * destruct (String.eqb message "").
        { eapply Hstep; [apply Hrefl | exact (IH _ _ Hloop)]. }
        destruct (String.eqb message DONE_STRING).
        { eapply Hstep; [|exact (IH _ _ Hloop)]. apply (Hrefl (_, snd st)). }
        destruct (process_result_string message (snd st)) as [test'|e] eqn:Hp.
        -- eapply Hstep; [|exact (IH _ _ Hloop)]. cbn [snd].
           destruct (process_result_string_ok _ _ _ Hp)
             as (tgt0 & cmd0 & status & output & rest & Hsplit & Hstore).
           split; [eapply store_specs; exact Hstore|].
           intros tgt cmd. split; [eapply store_keeps_entries; exact Hstore|].
           rewrite (result_of_store _ _ _ _ _ tgt cmd Hstore).
           case_decide as Hd; [|now left].
           destruct Hd as [-> ->]. right. split; [|eauto].
           exists message, status, output, rest. cbn.
           repeat split; [left | assumption].
        -- injection Hloop as <-. apply Hht.
      * injection Hloop as <-. apply Hht.
    + eapply Hstep; [|exact (IH _ _ Hloop)].
      destruct (ListenThread_handle_timeout_results target' st) as [Hr Hs].
      split; [assumption|]. intros tgt cmd. unfold result_of. rewrite Hr.
      split; [tauto | now left].
Qed.

(** ** The listener ends *)

Lemma running_after_handle_timeout target st :
  running target (fst (ListenThread_handle_timeout target st)) = false.
Proof.
  unfold ListenThread_handle_timeout, handle_timeout, running.
  destruct (negb (testAborted _)); cbn [fst];
    [|now cbn; rewrite lookup_insert_eq].
  destruct (minHosts (snd st) =? MIN_HOSTS_ALL); cbn [fst].
  - cbn. rewrite lookup_fmap, lookup_insert_eq. reflexivity.
  - destruct (timeoutsRemaining (snd st)) as [r|]; cbn [fst];
      [|now cbn; rewrite lookup_insert_eq].
    destruct (r <? 1); cbn [fst].
    + cbn. rewrite lookup_fmap, lookup_insert_eq. reflexivity.
    + cbn. now rewrite lookup_insert_eq.
Qed.

Lemma listen_loop_stopped target timeout evs st :
  running target (fst st) = false ->
  listen_loop target timeout evs st = Some st.
Proof. intros H. destruct evs; cbn [listen_loop]; now rewrite H. Qed.

(** Whatever came before, the loop has ended once the agent's [DONE] has
    been read (or, at that turn, the deadline has been found reached). *)
Lemma listen_loop_ends_at_done target timeout elapsedTime evs : forall st,
  listen_loop target timeout (evs ++ [Turn elapsedTime (Received DONE_STRING)]) st
  <> None.
Proof.
  induction evs as [|ev evs IH]; intros st; cbn [app listen_loop].
  - destruct (negb (running target (fst st))); [discriminate|].
    destruct (deadline_reached timeout elapsedTime).
    + now rewrite running_after_handle_timeout.
    + cbn. unfold running. cbn. now rewrite lookup_insert_eq.
  - destruct (negb (running target (fst st))); [discriminate|].
    destruct ev as [e o|target']; [|apply IH].
    destruct (deadline_reached timeout e); [apply IH|].
    destruct o as [|message|]; [apply IH| |discriminate].
    destruct (String.eqb message ""); [apply IH|].
    destruct (String.eqb message DONE_STRING); [apply IH|].
    destruct (process_result_string message (snd st)); [apply IH|discriminate].
Qed.

Lemma ListenThread_run_ends_at_done target timeout elapsedTime evs st :
  ListenThread_run target timeout
    (evs ++ [Turn elapsedTime (Received DONE_STRING)]) st <> None.
Proof.
  unfold ListenThread_run.
  pose proof (listen_loop_ends_at_done target (effective_timeout timeout)
                elapsedTime evs (set_running target true (fst st), snd st)) as H.
  destruct (listen_loop _ _ _ _); [discriminate | contradiction].
Qed.

(** ** Every pair of the plan has a result once the listener has exited *)

(** C2, as the code has it: when the listener of [target] has exited, every
    command of the target's plan has a stored [(status, output)] pair.  An
    entry that the loop left unset is [(KILLED, "")], set by the signoff; an
    entry that the loop left set is kept, and it is either the one the test
    had before the listener ran or the third and fourth fields of a received
    record whose first two fields are this target and command: the status is
    stored as received, whether or not it is in the vocabulary. *)
Theorem signoff_gives_every_pair_a_result target timeout evs nj test commands r :
  dict_get (specs test) target = Ok commands ->
  covered target commands test ->
  ListenThread_run target timeout evs (nj, test) = Some r ->
  exists nj' before test',
    listen_loop target (effective_timeout timeout) evs
      (set_running target true nj, test) = Some (nj', before)
    /\ r = Ok (nj', test')
    /\ forall command, command ∈ commands ->
         exists status output,
           result_of test' target command = Some (Some (status, output))
           /\ (result_of before target command = Some None
               -> (status, output) = (KILLED_STATUS, ""))
           /\ (result_of before target command <> Some None
               -> result_of before target command = Some (Some (status, output))
                  /\ (result_of test target command = Some (Some (status, output))
                      \/ from_record evs target command (Some (status, output)))).
Proof.
  intros Hspecs Hcov Hrun. unfold ListenThread_run in Hrun. cbn [fst snd] in Hrun.
  destruct (listen_loop target (effective_timeout timeout) evs
              (set_running target true nj, test)) as [[nj' before]|] eqn:Hloop;
    [|discriminate].
  destruct (listen_loop_results _ _ _ _ _ Hloop) as [Hsp Hres].
  cbn [fst snd] in Hsp, Hres, Hrun.
  assert (Hcov' : covered target commands before).
  { intros c Hc. apply Hres. now apply Hcov. }
  destruct (signoff_commands_spec target commands before Hcov')
    as (test' & Hsign & _ & Hafter).
  unfold print_signoff in Hrun. rewrite Hsp, Hspecs in Hrun. cbn [bind] in Hrun.
  rewrite Hsign in Hrun. cbn [bind] in Hrun. injection Hrun as <-.
  exists nj', before, test'. repeat split.
  intros command Hin. destruct (Hcov' command Hin) as [v Hv].
  specialize (Hafter target command). rewrite Hv in Hafter.
  destruct v as [[status output]|].
  - rewrite decide_False in Hafter by (intros (_ & _ & ?); discriminate).
    exists status, output. rewrite Hv. split; [assumption|].
    split; [intros ?; discriminate|]. intros _. split; [reflexivity|].
    destruct (Hres target command) as [_ [Heq|[Hfrom _]]].
    + left. now rewrite <- Heq.
    + right. rewrite Hv in Hfrom. exact Hfrom.
  - rewrite decide_True in Hafter by (repeat split; assumption).
    exists KILLED_STATUS, "". rewrite Hv. split; [assumption|].
    split; [reflexivity|]. intros Hne. contradiction.
Qed.

(** The theorem above on the run of [traffic_unknown_status], which ends
    with the agent's [DONE]. *)
Lemma signoff_gives_every_pair_a_result_witness :
  exists r,
    ListenThread_run "t1" (Some 0) traffic_unknown_status (started1, test1) = Some r
    /\ exists nj' before test',
         listen_loop "t1" (effective_timeout (Some 0)) traffic_unknown_status
           (set_running "t1" true started1, test1) = Some (nj', before)
         /\ r = Ok (nj', test')
         /\ forall command, command ∈ ["c1"] ->
              exists status output,
                result_of test' "t1" command = Some (Some (status, output))
                /\ (result_of before "t1" command = Some None
                    -> (status, output) = (KILLED_STATUS, ""))
                /\ (result_of before "t1" command <> Some None
                    -> result_of before "t1" command = Some (Some (status, output))
                       /\ (result_of test1 "t1" command = Some (Some (status, output))
                           \/ from_record traffic_unknown_status "t1" command
                                (Some (status, output)))).
Proof.
  destruct (ListenThread_run "t1" (Some 0) traffic_unknown_status (started1, test1))
    as [r|] eqn:Hrun; [|vm_compute in Hrun; discriminate].
  exists r. split; [reflexivity|].
  apply (signoff_gives_every_pair_a_result "t1" (Some 0) traffic_unknown_status
           started1 test1 ["c1"] r).
  - reflexivity.
  - intros command Hin. apply list_elem_of_singleton in Hin as ->.
    vm_compute. eauto.
  - exact Hrun.
Defined.

(** C2 as stated fails on the status: the record [t1 c1 BOGUS x] is stored
    as it came, and after the listener of [t1] has exited the result of
    [(t1, c1)] has a status outside the vocabulary. *)
Lemma stored_status_outside_vocabulary :
  match ListenThread_run "t1" (Some 0) traffic_unknown_status (started1, test1) with
  | Some (Ok (_, test')) =>
      dict_get (specs test1) "t1" = Ok ["c1"]
      /\ result_of test' "t1" "c1" = Some (Some ("BOGUS", "x"))
      /\ ~ In "BOGUS" status_vocabulary
  | _ => False
  end.
Proof.
  vm_compute. split; [reflexivity|]. split; [reflexivity|]. intros H.
  repeat (destruct H as [H|H]; [discriminate H|]). exact H.
Qed.

(** ** What TestConfig.__init__ builds *)

Lemma fold_unset_lookup (commands : list string) : forall (res : gmap string stored) c,
  fold_left (fun r command => <[command := None]> r) commands res !! c
  = if decide (c ∈ commands) then Some None else res !! c.
Proof.
  induction commands as [|command rest IH]; intros res c; cbn [fold_left].
  - rewrite decide_False; [reflexivity | apply not_elem_of_nil].
  - rewrite IH. destruct (decide (c ∈ rest)) as [Hin|Hnin].
    + rewrite decide_True; [reflexivity | now right].
    + destruct (decide (c = command)) as [->|Hne].
      * rewrite lookup_insert_eq. rewrite decide_True; [reflexivity | left].
      * rewrite lookup_insert_ne by congruence.
        rewrite decide_False; [reflexivity|].
        intros Hin. apply elem_of_cons in Hin as [?|?]; contradiction.
Qed.

Lemma init_commands_ints tmos target : forall commands res timeout,
  (forall command, command ∈ commands ->
     exists t, plan_timeout tmos target command = Some (Some t)) ->
  init_commands tmos target commands res timeout
  = Ok (fold_left (fun r command => <[command := None]> r) commands res,
        Some (largest_timeout tmos target commands timeout)).
Proof.
  induction commands as [|command rest IH]; intros res timeout Hall;
    [reflexivity|].
  destruct (Hall command) as [t Ht]; [left|].
  cbn [init_commands]. unfold largest_timeout. cbn [map fold_left].
  unfold timeout_value at 2. rewrite Ht.
  unfold plan_timeout in Ht. unfold getitem at 1.
  destruct (tmos !! target) as [tmo|]; [|discriminate]. cbn in Ht. cbn [bind].
  unfold getitem. rewrite Ht. cbn [bind].
  rewrite IH by (intros c Hc; apply Hall; now right).
  unfold largest_timeout. do 4 f_equal.
  destruct (Z.ltb_spec timeout t); lia.
Qed.

Lemma fold_insert_absent {V W} (f : string -> W -> V) (sp : list (string * W)) :
  forall (res : gmap string V) target,
    target ∉ keys sp ->
    fold_left (fun r kv => <[kv.1 := f kv.1 kv.2]> r) sp res !! target
    = res !! target.
Proof.
  induction sp as [|[k w] rest IH]; intros res target Hnin; [reflexivity|].
  cbn [fold_left fst snd]. rewrite IH.
  - apply lookup_insert_ne. intros ->. apply Hnin. left.
  - intros Hin. apply Hnin. now right.
Qed.

Lemma dict_get_elem_of {W} (sp : list (string * W)) target w :
  dict_get sp target = Ok w -> (target, w) ∈ sp.
Proof.
  induction sp as [|[k v] rest IH]; cbn [dict_get]; [discriminate|].
  destruct (String.eqb_spec k target) as [->|Hne].
  - intros [= ->]. left.
  - intros H. right. now apply IH.
Qed.

Lemma fold_insert_present {V W} (f : string -> W -> V) (sp : list (string * W)) :
  forall (res : gmap string V) target w,
    NoDup (keys sp) ->
    dict_get sp target = Ok w ->
    fold_left (fun r kv => <[kv.1 := f kv.1 kv.2]> r) sp res !! target
    = Some (f target w).
Proof.
  induction sp as [|[k v] rest IH]; intros res target w Hnd Hget;
    cbn [dict_get] in Hget; [discriminate|].
  cbn [keys map fst] in Hnd. apply NoDup_cons in Hnd as [Hk Hnd].
  cbn [fold_left fst snd].
  destruct (String.eqb_spec k target) as [->|Hne].
  - injection Hget as ->. rewrite fold_insert_absent by exact Hk.
    apply lookup_insert_eq.
  - now apply IH.
Qed.

Lemma init_targets_ints generalTimeout tmos : forall sp res lt,
  (forall target commands command,
     (target, commands) ∈ sp -> command ∈ commands ->
     exists t, plan_timeout tmos target command = Some (Some t)) ->
  init_targets generalTimeout tmos sp res lt
  = Ok (fold_left
          (fun r kv =>
             <[kv.1 := fold_left (fun r command => <[command := None]> r) kv.2 ∅]> r)
          sp res,
        fold_left
          (fun l kv =>
             <[kv.1 := Some (largest_timeout tmos kv.1 kv.2 generalTimeout)]> l)
          sp lt).
Proof.
  induction sp as [|[target commands] rest IH]; intros res lt Hall;
    [reflexivity|].
  cbn [init_targets fold_left fst snd].
  rewrite init_commands_ints by (intros c Hc; eapply Hall; [left | exact Hc]).
  cbn [bind]. apply IH. intros t cs c Hin Hc. eapply Hall; [right; exact Hin | exact Hc].
Qed.

(** For a parsed plan the initializer does not raise; it leaves an unset
    entry for every pair of the plan, and the listener timeout of a target
    is the largest of the general timeout and the target's job timeouts. *)
Lemma TestConfig_init_parsed label generalTimeout minHosts sp tmos :
  parsed sp tmos ->
  exists test,
    TestConfig_init label generalTimeout minHosts sp tmos = Ok test
    /\ specs test = sp
    /\ NetJobs.minHosts test = minHosts
    /\ timeoutsRemaining test = (if minHosts =? 0 then None else Some minHosts)
    /\ forall target commands,
         dict_get sp target = Ok commands ->
         listenerTimeouts test !! target
         = Some (Some (largest_timeout tmos target commands generalTimeout))
         /\ covered target commands test
         /\ forall command, command ∈ commands ->
              result_of test target command = Some None.
Proof.
  intros [Hnd Hall]. unfold TestConfig_init.
  rewrite init_targets_ints by exact Hall. cbn [bind].
  eexists. split; [reflexivity|]. cbn [specs NetJobs.minHosts timeoutsRemaining].
  repeat split.
  - cbn [listenerTimeouts].
    now rewrite (fold_insert_present
                   (fun k cs => Some (largest_timeout tmos k cs generalTimeout))
                   sp ∅ target commands Hnd).
  - intros command Hin. unfold result_of. cbn [results].
    rewrite (fold_insert_present
               (fun _ cs => fold_left (fun r c => <[c := None]> r) cs ∅)
               sp ∅ target commands Hnd H).
    cbn. rewrite fold_unset_lookup. rewrite decide_True by assumption. eauto.
  - intros command Hin. unfold result_of. cbn [results].
    rewrite (fold_insert_present
               (fun _ cs => fold_left (fun r c => <[c := None]> r) cs ∅)
               sp ∅ target commands Hnd H).
    cbn. rewrite fold_unset_lookup. now rewrite decide_True by assumption.
Qed.

(** ** Failures while the agents are prepared *)

Lemma exchange_app peer : forall a n b,
  exchange peer n (a ++ b)
  = (let! n' := exchange peer n a in exchange peer n' b).
Proof.
  induction a as [|m a IH]; intros n b; cbn [app exchange bind]; [reflexivity|].
  destruct (echo_test peer n m) as [n'|e]; cbn [bind]; [apply IH | reflexivity].
Qed.

Lemma send_jobs_exchange peer tmo : forall commands msgs n,
  job_messages tmo commands = Ok msgs ->
  send_jobs peer tmo commands n = exchange peer n msgs.
Proof.
  induction commands as [|command rest IH]; intros msgs n H;
    cbn [job_messages] in H.
  - injection H as <-. reflexivity.
  - cbn [send_jobs]. destruct (getitem tmo command) as [timeout|]; [|discriminate].
    cbn [bind] in *.
    destruct (job_messages tmo rest) as [msgs'|] eqn:Hrest; [|discriminate].
    cbn [bind] in H. injection H as <-. cbn [exchange].
    destruct (echo_test peer n _) as [n1|]; cbn [bind]; [|reflexivity].
    destruct (echo_test peer n1 _) as [n2|]; cbn [bind]; [|reflexivity].
    now apply IH.
Qed.

Lemma prep_agent_exchange test target peer msgs :
  config_messages test target = Ok msgs ->
  prep_agent test target peer
  = (let! _ := io_outcome (peer 0%nat) in
     let! _ := exchange peer 1 msgs in Ok tt).
Proof.
  unfold config_messages, prep_agent. intros H.
  destruct (dict_get (specs test) target) as [commands|]; [|discriminate].
  destruct (getitem (timeouts test) target) as [tmo|]; [|discriminate].
  cbn [bind] in *.
  destruct (job_messages tmo commands) as [jm|] eqn:Hjm; [|discriminate].
  cbn [bind] in H. injection H as <-.
  destruct (io_outcome (peer 0%nat)); cbn [bind]; [|reflexivity].
  cbn [exchange].
  destruct (echo_test peer 1 _) as [n1|]; cbn [bind]; [|reflexivity].
  rewrite exchange_app, (send_jobs_exchange peer tmo commands jm n1 Hjm).
  destruct (exchange peer n1 jm) as [n2|]; cbn [bind exchange]; [|reflexivity].
  destruct (echo_test peer n2 READY_STRING); reflexivity.
Qed.

(** While the agent echoes verbatim the exchange moves on. *)
Lemma exchange_agrees peer : forall j msgs n,
  (forall i m, (i < j)%nat -> msgs !! i = Some m ->
     (exists d, peer (n + 2 * i)%nat = Returned d)
     /\ peer (S n + 2 * i)%nat = Returned m) ->
  (j <= List.length msgs)%nat ->
  exchange peer n msgs = exchange peer (n + 2 * j) (drop j msgs).
Proof.
  induction j as [|j IH]; intros msgs n Hag Hlen.
  - rewrite drop_0. f_equal. lia.
  - destruct msgs as [|m rest]; [cbn in Hlen; lia|].
    destruct (Hag 0%nat m) as [[d Hs] Hr]; [lia | reflexivity |].
    replace (n + 2 * 0)%nat with n in Hs by lia.
    replace (S n + 2 * 0)%nat with (S n) in Hr by lia.
    cbn [exchange drop]. unfold echo_test. rewrite Hs, Hr. cbn [io_outcome bind].
    rewrite String.eqb_refl. cbn [bind].
    rewrite (IH rest (S (S n))).
    + f_equal. lia.
    + intros i m' Hi Hm'. destruct (Hag (S i) m') as [[d' Hs'] Hr'];
        [lia | exact Hm' |].
      split.
      * exists d'. rewrite <- Hs'. f_equal. lia.
      * rewrite <- Hr'. f_equal. lia.
    + cbn [List.length] in Hlen. lia.
Qed.

Lemma exchange_from_agrees peer msgs j :
  agrees peer msgs j ->
  (j < List.length msgs)%nat ->
  exists m rest,
    msgs !! j = Some m
    /\ exchange peer 1 msgs
       = (let! n' := echo_test peer (1 + 2 * j) m in exchange peer n' rest).
Proof.
  intros [_ Hag] Hlen.
  destruct (lookup_lt_is_Some_2 msgs j Hlen) as [m Hm].
  exists m, (drop (S j) msgs). split; [assumption|].
  rewrite (exchange_agrees peer j msgs 1).
  - rewrite (drop_S _ _ _ Hm). reflexivity.
  - intros i m' Hi Hm'. destruct (Hag i m' Hi Hm') as [Hs Hr]. split; assumption.
  - lia.
Qed.

Lemma echo_test_at peer j m :
  echo_test peer (1 + 2 * j) m
  = (let! _ := io_outcome (peer (1 + 2 * j)%nat) in
     let! response := io_outcome (peer (2 + 2 * j)%nat) in
     if String.eqb response m then Ok (S (S (1 + 2 * j))) else Raise SystemExit).
Proof. reflexivity. Qed.

(** The exception with which the preparation of one agent ends, for each
    kind of failure. *)
Lemma prep_agent_fails test target peer msgs f :
  config_messages test target = Ok msgs ->
  fails_with peer msgs f ->
  prep_agent test target peer
  = Raise (match f with
           | ConnectTimeout | SendTimeout _ | RecvTimeout _ => SocketTimeout
           | ConnectError | SendError _ | RecvError _ => SocketError
           | Mismatch _ => SystemExit
           end).
Proof.
  intros Hmsgs Hf. rewrite (prep_agent_exchange _ _ _ _ Hmsgs).
  destruct f as [| |j|j|j|j|j]; cbn [fails_with] in Hf.
  - now rewrite Hf.
  - now rewrite Hf.
  - destruct Hf as (Hag & Hlen & Hs).
    destruct (exchange_from_agrees _ _ _ Hag Hlen) as (m & rest & _ & ->).
    destruct Hag as [[d ->] _]. cbn [io_outcome bind].
    rewrite echo_test_at. now rewrite Hs.
  - destruct Hf as (Hag & Hlen & Hs).
    destruct (exchange_from_agrees _ _ _ Hag Hlen) as (m & rest & _ & ->).
    destruct Hag as [[d ->] _]. cbn [io_outcome bind].
    rewrite echo_test_at. now rewrite Hs.
  - destruct Hf as (Hag & Hlen & [d' Hs] & Hr).
    destruct (exchange_from_agrees _ _ _ Hag Hlen) as (m & rest & _ & ->).
    destruct Hag as [[d ->] _]. cbn [io_outcome bind].
    rewrite echo_test_at. now rewrite Hs, Hr.
  - destruct Hf as (Hag & Hlen & [d' Hs] & Hr).
    destruct (exchange_from_agrees _ _ _ Hag Hlen) as (m & rest & _ & ->).
    destruct Hag as [[d ->] _]. cbn [io_outcome bind].
    rewrite echo_test_at. now rewrite Hs, Hr.
  - destruct Hf as (Hag & m & d' & r & Hm & Hs & Hr & Hne).
    destruct (exchange_from_agrees _ _ _ Hag (lookup_lt_Some _ _ _ Hm))
      as (m' & rest & Hm' & ->).
    rewrite Hm in Hm'. injection Hm' as <-.
    destruct Hag as [[d ->] _]. cbn [io_outcome bind].
    rewrite echo_test_at. rewrite Hs, Hr. cbn [io_outcome bind].
    destruct (String.eqb_spec r m); [contradiction | reflexivity].
Qed.

(** C4, as the code has it: of the failures of one agent during the
    prepare phase, a socket timeout (at the connection, at a send or at the
    read of an echo) is handled by [handle_timeout] for that target, and the
    preparation goes on with the next targets; an echo that differs from the
    message sent (name, command, timeout or ready) and any other socket error
    end the coordinator process through [sys.exit]. *)
Theorem prep_failure_routing created peers target rest st msgs f :
  created target = true ->
  config_messages (snd st) target = Ok msgs ->
  fails_with (peers target) msgs f ->
  prep_targets false created peers (target :: rest) st
  = if is_timeout f
    then prep_targets false created peers rest
           (handle_timeout target (snd st) (fst st))
    else Raise SystemExit.
Proof.
  intros Hc Hmsgs Hf. cbn [prep_targets]. rewrite Hc. cbn [negb].
  rewrite (prep_agent_fails _ _ _ _ _ Hmsgs Hf).
  destruct f; reflexivity.
Qed.

(** The theorem above for an agent that accepts the connection and then
    stays silent: the read of the first echo times out. *)
Lemma prep_failure_routing_witness :
  prep_targets false (fun _ => true) (fun _ => peer_silent) ["t1"] (fresh, test1)
  = prep_targets false (fun _ => true) (fun _ => peer_silent) []
      (handle_timeout "t1" test1 fresh).
Proof.
  apply (prep_failure_routing (fun _ => true) (fun _ => peer_silent) "t1" []
           (fresh, test1)
           ["name" ++ SOCKET_DELIMITER ++ "t1" ++ String LF "";
            "command" ++ SOCKET_DELIMITER ++ "c1" ++ String LF "";
            "timeout" ++ SOCKET_DELIMITER ++ "0" ++ String LF "";
            READY_STRING]
           (RecvTimeout 0)).
  - reflexivity.
  - vm_compute. reflexivity.
  - cbn [fails_with]. repeat split.
    + exists "". reflexivity.
    + lia.
    + lia.
    + cbn [List.length]. lia.
    + exists "". reflexivity.
Defined.

(** C4 as stated fails for an echo mismatch and for a refused connection:
    with one target whose agent echoes another name, and with one target
    that refuses the connection, [prep_agents] ends with [SystemExit] instead
    of returning after [handle_timeout]. *)
Lemma echo_mismatch_exits_coordinator :
  prep_agents false (fun _ => true) (fun _ => peer_wrong_name) (fresh, test1)
  = Raise SystemExit
  /\ prep_agents false (fun _ => true) (fun _ => peer_refusing) (fresh, test1)
     = Raise SystemExit.
Proof. vm_compute. split; reflexivity. Qed.

End NetJobsSpec.

(** * Properties of the agent *)
Module NetJobsAgentSpec.
Import NetJobsAgent Scenarios.

(** ** The fields of a record *)

Lemma tab_free_cons c s : tab_free (String c s) -> c <> TAB /\ tab_free s.
Proof.
  unfold tab_free. cbn [list_ascii_of_string In]. intros H. split.
  - intros ->. apply H. now left.
  - intros Hin. apply H. now right.
Qed.

Lemma split_cons sep c s :
  split sep (String c s)
  = if Ascii.eqb c sep then EmptyString :: split sep s
    else match split sep s with
         | [] => [String c EmptyString]
         | t :: ts => String c t :: ts
         end.
Proof. reflexivity. Qed.

Lemma split_tab_free s : forall r,
  tab_free s -> split TAB (s ++ String TAB r) = s :: split TAB r.
Proof.
  induction s as [|c s IH]; intros r Hfree; [reflexivity|].
  apply tab_free_cons in Hfree as [Hc Hs].
  change (String c s ++ String TAB r) with (String c (s ++ String TAB r)).
  rewrite split_cons, (IH r Hs).
  destruct (Ascii.eqb_spec c TAB) as [->|_]; [contradiction | reflexivity].
Qed.

Lemma record_fields a b c d :
  tab_free a -> tab_free b -> tab_free c ->
  split TAB (a ++ SOCKET_DELIMITER ++ b ++ SOCKET_DELIMITER
               ++ c ++ SOCKET_DELIMITER ++ d)
  = a :: b :: c :: split TAB d.
Proof.
  intros Ha Hb Hc. unfold SOCKET_DELIMITER.
  change (String TAB "" ++ ?x) with (String TAB x).
  rewrite (split_tab_free a) by assumption.
  change (String TAB "" ++ ?x) with (String TAB x).
  rewrite (split_tab_free b) by assumption.
  change (String TAB "" ++ ?x) with (String TAB x).
  now rewrite (split_tab_free c) by assumption.
Qed.

Lemma status_tab_free :
  tab_free SUCCESS_STATUS /\ tab_free ERROR_STATUS.
Proof.
  split; intros H; vm_compute in H;
    repeat (destruct H as [H|H]; [discriminate H|]); exact H.
Qed.

(** ** The status of a subprocess that ended by itself *)

(** The status field of the composed record: [ERROR] when the return code
    is positive or something was written to the standard error, [SUCCESS]
    otherwise, also for a negative return code. *)
Lemma compose_status name t :
  tab_free name -> tab_free (command t) ->
  field 2 (compose name t)
  = Some (if (0 <? returncode (proc t)) || negb (String.eqb (stderr (proc t)) "")
          then ERROR_STATUS else SUCCESS_STATUS).
Proof.
  intros Hn Hc. unfold field, compose. destruct status_tab_free as [Hs He].
  destruct ((0 <? returncode (proc t)) || negb (String.eqb (stderr (proc t)) ""));
    now rewrite record_fields.
Qed.

Lemma compose_success_iff name t :
  tab_free name -> tab_free (command t) ->
  field 2 (compose name t) = Some SUCCESS_STATUS
  <-> returncode (proc t) <= 0 /\ stderr (proc t) = "".
Proof.
  intros Hn Hc. rewrite (compose_status name t Hn Hc).
  destruct (Z.ltb_spec 0 (returncode (proc t))) as [Hpos|Hneg]; cbn [orb].
  - split; [discriminate | lia].
  - destruct (String.eqb_spec (stderr (proc t)) "") as [He|He]; cbn [negb].
    + split; [now split | reflexivity].
    + split; [discriminate | tauto].
Qed.

(** C3, at a subprocess that ended by itself with the return code -9 and
    an empty standard error: its exit code is not 0, and the record that the
    agent sends for it has the status [SUCCESS]. *)
Theorem negative_returncode_reported_as_success :
  match ProcThread_run send_ok_always [Poll true 1] self_killed (serving "t1") with
  | Some (t, a, None) =>
      returncode (proc self_killed) <> 0
      /\ result self_killed = "NONE"
      /\ sent a = [(record "t1" "kill -9 $$" SUCCESS_STATUS "", true)]
      /\ field 2 (result t) = Some SUCCESS_STATUS
  | _ => False
  end.
Proof. vm_compute. repeat split. discriminate. Qed.

(** ** Records longer than the buffer *)

(** For a record of more than 4096 characters [send_result] raises
    [NameError] and writes nothing to the connection. *)
Lemma send_result_oversized send_ok t a :
  (BUFFER_SIZE < String.length (composed (name a) t))%nat ->
  snd (send_result send_ok t a) = Some NameError
  /\ sent (snd (fst (send_result send_ok t a))) = sent a.
Proof.
  unfold composed, send_result. intros Hlen.
  destruct (String.eqb (result t) "NONE"); cbn [result set_result] in *;
    apply Nat.ltb_lt in Hlen; rewrite Hlen; split; reflexivity.
Qed.

(** C7, at a subprocess that succeeds with 5000 characters of output: the
    record is longer than 4096 characters, [send_result] raises [NameError]
    before any write, and nothing, truncated or not, is sent for the
    command. *)
Theorem oversized_record_raises_name_error :
  match ProcThread_run send_ok_always [Poll true 1] talkative (serving "t1") with
  | Some (t, a, e) =>
      (BUFFER_SIZE < String.length (result t))%nat
      /\ e = Some NameError
      /\ sent a = []
  | None => False
  end.
Proof. vm_compute. repeat split. lia. Qed.

(** ** Configuration *)

Lemma sendall_sent send_ok data a :
  sent (fst (sendall send_ok data a))
  = (sent a ++ [(data, send_ok (List.length (sent a)))])%list.
Proof. reflexivity. Qed.







(** ** The supervisors that start_run spawns *)

Lemma start_run_loop_spawned popen commands timeouts :
  forall n k proc subthreads,
    (k + n <= Nat.min (List.length commands) (List.length timeouts))%nat ->
    exists new,
      fst (start_run_loop popen commands timeouts (seq k n) proc subthreads)
      = (subthreads ++ new)%list
      /\ (forall i t, new !! i = Some t ->
            (i < n)%nat
            /\ commands !! (k + i)%nat = Some (command t)
            /\ timeouts !! (k + i)%nat = Some (timeout t)
            /\ result t = "NONE")
      /\ (snd (start_run_loop popen commands timeouts (seq k n) proc subthreads)
          = None -> List.length new = n)
      /\ ((proc <> None
           \/ exists c p, commands !! k = Some c /\ popen k c = Some p) ->
          snd (start_run_loop popen commands timeouts (seq k n) proc subthreads)
          = None).
Proof.
  induction n as [|n IH]; intros k proc subthreads Hk.
  - exists []. cbn [seq start_run_loop fst snd]. rewrite app_nil_r.
    split; [reflexivity|]. split; [intros [|j] t Hj; discriminate|].
    split; reflexivity.
  - cbn [seq start_run_loop].
    destruct (lookup_lt_is_Some_2 commands k) as [c Hc]; [lia|].
    destruct (lookup_lt_is_Some_2 timeouts k) as [tm Htm]; [lia|].
    unfold list_getitem. rewrite Hc, Htm.
    destruct (match popen k c with Some p => Some p | None => proc end)
      as [p|] eqn:Hproc.
    + destruct (IH (S k) (Some p) (subthreads ++ [ProcThread_init c tm p])%list)
        as (new & Hfst & Hall & Hlen & Hnone); [lia|].
      exists (ProcThread_init c tm p :: new). rewrite Hfst.
      split; [now rewrite <- app_assoc|].
      assert (Hsnd : snd (start_run_loop popen commands timeouts (seq (S k) n)
                            (Some p) (subthreads ++ [ProcThread_init c tm p])%list)
                     = None) by (apply Hnone; left; discriminate).
      split; [|split; [intros _; cbn [List.length]; f_equal; now apply Hlen
                      | intros _; exact Hsnd]].
      intros [|j] t Hj.
      * injection Hj as <-. rewrite Nat.add_0_r.
        repeat split; [lia | assumption..].
      * apply Hall in Hj as (Hlt & Hcj & Htj & Hrj).
        replace (k + S j)%nat with (S k + j)%nat by lia.
        repeat split; [lia | assumption..].
    + exists []. cbn [fst snd]. rewrite app_nil_r.
      split; [reflexivity|]. split; [intros [|j] t Hj; discriminate|].
      split; [discriminate|].
      intros [Hp|(c' & p' & Hc' & Hp')].
      * destruct (popen k c); [discriminate | contradiction].
      * injection Hc' as <-. rewrite Hp' in Hproc. discriminate.
Qed.

(** ** The records that the supervisors send *)

(** A supervisor keeps its command; its record is the one it had, or one
    that [stop_and_kill_subproc] wrote for this command. *)
Lemma wait_loop_record name : forall evs t t',
  wait_loop name evs t = Some t' ->
  command t' = command t
  /\ (result t' = result t
      \/ exists reason,
           result t' = name ++ SOCKET_DELIMITER ++ command t
                         ++ SOCKET_DELIMITER ++ reason).
Proof.
  assert (Hstop : forall reason t t',
    (command t' = command (stop_and_kill_subproc name reason t)
     /\ (result t' = result (stop_and_kill_subproc name reason t)
         \/ exists reason',
              result t' = name ++ SOCKET_DELIMITER
                            ++ command (stop_and_kill_subproc name reason t)
                            ++ SOCKET_DELIMITER ++ reason')) ->
    command t' = command t
    /\ (result t' = result t
        \/ exists reason',
             result t' = name ++ SOCKET_DELIMITER ++ command t
                           ++ SOCKET_DELIMITER ++ reason')).
  { intros reason t t' [Hc [Hr|[reason' Hr]]]; cbn in Hc, Hr.
    - split; [assumption|]. right. now exists reason.
    - split; [assumption|]. right. now exists reason'. }
  induction evs as [|ev evs IH]; intros t t' H; cbn [wait_loop] in H.
  - destruct (negb (running t)); [|discriminate]. injection H as <-. now split; [|left].
  - destruct (negb (running t)).
    { injection H as <-. now split; [|left]. }
    destruct ev as [finished elapsedTime|reason].
    + destruct finished.
      { injection H as <-. now split; [|left]. }
      destruct (timeout t) as [tm|].
      * destruct (tm <=? elapsedTime); [|now apply IH].
        eapply Hstop. apply IH. exact H.
      * injection H as <-. eapply Hstop. split; [reflexivity | now left].
    + eapply Hstop. apply IH. exact H.
Qed.

Lemma compose_shape name t :
  exists rest,
    compose name t
    = name ++ SOCKET_DELIMITER ++ command t ++ SOCKET_DELIMITER ++ rest.
Proof. unfold compose. destruct (_ || _); eauto. Qed.

(** What one supervisor adds to the connection: nothing, or one record for
    its own command. *)
Lemma ProcThread_run_sent send_ok evs t a t' a' e :
  result t = "NONE" ->
  ProcThread_run send_ok evs t a = Some (t', a', e) ->
  name a' = name a
  /\ (sent a' = sent a
      \/ exists rest ok,
           sent a' = (sent a ++ [((name a ++ SOCKET_DELIMITER ++ command t
                                     ++ SOCKET_DELIMITER ++ rest)%string, ok)])%list).
Proof.
  intros Hnone Hrun. unfold ProcThread_run in Hrun.
  destruct (wait_loop (name a) evs (set_thread_running true t)) as [t1|] eqn:Hwait;
    [|discriminate].
  destruct (wait_loop_record _ _ _ _ Hwait) as [Hc Hr]. cbn in Hc, Hr.
  injection Hrun as Hrun. unfold send_result in Hrun.
  assert (Hshape : exists rest,
    result (if String.eqb (result t1) "NONE"
            then set_result (compose (name a) t1) t1 else t1)
    = name a ++ SOCKET_DELIMITER ++ command t ++ SOCKET_DELIMITER ++ rest).
  { destruct (String.eqb_spec (result t1) "NONE") as [Heq|Hne].
    - cbn [result set_result]. rewrite <- Hc. apply compose_shape.
    - destruct Hr as [Hr|[reason Hr]]; [congruence|]. now exists reason. }
  destruct Hshape as [rest Hshape].
  destruct (BUFFER_SIZE <? String.length _)%nat; injection Hrun as <- <- <-.
  - split; [reflexivity | now left].
  - split; [reflexivity|]. right. exists rest. eexists.
    cbn [sent]. now rewrite Hshape.
Qed.

Lemma join_all_sent send_ok polls : forall threads i a threads' a',
  Forall (fun t => result t = "NONE") threads ->
  join_all send_ok polls i threads a = Some (threads', a') ->
  name a' = name a
  /\ exists recs,
       sent a' = (sent a ++ recs)%list
       /\ forall r, r ∈ recs ->
            exists t rest,
              t ∈ threads
              /\ r.1 = name a ++ SOCKET_DELIMITER ++ command t
                         ++ SOCKET_DELIMITER ++ rest.
Proof.
  induction threads as [|t threads IH]; intros i a threads' a' Hall Hjoin;
    cbn [join_all] in Hjoin.
  - injection Hjoin as <- <-. split; [reflexivity|]. exists [].
    rewrite app_nil_r. split; [reflexivity|]. intros r Hr. inversion Hr.
  - apply Forall_cons in Hall as [Ht Hall].
    destruct (ProcThread_run send_ok (polls i) t a) as [[[t1 a1] e]|] eqn:Hrun;
      [|discriminate].
    destruct (join_all send_ok polls (S i) threads a1) as [[ts a2]|] eqn:Hrest;
      [|discriminate].
    injection Hjoin as <- <-.
    destruct (ProcThread_run_sent _ _ _ _ _ _ _ Ht Hrun) as [Hn1 Hs1].
    destruct (IH _ _ _ _ Hall Hrest) as (Hn2 & recs & Hs2 & Hrecs).
    split; [congruence|].
    assert (Hlater : forall r, r ∈ recs ->
      exists t0 rest, t0 ∈ t :: threads
        /\ r.1 = name a ++ SOCKET_DELIMITER ++ command t0
                   ++ SOCKET_DELIMITER ++ rest).
    { intros r Hr. destruct (Hrecs r Hr) as (t0 & rest & Hin & Heq).
      exists t0, rest. split; [now right | now rewrite <- Hn1]. }
    destruct Hs1 as [Hs1|(rest & ok & Hs1)].
    + exists recs. split; [now rewrite Hs2, Hs1 | exact Hlater].
    + exists ((name a ++ SOCKET_DELIMITER ++ command t
                ++ SOCKET_DELIMITER ++ rest, ok) :: recs).
      split; [rewrite Hs2, Hs1; now rewrite <- app_assoc|].
      intros r Hr. apply elem_of_cons in Hr as [->|Hr]; [|now apply Hlater].
      exists t, rest. split; [left | reflexivity].
Qed.

(** C9: [start_run] spawns a supervisor only for the first
    [min(len(commands), len(timeouts))] pairs: the [i]-th supervisor has the
    [i]-th command and the [i]-th timeout, there are exactly that many when
    the function returns, and it returns whenever the first spawn succeeds.
    A command past that bound has no supervisor, and every record that the
    supervisors write to the connection carries one of the commands below
    the bound. *)
Theorem only_first_min_pairs_are_spawned
    popen commands timeouts send_ok polls a :
  let n := Nat.min (List.length commands) (List.length timeouts) in
  let spawned := start_run popen commands timeouts [] in
  (forall i t, fst spawned !! i = Some t ->
     (i < n)%nat
     /\ commands !! i = Some (command t)
     /\ timeouts !! i = Some (timeout t))
  /\ (snd spawned = None -> List.length (fst spawned) = n)
  /\ (forall c p, commands !! 0%nat = Some c -> popen 0%nat c = Some p ->
        snd spawned = None)
  /\ (forall threads' a',
        join_all send_ok polls 0 (fst spawned) a = Some (threads', a') ->
        exists recs,
          sent a' = (sent a ++ recs)%list
          /\ forall r, r ∈ recs ->
               exists i c rest,
                 (i < n)%nat
                 /\ commands !! i = Some c
                 /\ r.1 = name a ++ SOCKET_DELIMITER ++ c
                            ++ SOCKET_DELIMITER ++ rest).
Proof.
  intros n spawned. subst n spawned. unfold start_run.
  destruct (start_run_loop_spawned popen commands timeouts
              (Nat.min (List.length commands) (List.length timeouts)) 0 None [])
    as (new & Hfst & Hall & Hlen & Hnone); [lia|].
  cbn [app] in Hfst. rewrite Hfst.
  split; [|split; [|split]].
  - intros i t Hi. destruct (Hall i t Hi) as (Hlt & Hc & Ht & _).
    now repeat split.
  - exact Hlen.
  - intros c p Hc Hp. apply Hnone. right. now exists c, p.
  - intros threads' a' Hjoin.
    destruct (join_all_sent send_ok polls new 0 a threads' a') as (_ & recs & Hs & Hrecs);
      [|exact Hjoin|].
    { apply Forall_forall. intros t Ht.
      apply list_elem_of_lookup in Ht as [i Hi].
      now apply Hall in Hi. }
    exists recs. split; [assumption|]. intros r Hr.
    destruct (Hrecs r Hr) as (t & rest & Hin & Heq).
    apply list_elem_of_lookup in Hin as [i Hi].
    destruct (Hall i t Hi) as (Hlt & Hc & _).
    exists i, (command t), rest. now repeat split.
Qed.

(** With two commands and one timeout registered, one supervisor is
    spawned, for the first command, and the only record on the connection is
    the one of the first command. *)
Example surplus_command_is_not_spawned :
  match main_connection send_ok_always popen_quiet polls_ended
          inbox_surplus_command with
  | Some (a, None) =>
      map job (subthreads a) = [("c1", Some 10)]
      /\ drop 5 (map fst (sent a))
         = [record "t1" "c1" SUCCESS_STATUS ""; DONE_STRING]
  | _ => False
  end.
Proof. vm_compute. split; reflexivity. Qed.

End NetJobsAgentSpec.

(** * The deadlines computed from the job timeouts *)
Module TimeoutsSpec.
Import Scenarios.

(** ** The agent's sosTimeout *)

Lemma fold_max_ge (l : list Z) : forall x, x <= fold_left Z.max l x.
Proof.
  induction l as [|y l IH]; intros x; cbn [fold_left]; [lia|].
  specialize (IH (Z.max x y)). lia.
Qed.

Lemma fold_max_snoc (l : list Z) x y :
  fold_left Z.max (l ++ [y]) x = Z.max (fold_left Z.max l x) y.
Proof. now rewrite fold_left_app. Qed.

(** Whatever arrives, [sosTimeout] is the largest of 0 and the registered
    timeouts, an entry [None] counting as 0. *)
Lemma get_specs_loop_sosTimeout send_ok :
  forall inbox a commands timeouts commands' timeouts' a' rest,
    NetJobsAgent.sosTimeout a
    = fold_left Z.max (map (default 0) timeouts) 0 ->
    NetJobsAgent.get_specs_loop send_ok inbox a commands timeouts
    = (commands', timeouts', a', rest) ->
    NetJobsAgent.sosTimeout a'
    = fold_left Z.max (map (default 0) timeouts') 0.
Proof.
  induction inbox as [|ev inbox IH]; intros a commands timeouts c' t' a' rest Hinv H;
    cbn [NetJobsAgent.get_specs_loop] in H.
  - destruct (NetJobsAgent.ready a); injection H as <- <- <- <-; exact Hinv.
  - destruct (NetJobsAgent.ready a); [injection H as <- <- <- <-; exact Hinv|].
    destruct ev as [m|]; [|injection H as <- <- <- <-; exact Hinv].
    unfold NetJobsAgent.sendall in H.
    destruct (send_ok _); cbn [negb] in H;
      [|injection H as <- <- <- <-; exact Hinv].
    destruct (String.eqb m READY_STRING); [now apply IH in H|].
    destruct (split TAB (remove_char LF m)) as [|key [|value fields]];
      [injection H as <- <- <- <-; exact Hinv..|].
    destruct (String.eqb key "name"); [now apply IH in H|].
    destruct (String.eqb key "command"); [now apply IH in H|].
    destruct (String.eqb key "timeout");
      [|injection H as <- <- <- <-; exact Hinv].
    destruct (NetJobsAgent.py_int value) as [timeout|];
      [|injection H as <- <- <- <-; exact Hinv].
    destruct (timeout =? TIMEOUT_NONE).
    + apply IH in H; [exact H|]. cbn [NetJobsAgent.sosTimeout] in *.
      rewrite map_app. cbn [map default]. rewrite fold_max_snoc.
      pose proof (fold_max_ge (map (default 0) timeouts) 0). lia.
    + apply IH in H; [exact H|]. cbn [NetJobsAgent.sosTimeout] in *.
      rewrite map_app. cbn [map default]. rewrite fold_max_snoc, <- Hinv.
      destruct (Z.ltb_spec (NetJobsAgent.sosTimeout a) timeout);
        cbn [NetJobsAgent.sosTimeout NetJobsAgent.set_sosTimeout].
      all: unfold id; lia.
Qed.

Lemma get_specs_sosTimeout send_ok inbox a commands timeouts a' rest :
  NetJobsAgent.get_specs send_ok inbox a = (commands, timeouts, a', rest) ->
  NetJobsAgent.sosTimeout a' = fold_left Z.max (map (default 0) timeouts) 0.
Proof.
  unfold NetJobsAgent.get_specs. apply get_specs_loop_sosTimeout. reflexivity.
Qed.

(** C6, as the code has it, for a target none of whose job timeouts is
    NONE: on the coordinator [listenerTimeouts[target]] is the largest of the
    general timeout and the target's job timeouts, and on the agent
    [sosTimeout] is the largest of the registered timeouts (0 when none is
    positive). *)
Theorem finite_timeouts_give_the_largest
    label generalTimeout minHosts sp tmos target commands
    send_ok inbox a commands' ts a' rest :
  NetJobs.parsed sp tmos ->
  dict_get sp target = Ok commands ->
  (forall command, command ∈ commands ->
     NetJobs.timeout_value tmos target command <> TIMEOUT_NONE) ->
  NetJobsAgent.get_specs send_ok inbox a = (commands', map Some ts, a', rest) ->
  (exists test,
     NetJobs.TestConfig_init label generalTimeout minHosts sp tmos = Ok test
     /\ NetJobs.listenerTimeouts test !! target
        = Some (Some (fold_left Z.max
                        (map (NetJobs.timeout_value tmos target) commands)
                        generalTimeout)))
  /\ NetJobsAgent.sosTimeout a' = fold_left Z.max ts 0.
Proof.
  intros Hparsed Hget _ Hspecs. split.
  - destruct (NetJobsSpec.TestConfig_init_parsed label generalTimeout minHosts
                sp tmos Hparsed) as (test & Hinit & _ & _ & _ & Hall).
    exists test. split; [assumption|].
    now destruct (Hall target commands Hget) as [-> _].
  - rewrite (get_specs_sosTimeout _ _ _ _ _ _ _ Hspecs).
    rewrite map_map. f_equal. apply map_id.
Qed.

(** The theorem above for the jobs [c1] (10 seconds) and [c2] (30 seconds)
    of [t1] under a general timeout of 20 seconds. *)
Lemma finite_timeouts_give_the_largest_witness :
  (exists test,
     NetJobs.TestConfig_init "test" 20 MIN_HOSTS_ALL specs2 timeouts_10_and_30
     = Ok test
     /\ NetJobs.listenerTimeouts test !! "t1" = Some (Some 30))
  /\ NetJobsAgent.sosTimeout
       (NetJobsAgent.get_specs send_ok_always inbox_10_and_30
          (NetJobsAgent.serving "")).1.2
     = 30.
Proof.
  apply (finite_timeouts_give_the_largest "test" 20 MIN_HOSTS_ALL specs2
           timeouts_10_and_30 "t1" ["c1"; "c2"]
           send_ok_always inbox_10_and_30 (NetJobsAgent.serving "")
           ["c1"; "c2"] [10; 30]
           (NetJobsAgent.get_specs send_ok_always inbox_10_and_30
              (NetJobsAgent.serving "")).1.2
           []).
  - split.
    + repeat constructor; rewrite ?list_elem_of_In; cbn; tauto.
    + intros target commands command Ht Hc.
      apply list_elem_of_singleton in Ht. injection Ht as -> ->.
      apply elem_of_cons in Hc as [->|Hc]; [exists 10; reflexivity|].
      apply list_elem_of_singleton in Hc as ->. exists 30. reflexivity.
  - reflexivity.
  - intros command Hc.
    apply elem_of_cons in Hc as [->|Hc]; [vm_compute; discriminate|].
    apply list_elem_of_singleton in Hc as ->. vm_compute. discriminate.
  - vm_compute. reflexivity.
Defined.

(** C6 as stated fails in two ways.  The general timeout is a floor: with
    a general timeout of 100 seconds and jobs of 10 and 30 seconds the
    listener timeout is 100, not 30.  And NONE does not absorb: with the jobs
    [c1] (NONE, 0 on the wire and in the plan) and [c2] (30 seconds) the
    listener timeout is 30, a deadline for the listener, and the agent's
    [sosTimeout] is 30. *)
Lemma timeouts_floor_and_none_not_absorbing :
  match NetJobs.TestConfig_init "test" 100 MIN_HOSTS_ALL specs2
          timeouts_10_and_30 with
  | Ok test => NetJobs.listenerTimeouts test !! "t1" = Some (Some 100)
  | Raise _ => False
  end
  /\ match NetJobs.TestConfig_init "test" 0 MIN_HOSTS_ALL specs2
             timeouts_none_and_30 with
     | Ok test =>
         NetJobs.timeout_value timeouts_none_and_30 "t1" "c1" = TIMEOUT_NONE
         /\ NetJobs.listenerTimeouts test !! "t1" = Some (Some 30)
         /\ NetJobs.effective_timeout (Some 30) = Some 30
     | Raise _ => False
     end
  /\ match NetJobsAgent.get_specs send_ok_always inbox_none_and_30
             (NetJobsAgent.serving "") with
     | (_, timeouts, a, _) =>
         timeouts = [None; Some 30] /\ NetJobsAgent.sosTimeout a = 30
     end.
Proof. vm_compute. repeat split. Qed.

End TimeoutsSpec.

(** * Further properties of the coordinator *)
Module NetJobsMore.
Import NetJobs Scenarios Predicates.

(** ** The abort policy *)

Lemma TestConfig_init_fields label generalTimeout minHosts sp tmos test :
  TestConfig_init label generalTimeout minHosts sp tmos = Ok test ->
  NetJobs.minHosts test = minHosts
  /\ timeoutsRemaining test = (if minHosts =? 0 then None else Some minHosts)
  /\ specs test = sp
  /\ timeouts test = tmos.
Proof.
  unfold TestConfig_init.
  destruct (init_targets generalTimeout tmos sp ∅ ∅) as [[res lt]|]; cbn [bind];
    [|discriminate].
  intros [= <-]. now repeat split.
Qed.

Lemma stopped_listeners_do_not_run nj target :
  running target (stop_and_kill_listeners nj) = false.
Proof.
  unfold running, stop_and_kill_listeners. cbn. rewrite lookup_fmap.
  now destruct (listeners nj !! target).
Qed.

(** X1.  When the test requires all hosts, the first failure aborts it: the
    flag is set, every registered listener is told to stop, the test record
    is left as it was, and later failures change nothing any more. *)
Theorem all_hosts_first_failure_aborts target test nj more :
  minHosts test = MIN_HOSTS_ALL ->
  testAborted nj = false ->
  testAborted (fst (handle_timeout target test nj)) = true
  /\ snd (handle_timeout target test nj) = test
  /\ (forall t, running t (fst (handle_timeout target test nj)) = false)
  /\ fail_targets more (handle_timeout target test nj)
     = handle_timeout target test nj.
Proof.
  intros Hall Hna. unfold handle_timeout. rewrite Hna, Hall. cbn [negb].
  change (MIN_HOSTS_ALL =? MIN_HOSTS_ALL) with true. cbn [fst snd].
  split; [reflexivity|]. split; [reflexivity|].
  split; [intros t; apply stopped_listeners_do_not_run|].
  now apply NetJobsSpec.fail_targets_aborted.
Qed.

Lemma all_hosts_first_failure_aborts_witness :
  testAborted (fst (handle_timeout "t1" test1 started1)) = true
  /\ snd (handle_timeout "t1" test1 started1) = test1
  /\ (forall t, running t (fst (handle_timeout "t1" test1 started1)) = false)
  /\ fail_targets ["t1"] (handle_timeout "t1" test1 started1)
     = handle_timeout "t1" test1 started1.
Proof.
  apply (all_hosts_first_failure_aborts "t1" test1 started1 ["t1"]);
    reflexivity.
Defined.

(** X2.  With [minhosts: 0] the initializer leaves [timeoutsRemaining]
    undefined, and then no number of failures aborts the test or changes
    anything. *)
Theorem minhosts_zero_never_aborts label generalTimeout sp tmos test failing nj :
  TestConfig_init label generalTimeout 0 sp tmos = Ok test ->
  timeoutsRemaining test = None
  /\ fail_targets failing (nj, test) = (nj, test).
Proof.
  intros Hinit.
  destruct (TestConfig_init_fields _ _ _ _ _ _ Hinit) as (Hm & Hr & _ & _).
  cbn in Hr. split; [assumption|].
  induction failing as [|target rest IH]; [reflexivity|].
  cbn [fail_targets fst snd]. unfold handle_timeout.
  rewrite Hm, Hr. cbn. now destruct (negb (testAborted nj)).
Qed.

Lemma minhosts_zero_never_aborts_witness :
  exists test,
    TestConfig_init "test" 0 0 specs3 timeouts3 = Ok test
    /\ timeoutsRemaining test = None
    /\ fail_targets ["t1"; "t2"; "t3"] (fresh, test) = (fresh, test).
Proof.
  destruct (TestConfig_init "test" 0 0 specs3 timeouts3) as [test|] eqn:Hinit;
    [|vm_compute in Hinit; discriminate].
  exists test. split; [reflexivity|].
  exact (minhosts_zero_never_aborts "test" 0 specs3 timeouts3 test
           ["t1"; "t2"; "t3"] fresh Hinit).
Defined.

Lemma fail_targets_countdown failing : forall test nj r,
  testAborted nj = false ->
  minHosts test <> MIN_HOSTS_ALL ->
  timeoutsRemaining test = Some r ->
  0 <= r ->
  timeoutsRemaining (snd (fail_targets failing (nj, test)))
  = Some (r - Z.min (Z.of_nat (List.length failing)) r).
Proof.
  induction failing as [|target rest IH]; intros test nj r Hna Hall Hr Hpos.
  - cbn. rewrite Hr. f_equal. lia.
  - assert (Hlen : Z.of_nat (List.length (target :: rest))
                   = 1 + Z.of_nat (List.length rest))
      by (cbn [List.length]; lia).
    rewrite Hlen. cbn [fail_targets fst snd]. unfold handle_timeout.
    rewrite Hna. cbn [negb].
    destruct (minHosts test =? MIN_HOSTS_ALL) eqn:E; [apply Z.eqb_eq in E; tauto|].
    rewrite Hr. destruct (Z.ltb_spec r 1) as [Hlt|Hge].
    + rewrite NetJobsSpec.fail_targets_aborted by reflexivity.
      cbn [snd]. rewrite Hr. f_equal. lia.
    + rewrite (IH _ nj (r - 1)) by (assumption || reflexivity || lia).
      f_equal. lia.
Qed.

(** X3.  For a plan with [minhosts: K], [K >= 1], started afresh: after [M]
    failures the test is aborted if and only if [M > K], whatever the number
    of targets, and [timeoutsRemaining] has gone down by one for each of the
    first [K] failures. *)
Theorem abort_after_more_than_minhosts_failures
    label generalTimeout K sp tmos test failing :
  1 <= K ->
  TestConfig_init label generalTimeout K sp tmos = Ok test ->
  (testAborted (fst (fail_targets failing (fresh, test))) = true
   <-> K < Z.of_nat (List.length failing))
  /\ timeoutsRemaining (snd (fail_targets failing (fresh, test)))
     = Some (K - Z.min (Z.of_nat (List.length failing)) K).
Proof.
  intros HK Hinit.
  destruct (TestConfig_init_fields _ _ _ _ _ _ Hinit) as (Hm & Hr & _ & _).
  destruct (Z.eqb_spec K 0) as [->|_]; [lia|].
  assert (Hall : minHosts test <> MIN_HOSTS_ALL)
    by (rewrite Hm; unfold MIN_HOSTS_ALL; lia).
  split.
  - rewrite (NetJobsSpec.fail_targets_remaining failing test fresh K)
      by (reflexivity || assumption || lia).
    apply Z.ltb_lt.
  - apply fail_targets_countdown; (reflexivity || assumption || lia).
Qed.

Lemma abort_after_more_than_minhosts_failures_witness :
  (testAborted (fst (fail_targets ["t1"; "t2"; "t3"] (fresh, test3))) = true
   <-> 2 < Z.of_nat (List.length ["t1"; "t2"; "t3"]))
  /\ timeoutsRemaining (snd (fail_targets ["t1"; "t2"; "t3"] (fresh, test3)))
     = Some (2 - Z.min (Z.of_nat (List.length ["t1"; "t2"; "t3"])) 2).
Proof.
  apply (abort_after_more_than_minhosts_failures "test" 0 2 specs3 timeouts3
           test3 ["t1"; "t2"; "t3"]).
  - lia.
  - vm_compute. reflexivity.
Defined.

(** ** The listener and the clock *)

Lemma listen_loop_quiet target timeout evs : forall st,
  running target (fst st) = true ->
  Forall (fun ev => match ev with
                    | Turn elapsedTime _ =>
                        quiet ev = true
                        /\ deadline_reached timeout elapsedTime = false
                    | Elsewhere _ => False
                    end) evs ->
  forall rest,
    listen_loop target timeout (evs ++ rest) st
    = listen_loop target timeout rest st.
Proof.
  induction evs as [|ev evs IH]; intros st Hrun Hall rest; [reflexivity|].
  apply Forall_cons in Hall as [Hev Hall].
  destruct ev as [elapsedTime o|target']; [|contradiction].
  destruct Hev as [Hq Hd].
  cbn [app listen_loop]. rewrite Hrun, Hd. cbn [negb].
  destruct o as [|status|]; cbn in Hq; [now apply IH| |discriminate].
  rewrite Hq. now apply IH.
Qed.

Lemma running_set_running target b nj : running target (set_running target b nj) = b.
Proof. unfold running, set_running. cbn. now rewrite lookup_insert_eq. Qed.

(** X4.  A listener without a deadline (its timeout is [None] or 0) never
    leaves its loop while nothing arrives: however many quiet turns pass and
    whatever the clock reads, the thread has not exited. *)
Theorem listener_without_deadline_waits target timeout evs st :
  effective_timeout timeout = None ->
  Forall (fun ev => quiet ev = true) evs ->
  ListenThread_run target timeout evs st = None.
Proof.
  intros Hnone Hq. unfold ListenThread_run. rewrite Hnone.
  rewrite <- (app_nil_r evs), listen_loop_quiet.
  - cbn [listen_loop fst]. now rewrite running_set_running.
  - cbn [fst]. apply running_set_running.
  - eapply Forall_impl; [exact Hq|]. intros [e o|t] H; cbn in H.
    + split; [exact H | reflexivity].
    + discriminate.
Qed.

Lemma listener_without_deadline_waits_witness :
  ListenThread_run "t1" (Some 0)
    [Turn 100 NotReady; Turn 100000 (Received ""); Turn 200000 NotReady]
    (started1, test1)
  = None.
Proof.
  apply (listener_without_deadline_waits "t1" (Some 0)
           [Turn 100 NotReady; Turn 100000 (Received ""); Turn 200000 NotReady]
           (started1, test1)).
  - reflexivity.
  - repeat constructor.
Defined.

(** X5.  A listener with the deadline [T] that has met only quiet turns
    before [T] exits at the first turn at which the clock reads [T] or more,
    whatever arrives at that turn and after it: it calls [handle_timeout]
    for its target and goes to the signoff. *)
Theorem listener_exits_at_deadline target timeout T evs elapsedTime o later st :
  effective_timeout timeout = Some T ->
  Forall (fun ev => quiet_before T ev = true) evs ->
  T <= elapsedTime ->
  ListenThread_run target timeout (evs ++ Turn elapsedTime o :: later) st
  = Some (let! test' :=
            print_signoff target
              (snd (ListenThread_handle_timeout target
                      (set_running target true (fst st), snd st))) in
          Ok (fst (ListenThread_handle_timeout target
                     (set_running target true (fst st), snd st)), test')).
Proof.
  intros HT Hq Hle. unfold ListenThread_run. rewrite HT.
  rewrite listen_loop_quiet.
  - cbn [listen_loop fst]. rewrite running_set_running. cbn [negb deadline_reached].
    destruct (Z.leb_spec T elapsedTime) as [_|Hlt]; [|lia].
    rewrite NetJobsSpec.listen_loop_stopped;
      [reflexivity | apply NetJobsSpec.running_after_handle_timeout].
  - cbn [fst]. apply running_set_running.
  - eapply Forall_impl; [exact Hq|]. intros [e o'|t] H; cbn in H; [|discriminate].
    apply andb_true_iff in H as [H1 H2]. split; [exact H1|].
    cbn. apply Z.leb_gt. now apply Z.ltb_lt.
Qed.

Lemma listener_exits_at_deadline_witness :
  ListenThread_run "t1" (Some 30)
    ([Turn 1 NotReady; Turn 29 (Received "")]
       ++ Turn 30 (Received DONE_STRING) :: [])
    (started1, test1)
  = Some (let! test' :=
            print_signoff "t1"
              (snd (ListenThread_handle_timeout "t1"
                      (set_running "t1" true started1, test1))) in
          Ok (fst (ListenThread_handle_timeout "t1"
                     (set_running "t1" true started1, test1)), test')).
Proof.
  apply (listener_exits_at_deadline "t1" (Some 30) 30
           [Turn 1 NotReady; Turn 29 (Received "")] 30 (Received DONE_STRING) []
           (started1, test1)).
  - reflexivity.
  - repeat constructor.
  - lia.
Defined.

(** ** The prepare phase *)

Lemma prep_agent_ext test test' target peer :
  specs test' = specs test ->
  timeouts test' = timeouts test ->
  prep_agent test' target peer = prep_agent test target peer.
Proof. intros Hs Ht. unfold prep_agent. now rewrite Hs, Ht. Qed.

Lemma handle_timeout_keeps target test nj :
  specs (snd (handle_timeout target test nj)) = specs test
  /\ timeouts (snd (handle_timeout target test nj)) = timeouts test
  /\ results (snd (handle_timeout target test nj)) = results test
  /\ sockets (fst (handle_timeout target test nj)) = sockets nj
  /\ (forall t, listeners (fst (handle_timeout target test nj)) !! t = None
                <-> listeners nj !! t = None).
Proof.
  unfold handle_timeout.
  assert (Hkill : forall t,
    listeners (stop_and_kill_listeners (set_testAborted true nj)) !! t = None
    <-> listeners nj !! t = None).
  { intros t. cbn. rewrite lookup_fmap. now destruct (listeners nj !! t). }
  destruct (negb (testAborted nj)); [|now repeat split].
  destruct (minHosts test =? MIN_HOSTS_ALL);
    [do 4 (split; [reflexivity|]); exact Hkill|].
  destruct (timeoutsRemaining test) as [r|]; [|now repeat split].
  destruct (r <? 1); [do 4 (split; [reflexivity|]); exact Hkill|].
  now repeat split.
Qed.

Lemma elem_of_add_socket t target nj :
  t ∈ sockets (add_socket target nj) <-> t = target \/ t ∈ sockets nj.
Proof.
  unfold add_socket. cbn [sockets]. destruct (decide (target ∈ sockets nj)).
  - split; [now right | intros [->|?]; assumption].
  - rewrite elem_of_app, list_elem_of_singleton. tauto.
Qed.

Lemma start_agents_listeners nj t :
  listeners (start_agents nj) !! t
  = if decide (t ∈ sockets nj) then Some false else listeners nj !! t.
Proof.
  unfold start_agents. cbn [listeners set_listeners].
  generalize (listeners nj) as l.
  induction (sockets nj) as [|target rest IH]; intros l; cbn [fold_left].
  - rewrite decide_False; [reflexivity | apply not_elem_of_nil].
  - rewrite IH. destruct (decide (t ∈ rest)) as [Hin|Hnin].
    + rewrite decide_True; [reflexivity | now right].
    + destruct (decide (t = target)) as [->|Hne].
      * rewrite lookup_insert_eq. rewrite decide_True; [reflexivity | left].
      * rewrite lookup_insert_ne by congruence.
        rewrite decide_False; [reflexivity|].
        intros Hin. apply elem_of_cons in Hin as [?|?]; contradiction.
Qed.

Lemma prep_targets_outcome created peers : forall targets st st',
  prep_targets false created peers targets st = Ok st' ->
  specs (snd st') = specs (snd st)
  /\ timeouts (snd st') = timeouts (snd st)
  /\ results (snd st') = results (snd st)
  /\ (forall t, listeners (fst st') !! t = None <-> listeners (fst st) !! t = None)
  /\ forall t,
       t ∈ sockets (fst st')
       <-> t ∈ sockets (fst st)
           \/ (t ∈ targets /\ prep_agent (snd st) t (peers t) = Ok tt).
Proof.
  induction targets as [|target rest IH]; intros st st' H; cbn [prep_targets] in H.
  - injection H as <-. repeat split; try tauto.
    intros [?|[Hin _]]; [assumption | inversion Hin].
  - destruct (negb (created target)); [discriminate|].
    destruct (prep_agent (snd st) target (peers target)) as [[]|e] eqn:Hprep.
    + apply IH in H as (Hs & Ht & Hr & Hl & Hsock). cbn [fst snd] in *.
      do 4 (split; [assumption|]). intros t. rewrite Hsock. split.
      * intros [Hin|[Hin Hok]].
        -- apply elem_of_add_socket in Hin as [->|Hin]; [right|now left].
           split; [left | assumption].
        -- right. split; [now right | assumption].
      * intros [Hin|[Hin Hok]].
        -- left. apply elem_of_add_socket. now right.
        -- apply elem_of_cons in Hin as [->|Hin].
           ++ left. apply elem_of_add_socket. now left.
           ++ right. now split.
    + destruct e; try discriminate.
      apply IH in H as (Hs & Ht & Hr & Hl & Hsock).
      destruct (handle_timeout_keeps target (snd st) (fst st))
        as (Hs1 & Ht1 & Hr1 & Hk1 & Hl1).
      split; [congruence|]. split; [congruence|]. split; [congruence|].
      split; [intros t; rewrite Hl; apply Hl1|].
      intros t. rewrite Hsock, Hk1.
      rewrite (prep_agent_ext (snd st) _ t (peers t) Hs1 Ht1).
      split; (intros [Hin|[Hin Hok]]; [now left|right]).
      * split; [now right | assumption].
      * apply elem_of_cons in Hin as [->|Hin]; [congruence | now split].
Qed.

(** X6.  When [prep_agents] returns, the targets that have a socket are,
    besides those that had one before, exactly the targets whose
    configuration exchange succeeded.  The prepare phase writes no result,
    and [start_agents] gives no listener to a target without a socket: the
    results of a target whose preparation timed out are left unset, with no
    thread to sign them off. *)
Theorem sockets_are_the_prepared_targets created peers st st' :
  prep_agents false created peers st = Ok st' ->
  results (snd st') = results (snd st)
  /\ forall target,
       (target ∈ sockets (fst st')
        <-> target ∈ sockets (fst st)
            \/ (target ∈ keys (specs (snd st))
                /\ prep_agent (snd st) target (peers target) = Ok tt))
       /\ (listeners (fst st) !! target = None ->
           target ∉ sockets (fst st') ->
           listeners (start_agents (fst st')) !! target = None).
Proof.
  unfold prep_agents. intros H.
  apply prep_targets_outcome in H as (_ & _ & Hr & Hl & Hsock).
  split; [assumption|]. intros target. split; [apply Hsock|].
  intros Hnone Hnin. rewrite start_agents_listeners.
  rewrite decide_False by assumption. now apply Hl.
Qed.

Lemma sockets_are_the_prepared_targets_witness :
  exists st',
    prep_agents false (fun _ => true) (fun _ => peer_silent) (fresh, test3_one)
    = Ok st'
    /\ results (snd st') = results test3_one
    /\ forall target,
         (target ∈ sockets (fst st')
          <-> target ∈ sockets fresh
              \/ (target ∈ keys (specs test3_one)
                  /\ prep_agent test3_one target peer_silent = Ok tt))
         /\ (listeners fresh !! target = None ->
             target ∉ sockets (fst st') ->
             listeners (start_agents (fst st')) !! target = None).
Proof.
  destruct (prep_agents false (fun _ => true) (fun _ => peer_silent)
              (fresh, test3_one)) as [st'|e] eqn:H;
    [|vm_compute in H; discriminate].
  exists st'. split; [reflexivity|].
  exact (sockets_are_the_prepared_targets (fun _ => true) (fun _ => peer_silent)
           (fresh, test3_one) st' H).
Defined.

Lemma prep_agent_agrees test target peer msgs :
  config_messages test target = Ok msgs ->
  agrees peer msgs (List.length msgs) ->
  prep_agent test target peer = Ok tt.
Proof.
  intros Hmsgs [[d Hd] Hag].
  rewrite (NetJobsSpec.prep_agent_exchange _ _ _ _ Hmsgs), Hd. cbn [io_outcome bind].
  rewrite (NetJobsSpec.exchange_agrees peer (List.length msgs) msgs 1).
  - now rewrite drop_all.
  - intros i m Hi Hm. exact (Hag i m Hi Hm).
  - lia.
Qed.

(** X7.  When every agent accepts the connection and echoes each
    configuration message verbatim, [prep_agents] returns normally with a
    socket for every target, in the order of the plan, and neither the abort
    flag nor the test record has changed. *)
Theorem echoing_agents_all_get_sockets created peers targets nj test :
  NoDup targets ->
  (forall target, target ∈ targets ->
     (target ∉ sockets nj)
     /\ created target = true
     /\ exists msgs,
          config_messages test target = Ok msgs
          /\ agrees (peers target) msgs (List.length msgs)) ->
  prep_targets false created peers targets (nj, test)
  = Ok ({| testAborted := testAborted nj;
           sockets := sockets nj ++ targets;
           listeners := listeners nj |}, test).
Proof.
  revert nj. induction targets as [|target rest IH]; intros nj Hnd Hall.
  - cbn [prep_targets]. rewrite app_nil_r. now destruct nj.
  - apply NoDup_cons in Hnd as [Hnin Hnd].
    destruct (Hall target) as (Hfree & Hc & msgs & Hmsgs & Hag); [left|].
    cbn [prep_targets fst snd]. rewrite Hc. cbn [negb].
    rewrite (prep_agent_agrees _ _ _ _ Hmsgs Hag).
    rewrite IH.
    + unfold add_socket. cbn [testAborted sockets listeners].
      rewrite decide_False by assumption. now rewrite <- app_assoc.
    + assumption.
    + intros t Ht. destruct (Hall t) as (Hf & Hrest); [now right|].
      split; [|assumption]. intros Hin.
      apply elem_of_add_socket in Hin as [->|Hin]; contradiction.
Qed.

Lemma echoing_agents_all_get_sockets_witness :
  prep_targets false (fun _ => true) (fun _ => peer_echoing messages1) ["t1"]
    (fresh, test1)
  = Ok ({| testAborted := testAborted fresh;
           sockets := sockets fresh ++ ["t1"];
           listeners := listeners fresh |}, test1).
Proof.
  apply (echoing_agents_all_get_sockets (fun _ => true)
           (fun _ => peer_echoing messages1) ["t1"] fresh test1).
  - repeat constructor. intros H. inversion H.
  - intros target Ht. apply list_elem_of_singleton in Ht as ->.
    split; [intros H; inversion H|]. split; [reflexivity|].
    exists messages1. split; [vm_compute; reflexivity|].
    split; [exists ""; reflexivity|].
    intros i m Hi Hm. cbn [List.length messages1] in Hi.
    destruct i as [|[|[|[|i]]]]; [..|lia]; cbn in Hm; injection Hm as <-;
      (split; [exists ""; reflexivity | reflexivity]).
Defined.

(** X8.  In simulator mode [prep_agents] makes no socket call at all: it
    returns the state it was given, whatever the agents would have done, and
    [start_agents] then finds no socket to listen on. *)
Theorem simulation_prepares_nothing created peers st :
  prep_agents true created peers st = Ok st
  /\ (sockets (fst st) = [] -> start_agents (fst st) = fst st).
Proof.
  split.
  - unfold prep_agents. induction (keys (specs (snd st))) as [|t rest IH];
      [reflexivity | exact IH].
  - intros H. unfold start_agents. rewrite H. now destruct (fst st).
Qed.

End NetJobsMore.

(** * The timeout on the wire *)
Module WireSpec.
Import Scenarios Predicates.

(** ** [int(str(t))] *)

Lemma digit_pretty_N_char x :
  (x < 10)%N -> NetJobsAgent.digit (pretty_N_char x) = Some (Z.of_N x).
Proof.
  intros H.
  assert (x = 0 \/ x = 1 \/ x = 2 \/ x = 3 \/ x = 4 \/ x = 5 \/ x = 6
          \/ x = 7 \/ x = 8 \/ x = 9)%N as Hx by lia.
  repeat (destruct Hx as [->|Hx]; [reflexivity|]). now subst.
Qed.

Lemma digit_not_space c d :
  NetJobsAgent.digit c = Some d -> NetJobsAgent.is_space c = false.
Proof.
  unfold NetJobsAgent.digit, NetJobsAgent.is_space.
  destruct (Nat.leb_spec 48 (nat_of_ascii c)); cbn [andb]; [|discriminate].
  intros _.
  destruct (Nat.leb_spec (nat_of_ascii c) 13); [lia|]. rewrite andb_false_r.
  destruct (Nat.leb_spec 28 (nat_of_ascii c)); [|reflexivity].
  destruct (Nat.leb_spec (nat_of_ascii c) 32); [lia | reflexivity].
Qed.

(** The digits of a positive number, read back from the left. *)
Lemma digits_pretty_N_go x : forall s b,
  (0 < x)%N ->
  NetJobsAgent.digits (pretty_N_go x s) 0 b
  = NetJobsAgent.digits s (Z.of_N x) true.
Proof.
  induction (N.lt_wf_0 x) as [x _ IH]; intros s b Hx.
  rewrite pretty_N_go_step by assumption.
  assert (Hd : NetJobsAgent.digit (pretty_N_char (x mod 10)%N)
               = Some (Z.of_N (x mod 10)%N))
    by (apply digit_pretty_N_char, N.mod_lt; lia).
  assert (Hx10 : Z.of_N x = 10 * Z.of_N (x / 10)%N + Z.of_N (x mod 10)%N)
    by (pose proof (N.div_mod x 10 ltac:(lia)); lia).
  destruct (N.eq_dec (x / 10)%N 0%N) as [Hz|Hnz].
  - rewrite Hz, pretty_N_go_0. cbn [NetJobsAgent.digits]. rewrite Hd.
    f_equal. rewrite Hx10, Hz. lia.
  - assert (Hlt : (x / 10 < x)%N) by (apply N.div_lt; lia).
    assert (Hpos : (0 < x / 10)%N) by (apply N.neq_0_lt_0; exact Hnz).
    rewrite (IH _ Hlt _ _ Hpos).
    cbn [NetJobsAgent.digits]. rewrite Hd. f_equal. lia.
Qed.

Lemma unspaced_cons c s :
  unspaced (String c s) <-> NetJobsAgent.is_space c = false /\ unspaced s.
Proof.
  unfold unspaced. cbn [list_ascii_of_string]. split.
  - intros H. inversion H. now split.
  - intros [Hc Hs]. now constructor.
Qed.

Lemma lstrip_unspaced s : unspaced s -> NetJobsAgent.lstrip s = s.
Proof.
  destruct s as [|c s]; [reflexivity|]. intros H.
  apply unspaced_cons in H as [Hc _]. cbn [NetJobsAgent.lstrip]. now rewrite Hc.
Qed.

Lemma unspaced_rev_app s : forall t,
  unspaced s -> unspaced t -> unspaced (String.rev_app s t).
Proof.
  induction s as [|c s IH]; intros t Hs Ht; cbn [String.rev_app]; [assumption|].
  apply unspaced_cons in Hs as [Hc Hs]. apply IH; [assumption|].
  apply unspaced_cons. now split.
Qed.

Lemma rev_app_rev_app s : forall t u,
  String.rev_app (String.rev_app s t) u = String.rev_app t (s ++ u).
Proof.
  induction s as [|a s IH]; intros t u; cbn [String.rev_app append];
    [reflexivity|].
  now rewrite IH.
Qed.

Lemma append_empty_r s : s ++ "" = s.
Proof.
  induction s as [|a s IH]; [reflexivity|].
  change (String a s ++ "") with (String a (s ++ "")). now rewrite IH.
Qed.

Lemma strip_unspaced s :
  unspaced s -> NetJobsAgent.rstrip (NetJobsAgent.lstrip s) = s.
Proof.
  intros H. rewrite (lstrip_unspaced s H). unfold NetJobsAgent.rstrip.
  rewrite lstrip_unspaced by (apply unspaced_rev_app; [assumption | constructor]).
  unfold String.rev. rewrite rev_app_rev_app. cbn [String.rev_app].
  apply append_empty_r.
Qed.

Lemma unspaced_pretty_N_go x : forall s, unspaced s -> unspaced (pretty_N_go x s).
Proof.
  induction (N.lt_wf_0 x) as [x _ IH]; intros s Hs.
  destruct (N.eq_dec x 0%N) as [->|Hnz]; [now rewrite pretty_N_go_0|].
  rewrite pretty_N_go_step by (apply N.neq_0_lt_0; exact Hnz).
  apply IH; [apply N.div_lt; lia|].
  apply unspaced_cons. split; [|assumption].
  eapply digit_not_space, digit_pretty_N_char, N.mod_lt. lia.
Qed.

Lemma pretty_N_go_head x : forall s,
  (0 < x)%N ->
  exists c r d, pretty_N_go x s = String c r /\ NetJobsAgent.digit c = Some d.
Proof.
  induction (N.lt_wf_0 x) as [x _ IH]; intros s Hx.
  rewrite pretty_N_go_step by assumption.
  destruct (N.eq_dec (x / 10)%N 0%N) as [Hz|Hnz].
  - rewrite Hz, pretty_N_go_0. eexists _, _, _. split; [reflexivity|].
    apply digit_pretty_N_char, N.mod_lt. lia.
  - apply IH; [apply N.div_lt; lia | apply N.neq_0_lt_0; exact Hnz].
Qed.

(** A text that starts with a digit has no sign for [int] to take off. *)
Lemma py_int_unsigned c r d :
  NetJobsAgent.digit c = Some d ->
  unspaced (String c r) ->
  NetJobsAgent.py_int (String c r) = NetJobsAgent.digits (String c r) 0 false.
Proof.
  intros Hd Hs. unfold NetJobsAgent.py_int. rewrite (strip_unspaced _ Hs).
  destruct c as [[] [] [] [] [] [] [] []]; try discriminate Hd; reflexivity.
Qed.

Lemma py_int_pretty_pos p :
  NetJobsAgent.py_int (pretty_N_go (N.pos p) "") = Some (Z.pos p)
  /\ unspaced (pretty_N_go (N.pos p) "").
Proof.
  assert (Hs : unspaced (pretty_N_go (N.pos p) ""))
    by (apply unspaced_pretty_N_go; constructor).
  split; [|assumption].
  destruct (pretty_N_go_head (N.pos p) "") as (c & r & d & Heq & Hd); [lia|].
  rewrite Heq in Hs. rewrite Heq, (py_int_unsigned c r d Hd Hs), <- Heq.
  rewrite digits_pretty_N_go by lia. reflexivity.
Qed.

Lemma py_int_pretty (t : Z) :
  NetJobsAgent.py_int (pretty t) = Some t /\ unspaced (pretty t).
Proof.
  destruct t as [|p|p]; unfold pretty, pretty_Z.
  - split; [reflexivity | repeat constructor].
  - unfold pretty, pretty_positive, pretty, pretty_N.
    destruct (decide (N.pos p = 0%N)); [discriminate|].
    apply py_int_pretty_pos.
  - unfold pretty, pretty_positive, pretty, pretty_N.
    destruct (decide (N.pos p = 0%N)); [discriminate|].
    destruct (py_int_pretty_pos p) as [_ Hs].
    change ("-" +:+ pretty_N_go (N.pos p) "")
      with (String "-" (pretty_N_go (N.pos p) "")).
    assert (Hs' : unspaced (String "-" (pretty_N_go (N.pos p) "")))
      by (apply unspaced_cons; split; [reflexivity | exact Hs]).
    split; [|exact Hs'].
    unfold NetJobsAgent.py_int. rewrite strip_unspaced by exact Hs'.
    change (Z.opp <$> NetJobsAgent.digits (pretty_N_go (N.pos p) "") 0 false
            = Some (Z.neg p)).
    rewrite digits_pretty_N_go by lia. reflexivity.
Qed.

(** X9.  The text that the coordinator writes for an integer timeout is
    read back by the agent's [int] as the same integer, negative ones
    included; the text of [None] is refused with [ValueError]. *)
Theorem timeout_text_round_trip :
  (forall t : Z, NetJobsAgent.py_int (NetJobs.py_str (Some t)) = Some t)
  /\ NetJobsAgent.py_int (NetJobs.py_str None) = None.
Proof.
  split; [|reflexivity].
  intros t. cbn [NetJobs.py_str]. apply py_int_pretty.
Qed.

(** ** Records, from the supervisor to the result map *)

Lemma split_whole s : NetJobsAgent.tab_free s -> split TAB s = [s].
Proof.
  induction s as [|c s IH]; intros H; [reflexivity|].
  apply NetJobsAgentSpec.tab_free_cons in H as [Hc Hs].
  rewrite NetJobsAgentSpec.split_cons, (IH Hs).
  destruct (Ascii.eqb_spec c TAB); [contradiction | reflexivity].
Qed.

Lemma split_head s : exists first rest, split TAB s = first :: rest.
Proof.
  pose proof (NetJobsSpec.split_nonempty TAB s) as H.
  destruct (split TAB s) as [|first rest]; [contradiction | eauto].
Qed.

(** X10.  The record that a supervisor composes for a subprocess that
    ended by itself is parsed by the coordinator's listener into the status
    that the agent chose and the output up to its first tabulation, and is
    stored under the agent's name and the command.  An output without a
    tabulation is stored whole. *)
Theorem composed_record_is_stored name t test row :
  NetJobsAgent.tab_free name ->
  NetJobsAgent.tab_free (NetJobsAgent.command t) ->
  NetJobs.results test !! name = Some row ->
  let failed :=
    (0 <? NetJobsAgent.returncode (NetJobsAgent.proc t))
    || negb (String.eqb (NetJobsAgent.stderr (NetJobsAgent.proc t)) "") in
  let status := if failed then ERROR_STATUS else SUCCESS_STATUS in
  let text := if failed then NetJobsAgent.stderr (NetJobsAgent.proc t)
              else NetJobsAgent.stdout (NetJobsAgent.proc t) in
  exists output,
    split TAB text !! 0%nat = Some output
    /\ (NetJobsAgent.tab_free text -> output = text)
    /\ NetJobs.process_result_string (NetJobsAgent.compose name t) test
       = Ok (NetJobs.set_results
               (<[name := <[NetJobsAgent.command t := Some (status, output)]> row]>
                  (NetJobs.results test)) test).
Proof.
  intros Hn Hc Hrow failed status text.
  destruct (split_head text) as (first & rest & Hsplit).
  exists first. split; [now rewrite Hsplit|].
  split; [intros Hfree; rewrite (split_whole text Hfree) in Hsplit; congruence|].
  destruct NetJobsAgentSpec.status_tab_free as [Hs He].
  rewrite (NetJobsSpec.process_result_string_full _ _ name
             (NetJobsAgent.command t) status first rest).
  - now apply NetJobsSpec.store_known_target.
  - unfold NetJobsAgent.compose. subst status text. fold failed.
    destruct failed; rewrite NetJobsAgentSpec.record_fields by assumption;
      now rewrite Hsplit.
Qed.

Lemma composed_record_is_stored_witness :
  exists output,
    split TAB "" !! 0%nat = Some output
    /\ (NetJobsAgent.tab_free "" -> output = "")
    /\ NetJobs.process_result_string (NetJobsAgent.compose "t1" self_killed) test1
       = Ok (NetJobs.set_results
               (<["t1" := <["kill -9 $$" := Some (SUCCESS_STATUS, output)]>
                            {["c1" := None]}]>
                  (NetJobs.results test1)) test1).
Proof.
  apply (composed_record_is_stored "t1" self_killed test1 {["c1" := None]}).
  - intros H. vm_compute in H. repeat (destruct H as [H|H]; [discriminate H|]). exact H.
  - intros H. vm_compute in H. repeat (destruct H as [H|H]; [discriminate H|]). exact H.
  - reflexivity.
Defined.

(** X11.  The record that [stop_and_kill_subproc] leaves for a reason made
    of a status and a tabulation (as the reasons for a kill and for a
    timeout are) is parsed by the coordinator's listener into that status and
    an empty output. *)
Theorem stopped_record_is_stored name status t test row :
  NetJobsAgent.tab_free name ->
  NetJobsAgent.tab_free (NetJobsAgent.command t) ->
  NetJobsAgent.tab_free status ->
  NetJobs.results test !! name = Some row ->
  NetJobs.process_result_string
    (NetJobsAgent.result
       (NetJobsAgent.stop_and_kill_subproc name (status ++ SOCKET_DELIMITER) t))
    test
  = Ok (NetJobs.set_results
          (<[name := <[NetJobsAgent.command t := Some (status, "")]> row]>
             (NetJobs.results test)) test).
Proof.
  intros Hn Hc Hs Hrow.
  rewrite (NetJobsSpec.process_result_string_full _ _ name
             (NetJobsAgent.command t) status "" []).
  - now apply NetJobsSpec.store_known_target.
  - cbn [NetJobsAgent.stop_and_kill_subproc NetJobsAgent.result
         NetJobsAgent.set_result NetJobsAgent.set_thread_running
         NetJobsAgent.command].
    change (status ++ SOCKET_DELIMITER) with (status ++ SOCKET_DELIMITER ++ "").
    now rewrite NetJobsAgentSpec.record_fields.
Qed.

Lemma stopped_record_is_stored_witness :
  NetJobs.process_result_string
    (NetJobsAgent.result
       (NetJobsAgent.stop_and_kill_subproc "t1" (KILLED_STATUS ++ SOCKET_DELIMITER)
          self_killed))
    test1
  = Ok (NetJobs.set_results
          (<["t1" := <["kill -9 $$" := Some (KILLED_STATUS, "")]> {["c1" := None]}]>
             (NetJobs.results test1)) test1).
Proof.
  apply (stopped_record_is_stored "t1" KILLED_STATUS self_killed test1
           {["c1" := None]}).
  - intros H. vm_compute in H. repeat (destruct H as [H|H]; [discriminate H|]). exact H.
  - intros H. vm_compute in H. repeat (destruct H as [H|H]; [discriminate H|]). exact H.
  - intros H. vm_compute in H. repeat (destruct H as [H|H]; [discriminate H|]). exact H.
  - reflexivity.
Defined.

End WireSpec.

(** * Further properties of the agent *)
Module NetJobsAgentMore.
Import NetJobsAgent Scenarios Predicates.

(** ** The supervisor of one command *)

Lemma wait_loop_pending name evs : forall t rest,
  running t = true ->
  Forall (fun ev => pending (timeout t) ev = true) evs ->
  wait_loop name (evs ++ rest) t = wait_loop name rest t.
Proof.
  induction evs as [|ev evs IH]; intros t rest Hrun Hall; [reflexivity|].
  apply Forall_cons in Hall as [Hev Hall].
  cbn [app wait_loop]. rewrite Hrun. cbn [negb].
  unfold pending in Hev. destruct (timeout t) as [tm|] eqn:Htm; [|discriminate].
  destruct ev as [[] elapsedTime|reason]; try discriminate.
  destruct (Z.leb_spec tm elapsedTime); [apply Z.ltb_lt in Hev; lia|].
  apply IH; [assumption | now rewrite Htm].
Qed.

Lemma wait_loop_not_running name evs t :
  running t = false -> wait_loop name evs t = Some t.
Proof. intros H. destruct evs; cbn [wait_loop]; now rewrite H. Qed.

(** What [send_result] does with a record that the supervisor already
    holds and that fits the buffer. *)
Lemma send_result_held send_ok t a :
  String.eqb (result t) "NONE" = false ->
  (String.length (result t) <= BUFFER_SIZE)%nat ->
  send_result send_ok t a
  = (t, fst (sendall send_ok (result t)
               (set_agent_results (<[command t := result t]> (results a)) a)),
     None).
Proof.
  intros Hne Hlen. unfold send_result. rewrite Hne.
  destruct (Nat.ltb_spec BUFFER_SIZE (String.length (result t))); [lia | reflexivity].
Qed.

Lemma record_of_not_none name command rest :
  String.eqb (record_of name command rest) "NONE" = false.
Proof.
  apply String.eqb_neq. intros H.
  assert (Hf : split TAB (record_of name command rest) = split TAB "NONE")
    by now rewrite H.
  assert (Hlen : (2 <= List.length (split TAB (record_of name command rest)))%nat).
  { unfold record_of, SOCKET_DELIMITER.
    generalize (command ++ String TAB "" ++ rest) as tail. clear H Hf.
    induction name as [|c name IH]; intros tail.
    - change ("" ++ String TAB "" ++ tail) with (String TAB tail).
      rewrite NetJobsAgentSpec.split_cons. cbn.
      pose proof (NetJobsSpec.split_nonempty TAB tail).
      destruct (split TAB tail); [contradiction | cbn; lia].
    - change (String c name ++ String TAB "" ++ tail)
        with (String c (name ++ String TAB "" ++ tail)).
      rewrite NetJobsAgentSpec.split_cons. specialize (IH tail).
      destruct (Ascii.eqb c TAB); [cbn [List.length]; lia|].
      destruct (split TAB (name ++ String TAB "" ++ tail)); cbn in *; lia. }
  rewrite Hf in Hlen. cbn in Hlen. lia.
Qed.

(** X12.  Once [stop_and_kill_subproc(reason)] has been called on a
    supervisor that was still polling, the record that the supervisor sends
    is the agent's name, the command and that reason, whatever the subprocess
    returns or has written; nothing composed from the subprocess is sent. *)
Theorem stopped_supervisor_reports_the_reason send_ok evs reason later t a :
  Forall (fun ev => pending (timeout t) ev = true) evs ->
  (String.length (record_of (name a) (command t) reason) <= BUFFER_SIZE)%nat ->
  exists t' a',
    ProcThread_run send_ok (evs ++ Stop reason :: later) t a = Some (t', a', None)
    /\ running t' = false
    /\ result t' = record_of (name a) (command t) reason
    /\ sent a' = (sent a ++ [(record_of (name a) (command t) reason,
                              send_ok (List.length (sent a)))])%list.
Proof.
  intros Hpend Hlen. unfold ProcThread_run.
  rewrite wait_loop_pending by (reflexivity || exact Hpend).
  cbn [wait_loop running set_thread_running negb].
  rewrite wait_loop_not_running by reflexivity.
  rewrite send_result_held.
  - eexists _, _. split; [reflexivity|]. now repeat split.
  - apply record_of_not_none.
  - exact Hlen.
Qed.

Lemma stopped_supervisor_reports_the_reason_witness :
  exists t' a',
    ProcThread_run send_ok_always
      ([Poll false 1; Poll false 2]
         ++ Stop (KILLED_STATUS ++ SOCKET_DELIMITER) :: [Poll true 3])
      sleeper (serving "t1")
    = Some (t', a', None)
    /\ running t' = false
    /\ result t' = record_of "t1" "sleep 30" (KILLED_STATUS ++ SOCKET_DELIMITER)
    /\ sent a' = (sent (serving "t1")
                    ++ [(record_of "t1" "sleep 30" (KILLED_STATUS ++ SOCKET_DELIMITER),
                         send_ok_always (List.length (sent (serving "t1"))))])%list.
Proof.
  apply (stopped_supervisor_reports_the_reason send_ok_always
           [Poll false 1; Poll false 2] (KILLED_STATUS ++ SOCKET_DELIMITER)
           [Poll true 3] sleeper (serving "t1")).
  - repeat constructor.
  - vm_compute. lia.
Defined.

(** X13.  A supervisor with the deadline [tm] whose subprocess is still
    running at the first poll at which the clock reads [tm] or more stops
    polling and sends the record of the agent's name, the command, the
    status [TIMEOUT] and an empty output; later polls are not looked at. *)
Theorem supervisor_times_out_at_deadline send_ok evs tm elapsedTime later t a :
  timeout t = Some tm ->
  Forall (fun ev => pending (timeout t) ev = true) evs ->
  tm <= elapsedTime ->
  (String.length (record_of (name a) (command t)
                    (TIMEOUT_STATUS ++ SOCKET_DELIMITER)) <= BUFFER_SIZE)%nat ->
  exists t' a',
    ProcThread_run send_ok (evs ++ Poll false elapsedTime :: later) t a
    = Some (t', a', None)
    /\ running t' = false
    /\ result t' = record_of (name a) (command t)
                     (TIMEOUT_STATUS ++ SOCKET_DELIMITER)
    /\ sent a' = (sent a ++ [(result t', send_ok (List.length (sent a)))])%list.
Proof.
  intros Htm Hpend Hle Hlen. unfold ProcThread_run.
  rewrite wait_loop_pending by (reflexivity || exact Hpend).
  cbn [wait_loop running set_thread_running negb timeout]. rewrite Htm.
  destruct (Z.leb_spec tm elapsedTime); [|lia].
  rewrite wait_loop_not_running by reflexivity.
  rewrite send_result_held; [|apply record_of_not_none | exact Hlen].
  eexists _, _. split; [reflexivity|]. now repeat split.
Qed.

Lemma supervisor_times_out_at_deadline_witness :
  exists t' a',
    ProcThread_run send_ok_always
      ([Poll false 1; Poll false 9] ++ Poll false 10 :: [Poll true 11])
      sleeper (serving "t1")
    = Some (t', a', None)
    /\ running t' = false
    /\ result t' = record_of "t1" "sleep 30" (TIMEOUT_STATUS ++ SOCKET_DELIMITER)
    /\ sent a' = (sent (serving "t1")
                    ++ [(result t',
                         send_ok_always (List.length (sent (serving "t1"))))])%list.
Proof.
  apply (supervisor_times_out_at_deadline send_ok_always
           [Poll false 1; Poll false 9] 10 10 [Poll true 11]
           sleeper (serving "t1")).
  - reflexivity.
  - repeat constructor.
  - lia.
  - vm_compute. lia.
Defined.

(** X14.  A supervisor without a deadline (the job was registered with the
    timeout 0, which [get_specs] turns into [None]) whose subprocess has not
    ended at the first poll does not wait for it: the comparison of the
    clock with [None] raises, the subprocess is stopped, and the record sent
    has the status [ERROR] with the text of the exception as output. *)
Theorem supervisor_without_deadline_reports_error
    send_ok elapsedTime later t a :
  timeout t = None ->
  (String.length (record_of (name a) (command t)
                    (ERROR_STATUS ++ SOCKET_DELIMITER ++ type_error_text))
   <= BUFFER_SIZE)%nat ->
  exists t' a',
    ProcThread_run send_ok (Poll false elapsedTime :: later) t a
    = Some (t', a', None)
    /\ running t' = false
    /\ result t' = record_of (name a) (command t)
                     (ERROR_STATUS ++ SOCKET_DELIMITER ++ type_error_text)
    /\ sent a' = (sent a ++ [(result t', send_ok (List.length (sent a)))])%list.
Proof.
  intros Htm Hlen. unfold ProcThread_run.
  cbn [wait_loop running set_thread_running negb timeout]. rewrite Htm.
  rewrite send_result_held; [|apply record_of_not_none | exact Hlen].
  eexists _, _. split; [reflexivity|]. now repeat split.
Qed.

Lemma supervisor_without_deadline_reports_error_witness :
  exists t' a',
    ProcThread_run send_ok_always (Poll false 0 :: [Poll true 1])
      sleeper_no_deadline (serving "t1")
    = Some (t', a', None)
    /\ running t' = false
    /\ result t' = record_of "t1" "sleep 30"
                     (ERROR_STATUS ++ SOCKET_DELIMITER ++ type_error_text)
    /\ sent a' = (sent (serving "t1")
                    ++ [(result t',
                         send_ok_always (List.length (sent (serving "t1"))))])%list.
Proof.
  apply (supervisor_without_deadline_reports_error send_ok_always 0
           [Poll true 1] sleeper_no_deadline (serving "t1")).
  - reflexivity.
  - vm_compute. lia.
Defined.

End NetJobsAgentMore.

(** * Properties of the agent's SOSThread *)
Module SOSThreadSpec.
Import NetJobsAgent SOSThread Predicates.

Lemma run_loop_ignored name timeout evs : forall rest threads,
  Forall (fun ev => ignored ev = true) evs ->
  run_loop name timeout (evs ++ rest) true threads
  = run_loop name timeout rest true threads.
Proof.
  induction evs as [|ev evs IH]; intros rest threads Hall; [reflexivity|].
  apply Forall_cons in Hall as [Hev Hall].
  cbn [app run_loop negb].
  destruct ev as [|buffer| |]; try discriminate Hev; [now apply IH|].
  cbn [ignored] in Hev. apply andb_true_iff in Hev as [H1 H2].
  apply negb_true_iff in H1, H2. rewrite H1, H2. now apply IH.
Qed.

Lemma run_loop_stopped name timeout evs threads :
  run_loop name timeout evs false threads = Some threads.
Proof. now destruct evs. Qed.

Lemma stopped_supervisors name reason threads i t :
  threads !! i = Some t ->
  exists t', map (stop_and_kill_subproc name reason) threads !! i = Some t'
    /\ running t' = false
    /\ command t' = command t
    /\ result t' = record_of name (command t) reason.
Proof.
  intros Hi. exists (stop_and_kill_subproc name reason t).
  split; [|now repeat split].
  rewrite list_lookup_fmap, Hi. reflexivity.
Qed.

(** X15.  When the kill message arrives on the connection, after turns at
    which nothing or other messages arrive, the SOS thread ends and has
    stopped every supervisor of the run: each one is left not running, with
    the record of the agent's name, its command and the status [KILLED],
    whatever result it held before. *)
Theorem kill_message_stops_every_supervisor a evs later :
  Forall (fun ev => ignored ev = true) evs ->
  exists threads,
    run a (evs ++ Read KILL_STRING :: later) = Some threads
    /\ List.length threads = List.length (subthreads a)
    /\ forall i t, subthreads a !! i = Some t ->
         exists t', threads !! i = Some t'
           /\ running t' = false
           /\ command t' = command t
           /\ result t' = record_of (name a) (command t)
                            (KILLED_STATUS ++ SOCKET_DELIMITER).
Proof.
  intros Hall. unfold run. rewrite run_loop_ignored by exact Hall.
  cbn [run_loop negb]. rewrite run_loop_stopped.
  change (String.eqb KILL_STRING "") with false. cbn match.
  rewrite String.eqb_refl.
  eexists. split; [reflexivity|]. split.
  - unfold stop_and_kill_run. apply length_map.
  - intros i t Hi. now apply stopped_supervisors.
Qed.

Lemma kill_message_stops_every_supervisor_witness :
  exists threads,
    run agent_running
      ([Idle; Read "hello"] ++ Read KILL_STRING :: [Idle])
    = Some threads
    /\ List.length threads = List.length (subthreads agent_running)
    /\ forall i t, subthreads agent_running !! i = Some t ->
         exists t', threads !! i = Some t'
           /\ running t' = false
           /\ command t' = command t
           /\ result t' = record_of (name agent_running) (command t)
                            (KILLED_STATUS ++ SOCKET_DELIMITER).
Proof.
  apply (kill_message_stops_every_supervisor agent_running
           [Idle; Read "hello"] [Idle]).
  repeat constructor.
Defined.

(** X16.  When the coordinator's end of the connection is lost while the
    SOS thread listens (an empty read, or an exception of [select] or
    [recv]), the thread ends and every supervisor of the run is stopped with
    the status [TIMEOUT], not [KILLED] or [ERROR], whether or not any
    deadline has passed. *)
Theorem lost_connection_is_reported_as_timeout a evs ev later :
  Forall (fun ev => ignored ev = true) evs ->
  lost ev = true ->
  exists threads,
    run a (evs ++ ev :: later) = Some threads
    /\ List.length threads = List.length (subthreads a)
    /\ forall i t, subthreads a !! i = Some t ->
         exists t', threads !! i = Some t'
           /\ running t' = false
           /\ command t' = command t
           /\ result t' = record_of (name a) (command t)
                            (TIMEOUT_STATUS ++ SOCKET_DELIMITER).
Proof.
  intros Hall Hev. unfold run. rewrite run_loop_ignored by exact Hall.
  assert (Hrun : run_loop (name a) (Some (sosTimeout a)) (ev :: later) true
                   (subthreads a)
                 = Some (timeout_handler (name a) (subthreads a))).
  { destruct ev as [|buffer| |]; try discriminate Hev; [|reflexivity].
    cbn [lost] in Hev. cbn [run_loop negb]. now rewrite Hev. }
  rewrite Hrun. eexists. split; [reflexivity|]. split.
  - unfold timeout_handler. apply length_map.
  - intros i t Hi. now apply stopped_supervisors.
Qed.

Lemma lost_connection_is_reported_as_timeout_witness :
  exists threads,
    run agent_running ([Idle; Read "hello"] ++ Read "" :: [Idle])
    = Some threads
    /\ List.length threads = List.length (subthreads agent_running)
    /\ forall i t, subthreads agent_running !! i = Some t ->
         exists t', threads !! i = Some t'
           /\ running t' = false
           /\ command t' = command t
           /\ result t' = record_of (name agent_running) (command t)
                            (TIMEOUT_STATUS ++ SOCKET_DELIMITER).
Proof.
  apply (lost_connection_is_reported_as_timeout agent_running
           [Idle; Read "hello"] (Read "") [Idle]).
  - repeat constructor.
  - reflexivity.
Defined.

(** X17.  The expiry of the SOS thread's own timeout stops nothing: as long
    as [select] returns without data, or with a message other than the kill
    message, the thread stays in its loop, and when [main] then calls
    [stop] it ends with every supervisor as it was. *)
Theorem sos_timeout_alone_stops_nothing a evs later :
  Forall (fun ev => ignored ev = true) evs ->
  run a evs = None
  /\ run a (evs ++ Stopped :: later) = Some (subthreads a).
Proof.
  intros Hall. unfold run. split.
  - rewrite <- (app_nil_r evs). now rewrite run_loop_ignored.
  - rewrite run_loop_ignored by exact Hall. cbn [run_loop negb].
    apply run_loop_stopped.
Qed.

Lemma sos_timeout_alone_stops_nothing_witness :
  run agent_running [Idle; Idle; Read "hello"] = None
  /\ run agent_running ([Idle; Idle; Read "hello"] ++ Stopped :: [Read KILL_STRING])
     = Some (subthreads agent_running).
Proof.
  apply (sos_timeout_alone_stops_nothing agent_running
           [Idle; Idle; Read "hello"] [Read KILL_STRING]).
  repeat constructor.
Defined.

End SOSThreadSpec.

(** * The configuration of an agent *)
Module ConfigurationSpec.
Import NetJobsAgent Scenarios Predicates.

(** ** What the agent writes while it is configured *)

(** X18.  During configuration the agent writes nothing to the connection
    but echoes: whatever arrives and whichever writes fail, what
    [get_specs] has tried to send is, in order and unchanged, a run of the
    first messages received, and what it leaves unread is a tail of what
    arrived. *)
Theorem configuration_only_echoes send_ok inbox a :
  let '(_, _, a', unread) := get_specs send_ok inbox a in
  exists echoed dropped,
    map fst (sent a') = (map fst (sent a) ++ echoed)%list
    /\ inbox = (map Recv echoed ++ dropped ++ unread)%list
    /\ (List.length dropped <= 1)%nat.
Proof.
  destruct (get_specs send_ok inbox a) as [[[commands0 timeouts0] a0] unread0] eqn:H.
  revert H. unfold get_specs.
  assert (Hgen : forall inbox a cs ts commands timeouts a' unread,
    get_specs_loop send_ok inbox a cs ts = (commands, timeouts, a', unread) ->
    exists echoed dropped,
      map fst (sent a') = (map fst (sent a) ++ echoed)%list
      /\ inbox = (map Recv echoed ++ dropped ++ unread)%list
      /\ (List.length dropped <= 1)%nat).
  { clear inbox a.
    induction inbox as [|m inbox IH]; intros a cs ts commands timeouts a' unread H.
    - exists [], []. cbn [get_specs_loop] in H.
      destruct (ready a); injection H as <- <- <- <-;
        (split; [now rewrite app_nil_r | split; [reflexivity | cbn; lia]]).
    - cbn [get_specs_loop] in H. destruct (ready a) eqn:Hr.
      { injection H as <- <- <- <-. exists [], [].
        split; [now rewrite app_nil_r | split; [reflexivity | cbn; lia]]. }
      destruct m as [receiveString|].
      2:{ injection H as <- <- <- <-. exists [], [RecvRaises].
          split; [now rewrite app_nil_r | split; [reflexivity | cbn; lia]]. }
      assert (Hone : forall a1 : Agent,
        map fst (sent a1) = (map fst (sent a) ++ [receiveString])%list ->
        a' = a1 -> unread = inbox ->
        exists echoed dropped,
          map fst (sent a') = (map fst (sent a) ++ echoed)%list
          /\ (Recv receiveString :: inbox
              = map Recv echoed ++ dropped ++ unread)%list
          /\ (List.length dropped <= 1)%nat).
      { intros a1 Hs -> ->. exists [receiveString], [].
        split; [exact Hs | split; [reflexivity | cbn; lia]]. }
      assert (Hmore : forall (a1 : Agent) cs1 ts1,
        map fst (sent a1) = (map fst (sent a) ++ [receiveString])%list ->
        get_specs_loop send_ok inbox a1 cs1 ts1
        = (commands, timeouts, a', unread) ->
        exists echoed dropped,
          map fst (sent a') = (map fst (sent a) ++ echoed)%list
          /\ (Recv receiveString :: inbox
              = map Recv echoed ++ dropped ++ unread)%list
          /\ (List.length dropped <= 1)%nat).
      { intros a1 cs1 ts1 Hs Hloop.
        destruct (IH a1 cs1 ts1 _ _ _ _ Hloop) as (echoed & dropped & He & Hi & Hd).
        exists (receiveString :: echoed), dropped. split; [|split].
        - rewrite He, Hs, <- app_assoc. reflexivity.
        - cbn [map app]. now rewrite <- Hi.
        - exact Hd. }
      unfold sendall in H. cbn [negb] in H.
      set (a1 := {| name := name a; ready := ready a; sosTimeout := sosTimeout a;
                    subthreads := subthreads a; results := results a;
                    sent := (sent a ++ [(receiveString,
                                         send_ok (List.length (sent a)))])%list;
                    closed := closed a |}) in H.
      assert (Hs1 : map fst (sent a1)
                    = (map fst (sent a) ++ [receiveString])%list)
        by (subst a1; cbn [sent]; now rewrite map_app).
      destruct (send_ok (List.length (sent a))); cbn [negb] in H.
      2:{ injection H as <- <- <- <-. now apply (Hone a1). }
      destruct (String.eqb receiveString READY_STRING).
      { now apply (Hmore (set_ready true a1) cs ts). }
      destruct (split TAB (remove_char LF receiveString)) as [|key [|value fields]].
      { injection H as <- <- <- <-. now apply (Hone a1). }
      { injection H as <- <- <- <-. now apply (Hone a1). }
      destruct (String.eqb key "name").
      { now apply (Hmore (set_name value a1) cs ts). }
      destruct (String.eqb key "command").
      { now apply (Hmore a1 (cs ++ [value])%list ts). }
      destruct (String.eqb key "timeout").
      2:{ injection H as <- <- <- <-. now apply (Hone a1). }
      destruct (py_int value) as [timeout|].
      2:{ injection H as <- <- <- <-. now apply (Hone a1). }
      destruct (timeout =? TIMEOUT_NONE).
      { now apply (Hmore a1 cs (ts ++ [None])%list). }
      destruct (sosTimeout a1 <? timeout).
      + now apply (Hmore (set_sosTimeout timeout a1) cs (ts ++ [Some timeout])%list).
      + now apply (Hmore a1 cs (ts ++ [Some timeout])%list). }
  intros H. apply Hgen in H. exact H.
Qed.

(** ** The coordinator's messages, read by the agent *)

Lemma remove_char_absent c s :
  ~ In c (list_ascii_of_string s) -> remove_char c (s ++ String c "") = s.
Proof.
  induction s as [|x s IH]; intros H.
  - change ("" ++ String c "") with (String c "").
    cbn [remove_char]. now rewrite Ascii.eqb_refl.
  - change (String x s ++ String c "") with (String x (s ++ String c "")).
    cbn [remove_char]. destruct (Ascii.eqb_spec x c) as [->|_].
    + exfalso. apply H. now left.
    + rewrite IH; [reflexivity|]. intros Hin. apply H. now right.
Qed.

Lemma remove_char_skip c s r :
  ~ In c (list_ascii_of_string s) -> remove_char c (s ++ r) = s ++ remove_char c r.
Proof.
  induction s as [|x s IH]; intros H; [reflexivity|].
  change (String x s ++ r) with (String x (s ++ r)).
  cbn [remove_char]. destruct (Ascii.eqb_spec x c) as [->|_].
  - exfalso. apply H. now left.
  - rewrite IH; [reflexivity|]. intros Hin. apply H. now right.
Qed.

(** The two fields that [get_specs] finds in a message of the coordinator. *)
Lemma message_fields key value :
  plain key -> plain value ->
  split TAB (remove_char LF (key ++ SOCKET_DELIMITER ++ value ++ String LF ""))
  = [key; value].
Proof.
  intros [Hkt Hkl] [Hvt Hvl]. rewrite remove_char_skip by exact Hkl.
  unfold SOCKET_DELIMITER.
  change (String TAB "" ++ value ++ String LF "")
    with (String TAB (value ++ String LF "")).
  change (remove_char LF (String TAB (value ++ String LF "")))
    with (String TAB (remove_char LF (value ++ String LF ""))).
  rewrite remove_char_absent by exact Hvl.
  rewrite NetJobsAgentSpec.split_tab_free by exact Hkt.
  now rewrite WireSpec.split_whole.
Qed.

Lemma get_specs_loop_message send_ok message key value rest a commands timeouts :
  ready a = false ->
  send_ok (List.length (sent a)) = true ->
  String.eqb message READY_STRING = false ->
  split TAB (remove_char LF message) = [key; value] ->
  get_specs_loop send_ok (Recv message :: rest) a commands timeouts
  = let a := fst (sendall send_ok message a) in
    if String.eqb key "name" then
      get_specs_loop send_ok rest (set_name value a) commands timeouts
    else if String.eqb key "command" then
      get_specs_loop send_ok rest a (commands ++ [value]) timeouts
    else if String.eqb key "timeout" then
      match py_int value with
      | Some timeout =>
          if timeout =? TIMEOUT_NONE then
            get_specs_loop send_ok rest a commands (timeouts ++ [None])
          else
            get_specs_loop send_ok rest
              (if sosTimeout a <? timeout then set_sosTimeout timeout a else a)
              commands (timeouts ++ [Some timeout])
      | None => (commands, timeouts, a, rest)
      end
    else (commands, timeouts, a, rest).
Proof.
  intros Hr Hok Hne Hf. cbn [get_specs_loop]. rewrite Hr. cbn [negb].
  unfold sendall. rewrite Hok. cbn [negb fst]. rewrite Hne, Hf. reflexivity.
Qed.

Lemma unspaced_plain s : unspaced s -> plain s.
Proof.
  unfold unspaced, plain. intros H. rewrite List.Forall_forall in H.
  split; intros Hin; apply H in Hin; discriminate Hin.
Qed.

Lemma plain_literal_keys : plain "name" /\ plain "command" /\ plain "timeout".
Proof.
  unfold plain. cbn [list_ascii_of_string In].
  repeat split; intros H; repeat (destruct H as [H|H]; [discriminate H|]); exact H.
Qed.

(** The jobs of a target: every command and timeout message of the
    coordinator is echoed and registered. *)
Lemma get_specs_loop_jobs send_ok tmo :
  (forall k, send_ok k = true) ->
  forall jobs zs,
    Forall2 (fun c z => tmo !! c = Some (Some z)) jobs zs ->
    Forall plain jobs ->
    exists msgs,
      NetJobs.job_messages tmo jobs = Ok msgs
      /\ forall rest a commands timeouts,
           ready a = false ->
           exists a',
             get_specs_loop send_ok (map Recv msgs ++ rest)%list a commands timeouts
             = get_specs_loop send_ok rest a' (commands ++ jobs)%list
                 (timeouts ++ map agent_timeout zs)%list
             /\ ready a' = false
             /\ name a' = name a
             /\ sent a' = (sent a ++ map (fun m => (m, true)) msgs)%list
             /\ subthreads a' = subthreads a
             /\ closed a' = closed a.
Proof.
  intros Hok jobs zs Hjobs. induction Hjobs as [|c z jobs zs Hc Hjobs IH]; intros Hplain.
  - exists []. split; [reflexivity|]. intros rest a commands timeouts Hr.
    exists a. cbn [map app]. rewrite !app_nil_r. now repeat split.
  - apply Forall_cons in Hplain as [Hpc Hplain].
    destruct (IH Hplain) as (msgs & Hmsgs & Hloop).
    destruct plain_literal_keys as (_ & Hcommand & Htimeout).
    destruct (WireSpec.py_int_pretty z) as [Hint Hsp].
    eexists. split.
    { cbn [NetJobs.job_messages]. unfold getitem. rewrite Hc. cbn [bind].
      rewrite Hmsgs. cbn [bind]. reflexivity. }
    intros rest a commands timeouts Hr. cbn [map app NetJobs.py_str].
    rewrite (get_specs_loop_message send_ok _ "command" c);
      [|exact Hr|apply Hok|reflexivity|now apply message_fields].
    cbn zeta. change (String.eqb "command" "name") with false.
    change (String.eqb "command" "command") with true. cbn match.
    rewrite (get_specs_loop_message send_ok _ "timeout" (pretty z));
      [|exact Hr|apply Hok|reflexivity
       |apply message_fields; [exact Htimeout | now apply unspaced_plain]].
    cbn zeta. change (String.eqb "timeout" "name") with false.
    change (String.eqb "timeout" "command") with false.
    change (String.eqb "timeout" "timeout") with true. cbn match.
    rewrite Hint. unfold sendall. cbn [fst].
    set (a2 := {| name := _; sent := _ |}).
    assert (Ha2 : ready a2 = false /\ name a2 = name a
                  /\ sent a2 = (sent a
                      ++ [(("command" ++ SOCKET_DELIMITER ++ c ++ String LF "")%string,
                           true);
                          (("timeout" ++ SOCKET_DELIMITER ++ pretty z
                              ++ String LF "")%string, true)])%list
                  /\ subthreads a2 = subthreads a
                  /\ closed a2 = closed a).
    { subst a2. cbn [ready name sent subthreads closed]. rewrite !Hok, <- app_assoc.
      now repeat split. }
    destruct Ha2 as (Hr2 & Hn2 & Hs2 & Hsub2 & Hcl2).
    assert (Hnext : forall a3 : Agent,
      ready a3 = false -> name a3 = name a -> sent a3 = sent a2 ->
      subthreads a3 = subthreads a -> closed a3 = closed a ->
      exists a',
        get_specs_loop send_ok (map Recv msgs ++ rest)%list a3
          (commands ++ [c])%list (timeouts ++ [agent_timeout z])%list
        = get_specs_loop send_ok rest a' (commands ++ c :: jobs)%list
            (timeouts ++ map agent_timeout (z :: zs))%list
        /\ ready a' = false /\ name a' = name a
        /\ sent a' = (sent a
             ++ map (fun m => (m, true))
                  (("command" ++ SOCKET_DELIMITER ++ c ++ String LF "")%string
                   :: ("timeout" ++ SOCKET_DELIMITER ++ pretty z
                         ++ String LF "")%string
                   :: msgs))%list
        /\ subthreads a' = subthreads a
        /\ closed a' = closed a).
    { intros a3 Hr3 Hn3 Hs3 Hsub3 Hcl3.
      destruct (Hloop rest a3 (commands ++ [c])%list
                  (timeouts ++ [agent_timeout z])%list Hr3)
        as (a' & Heq & Hr' & Hn' & Hs' & Hsub' & Hcl').
      exists a'.
      split; [|split; [exact Hr'|split; [congruence|split; [|split; congruence]]]].
      - rewrite Heq. cbn [map]. now rewrite <- !app_assoc.
      - rewrite Hs', Hs3, Hs2. cbn [map]. now rewrite <- app_assoc. }
    unfold agent_timeout in Hnext at 1. unfold agent_timeout at 1 in Hnext.
    destruct (z =? TIMEOUT_NONE); [now apply Hnext|].
    destruct (sosTimeout a2 <? z); now apply Hnext.
Qed.

Lemma get_specs_loop_ready send_ok inbox a commands timeouts :
  ready a = true ->
  get_specs_loop send_ok inbox a commands timeouts = (commands, timeouts, a, inbox).
Proof. intros H. destruct inbox; cbn [get_specs_loop]; now rewrite H. Qed.

(** [get_specs] on the configuration messages of a target. *)
Lemma get_specs_config_messages send_ok test target jobs tmo zs rest a :
  (forall k, send_ok k = true) ->
  dict_get (NetJobs.specs test) target = Ok jobs ->
  NetJobs.timeouts test !! target = Some tmo ->
  Forall2 (fun c z => tmo !! c = Some (Some z)) jobs zs ->
  plain target ->
  Forall plain jobs ->
  ready a = false ->
  exists msgs a',
    NetJobs.config_messages test target = Ok msgs
    /\ get_specs send_ok (map Recv msgs ++ rest)%list a
       = (jobs, map agent_timeout zs, a', rest)
    /\ name a' = target
    /\ ready a' = true
    /\ sent a' = (sent a ++ map (fun m => (m, true)) msgs)%list
    /\ subthreads a' = subthreads a
    /\ closed a' = closed a.
Proof.
  intros Hok Hspecs Htmo Hjobs Htarget Hplain Hr.
  destruct (get_specs_loop_jobs send_ok tmo Hok jobs zs Hjobs Hplain)
    as (msgs & Hmsgs & Hloop).
  destruct plain_literal_keys as (Hname & _ & _).
  exists ((("name" ++ SOCKET_DELIMITER ++ target ++ String LF "")%string
             :: msgs ++ [READY_STRING])%list).
  unfold NetJobs.config_messages, getitem.
  rewrite Hspecs, Htmo. cbn [bind]. rewrite Hmsgs. cbn [bind].
  unfold get_specs. cbn [map app].
  rewrite (get_specs_loop_message send_ok _ "name" target);
    [|exact Hr|apply Hok|reflexivity|now apply message_fields].
  cbn zeta. change (String.eqb "name" "name") with true. cbn match.
  rewrite map_app, <- app_assoc. cbn [map app].
  match goal with
  | |- context [get_specs_loop send_ok _ ?a1 [] []] =>
      destruct (Hloop (Recv READY_STRING :: rest) a1 [] [] Hr)
        as (a2 & Heq & Hr2 & Hn2 & Hs2 & Hsub2 & Hcl2)
  end.
  rewrite Heq. cbn [get_specs_loop app]. rewrite Hr2. cbn [negb].
  unfold sendall at 1. rewrite Hok. cbn [negb].
  rewrite String.eqb_refl, get_specs_loop_ready by reflexivity.
  eexists. split; [reflexivity|]. split; [reflexivity|].
  cbn [name ready sent subthreads closed set_ready].
  split; [exact Hn2|]. split; [reflexivity|].
  split; [|split; [exact Hsub2 | exact Hcl2]].
  rewrite Hs2. unfold sendall. cbn [fst sent set_name set_sosTimeout].
  rewrite Hok, map_app. cbn [map]. rewrite <- !app_assoc. reflexivity.
Qed.

(** X19.  An agent that receives, one message for each read, the
    configuration messages that the coordinator sends to a target registers
    the plan of that target: the name, the commands in order and for each
    one its timeout, a timeout of 0 as no deadline.  It echoes every message
    and leaves configuration ready for the start message.  The target and
    the commands are taken to have no tabulation and no line feed, and every
    job an integer timeout. *)
Theorem agent_registers_the_plan send_ok test target jobs tmo zs rest a :
  (forall k, send_ok k = true) ->
  dict_get (NetJobs.specs test) target = Ok jobs ->
  NetJobs.timeouts test !! target = Some tmo ->
  Forall2 (fun c z => tmo !! c = Some (Some z)) jobs zs ->
  plain target ->
  Forall plain jobs ->
  ready a = false ->
  exists msgs a',
    NetJobs.config_messages test target = Ok msgs
    /\ get_specs send_ok (map Recv msgs ++ rest)%list a
       = (jobs, map agent_timeout zs, a', rest)
    /\ name a' = target
    /\ ready a' = true
    /\ sent a' = (sent a ++ map (fun m => (m, true)) msgs)%list.
Proof.
  intros Hok Hspecs Htmo Hjobs Htarget Hplain Hr.
  destruct (get_specs_config_messages send_ok test target jobs tmo zs rest a
              Hok Hspecs Htmo Hjobs Htarget Hplain Hr)
    as (msgs & a' & Hm & Hg & Hn & Hr' & Hs & _).
  exists msgs, a'. now repeat split.
Qed.

Lemma agent_registers_the_plan_witness :
  exists msgs a',
    NetJobs.config_messages test1 "t1" = Ok msgs
    /\ get_specs send_ok_always (map Recv msgs ++ [Recv START_STRING])%list
         (serving "")
       = (["c1"], map agent_timeout [0], a', [Recv START_STRING])
    /\ name a' = "t1"
    /\ ready a' = true
    /\ sent a' = (sent (serving "") ++ map (fun m => (m, true)) msgs)%list.
Proof.
  apply (agent_registers_the_plan send_ok_always test1 "t1" ["c1"]
           {["c1" := Some 0]} [0] [Recv START_STRING] (serving "")).
  - reflexivity.
  - reflexivity.
  - reflexivity.
  - repeat constructor.
  - unfold plain. cbn [list_ascii_of_string In].
    split; intros H; repeat (destruct H as [H|H]; [discriminate H|]); exact H.
  - repeat constructor; cbn [list_ascii_of_string In];
      intros H; repeat (destruct H as [H|H]; [discriminate H|]); exact H.
  - reflexivity.
Defined.

End ConfigurationSpec.

(** * The agent between configuration and run *)
Module ServingSpec.
Import NetJobsAgent Scenarios Predicates.








(** ** Spawning *)

Lemma start_run_loop_reuses popen commands timeouts :
  forall n k p0 threads0 threads,
    List.length threads0 = k ->
    p0 = proc <$> last threads0 ->
    reuses_previous popen threads0 ->
    start_run_loop popen commands timeouts (seq k n) p0 threads0 = (threads, None) ->
    reuses_previous popen threads.
Proof.
  induction n as [|n IH]; intros k p0 threads0 threads Hlen Hp0 Hq Hrun.
  - cbn [seq start_run_loop] in Hrun. now injection Hrun as <-.
  - cbn [seq start_run_loop] in Hrun. unfold list_getitem in Hrun.
    destruct (commands !! k) as [cmd|]; [|discriminate].
    destruct (timeouts !! k) as [tmo|]; [|discriminate].
    set (p1 := match popen k cmd with Some p => Some p | None => p0 end) in Hrun.
    destruct p1 as [p|] eqn:Hp1; [|discriminate].
    apply (IH (S k) (Some p)
             (threads0 ++ [ProcThread_init cmd tmo p])%list threads);
      [| |  |exact Hrun].
    + rewrite length_app. cbn [List.length]. lia.
    + now rewrite last_snoc.
    + intros i t Hi Hfail.
      destruct (decide (i < List.length threads0)%nat) as [Hlt|Hge].
      * rewrite lookup_app_l in Hi by exact Hlt.
        destruct (Hq i t Hi Hfail) as (i' & previous & -> & Hprev & Heq).
        exists i', previous. split; [reflexivity|]. split; [|exact Heq].
        rewrite lookup_app_l by lia. exact Hprev.
      * rewrite lookup_app_r in Hi by lia.
        destruct (i - List.length threads0)%nat as [|d] eqn:Hd; [|discriminate].
        cbn in Hi. injection Hi as <-. cbn [command ProcThread_init] in Hfail.
        assert (i = k) as -> by lia.
        subst p1. rewrite Hfail in Hp1. subst p0.
        destruct (last threads0) as [previous|] eqn:Hlast; [|discriminate].
        injection Hp1 as Hp1. rewrite last_lookup in Hlast.
        destruct k as [|k']; [destruct threads0; discriminate|].
        exists k', previous. split; [reflexivity|]. split.
        -- rewrite lookup_app_l by lia. rewrite <- Hlast. f_equal. lia.
        -- cbn [proc ProcThread_init]. now rewrite Hp1.
Qed.

(** X22.  When [start_run] returns, a command whose [Popen] raised has
    been given a supervisor all the same, and that supervisor holds the
    subprocess of the command before it; it is never the first command. *)
Theorem failed_spawn_supervises_previous_subprocess
    popen commands timeouts threads :
  start_run popen commands timeouts [] = (threads, None) ->
  reuses_previous popen threads.
Proof.
  intros Hrun. unfold start_run in Hrun.
  apply (start_run_loop_reuses popen commands timeouts
           (Nat.min (List.length commands) (List.length timeouts))
           0%nat None [] threads);
    [reflexivity | reflexivity | | exact Hrun].
  intros i t Hi. discriminate Hi.
Qed.

Lemma failed_spawn_supervises_previous_subprocess_witness :
  reuses_previous popen_first_only
    [ProcThread_init "c1" None
       {| returncode := 0; stdout := "one"; stderr := "" |};
     ProcThread_init "c2" (Some 5)
       {| returncode := 0; stdout := "one"; stderr := "" |}].
Proof.
  apply (failed_spawn_supervises_previous_subprocess popen_first_only
           ["c1"; "c2"] [None; Some 5]).
  reflexivity.
Defined.

End ServingSpec.

(** * From the plan to the records: coordinator messages, agent run *)
Module RunSpec.
Import NetJobsAgent Scenarios Predicates.

Lemma main_connection_configured send_ok popen polls test target jobs tmo zs rest :
  (forall k, send_ok k = true) ->
  dict_get (NetJobs.specs test) target = Ok jobs ->
  NetJobs.timeouts test !! target = Some tmo ->
  Forall2 (fun c z => tmo !! c = Some (Some z)) jobs zs ->
  plain target ->
  Forall plain jobs ->
  exists msgs a,
    NetJobs.config_messages test target = Ok msgs
    /\ main_connection send_ok popen polls
         (map Recv msgs ++ Recv START_STRING :: rest)%list
       = (let (threads, e) := start_run popen jobs (map agent_timeout zs) [] in
          match (set_ready false (set_subthreads threads a), e) with
          | (a, Some e) => Some (a, Some e)
          | (a, None) =>
              match join_all send_ok polls 0 (subthreads a) a with
              | None => None
              | Some (threads, a) =>
                  Some (set_closed true
                          (fst (sendall send_ok DONE_STRING
                                  (set_subthreads threads a))), None)
              end
          end)
    /\ name a = target
    /\ sent a = map (fun m => (m, true)) msgs
    /\ closed a = false.
Proof.
  intros Hok Hspecs Htmo Hjobs Htarget Hplain.
  destruct (ConfigurationSpec.get_specs_config_messages send_ok test target jobs
              tmo zs (Recv START_STRING :: rest) (serving "")
              Hok Hspecs Htmo Hjobs Htarget Hplain eq_refl)
    as (msgs & a & Hm & Hg & Hn & Hr & Hs & Hsub & Hcl).
  exists msgs, a. split; [exact Hm|]. split; [|now repeat split].
  unfold main_connection.
  change {| name := ""; ready := false; sosTimeout := TIMEOUT_NONE;
            subthreads := []; results := ∅; sent := []; closed := false |}
    with (serving "").
  rewrite Hg. cbn [await_start]. rewrite Hr. cbn [negb].
  change (String.eqb START_STRING "") with false. cbn match.
  rewrite String.eqb_refl, Hsub. cbn [subthreads serving].
  destruct (start_run popen jobs (map agent_timeout zs) []) as [threads [e|]];
    reflexivity.
Qed.

(** X23.  When the [Popen] of the first command of the plan raises, the
    agent that was configured by the coordinator and has received the start
    message does not report anything: [start_run] uses a variable that was
    never bound, the exception leaves [main], and no record and no DONE is
    sent and the connection is not closed. *)
Theorem first_failed_spawn_ends_the_agent
    send_ok popen polls test target c jobs tmo zs rest :
  (forall k, send_ok k = true) ->
  dict_get (NetJobs.specs test) target = Ok (c :: jobs) ->
  NetJobs.timeouts test !! target = Some tmo ->
  Forall2 (fun c z => tmo !! c = Some (Some z)) (c :: jobs) zs ->
  plain target ->
  Forall plain (c :: jobs) ->
  popen 0%nat c = None ->
  exists msgs a,
    NetJobs.config_messages test target = Ok msgs
    /\ main_connection send_ok popen polls
         (map Recv msgs ++ Recv START_STRING :: rest)%list
       = Some (a, Some UnboundLocalError)
    /\ map fst (sent a) = msgs
    /\ subthreads a = []
    /\ closed a = false.
Proof.
  intros Hok Hspecs Htmo Hjobs Htarget Hplain Hpopen.
  destruct (main_connection_configured send_ok popen polls test target (c :: jobs)
              tmo zs rest Hok Hspecs Htmo Hjobs Htarget Hplain)
    as (msgs & a & Hm & Hmain & Hn & Hs & Hcl).
  destruct zs as [|z zs]; [inversion Hjobs|].
  exists msgs. eexists. split; [exact Hm|]. rewrite Hmain.
  unfold start_run. cbn [map List.length Nat.min seq start_run_loop].
  unfold list_getitem. cbn [lookup list_lookup]. rewrite Hpopen.
  split; [reflexivity|].
  cbn [sent subthreads closed set_ready set_subthreads].
  split; [|now split].
  rewrite Hs, map_map. cbn [fst]. apply map_id.
Qed.

Lemma first_failed_spawn_ends_the_agent_witness :
  exists msgs a,
    NetJobs.config_messages test1 "t1" = Ok msgs
    /\ main_connection send_ok_always popen_failing polls_ended
         (map Recv msgs ++ Recv START_STRING :: [])%list
       = Some (a, Some UnboundLocalError)
    /\ map fst (sent a) = msgs
    /\ subthreads a = []
    /\ closed a = false.
Proof.
  apply (first_failed_spawn_ends_the_agent send_ok_always popen_failing
           polls_ended test1 "t1" "c1" [] {["c1" := Some 0]} [0] []).
  - reflexivity.
  - reflexivity.
  - reflexivity.
  - repeat constructor.
  - unfold plain. cbn [list_ascii_of_string In].
    split; intros H; repeat (destruct H as [H|H]; [discriminate H|]); exact H.
  - repeat constructor; cbn [list_ascii_of_string In];
      intros H; repeat (destruct H as [H|H]; [discriminate H|]); exact H.
  - reflexivity.
Defined.

(** X24.  A plan whose only job for a target has no timeout (the value 0
    that the parser stores for [none]) does not run without a deadline: the
    agent configured by the coordinator's messages spawns the command, and
    if the subprocess has not ended at the first poll the agent stops it and
    sends, after the echoes, the record with the status [ERROR] and the text
    of the exception, then DONE, and closes the connection. *)
Theorem job_without_timeout_is_reported_as_error
    send_ok popen polls test target c tmo p elapsedTime later rest :
  (forall k, send_ok k = true) ->
  dict_get (NetJobs.specs test) target = Ok [c] ->
  NetJobs.timeouts test !! target = Some tmo ->
  tmo !! c = Some (Some TIMEOUT_NONE) ->
  plain target ->
  plain c ->
  popen 0%nat c = Some p ->
  polls 0%nat = Poll false elapsedTime :: later ->
  (String.length (record_of target c
                    (ERROR_STATUS ++ SOCKET_DELIMITER ++ type_error_text))
   <= BUFFER_SIZE)%nat ->
  exists msgs a,
    NetJobs.config_messages test target = Ok msgs
    /\ main_connection send_ok popen polls
         (map Recv msgs ++ Recv START_STRING :: rest)%list
       = Some (a, None)
    /\ map fst (sent a)
       = (msgs ++ [record_of target c
                     (ERROR_STATUS ++ SOCKET_DELIMITER ++ type_error_text);
                   DONE_STRING])%list
    /\ closed a = true.
Proof.
  intros Hok Hspecs Htmo Hc Htarget Hplain Hpopen Hpolls Hlen.
  assert (Hjobs : Forall2 (fun c z => tmo !! c = Some (Some z)) [c] [TIMEOUT_NONE])
    by (constructor; [exact Hc | constructor]).
  assert (Hplains : Forall plain [c]) by (constructor; [exact Hplain | constructor]).
  destruct (main_connection_configured send_ok popen polls test target [c]
              tmo [TIMEOUT_NONE] rest Hok Hspecs Htmo Hjobs Htarget Hplains)
    as (msgs & a & Hm & Hmain & Hn & Hs & Hcl).
  exists msgs. eexists. split; [exact Hm|]. rewrite Hmain.
  unfold start_run. cbn [map List.length Nat.min seq start_run_loop].
  unfold list_getitem. cbn [lookup list_lookup]. rewrite Hpopen.
  cbn [app subthreads set_ready set_subthreads join_all].
  unfold ProcThread_run. rewrite Hpolls.
  cbn [wait_loop running set_thread_running negb timeout ProcThread_init
       agent_timeout name set_ready set_subthreads].
  change (agent_timeout TIMEOUT_NONE) with (@None Z). cbn match.
  rewrite NetJobsAgentMore.send_result_held;
    [|apply NetJobsAgentMore.record_of_not_none
     |cbn [result stop_and_kill_subproc set_result set_thread_running command
           ProcThread_init]; rewrite Hn; exact Hlen].
  split; [reflexivity|].
  unfold sendall.
  cbn [fst sent closed set_closed set_subthreads set_ready set_agent_results
       result stop_and_kill_subproc set_result set_thread_running command
       ProcThread_init name].
  split; [|reflexivity].
  rewrite Hs, Hn, !map_app, map_map. cbn [fst map].
  rewrite map_id, <- app_assoc. reflexivity.
Qed.

Lemma job_without_timeout_is_reported_as_error_witness :
  exists msgs a,
    NetJobs.config_messages test1 "t1" = Ok msgs
    /\ main_connection send_ok_always popen_quiet polls_running_once
         (map Recv msgs ++ Recv START_STRING :: [])%list
       = Some (a, None)
    /\ map fst (sent a)
       = (msgs ++ [record_of "t1" "c1"
                     (ERROR_STATUS ++ SOCKET_DELIMITER ++ type_error_text);
                   DONE_STRING])%list
    /\ closed a = true.
Proof.
  apply (job_without_timeout_is_reported_as_error send_ok_always popen_quiet
           polls_running_once test1 "t1" "c1" {["c1" := Some 0]}
           {| returncode := 0; stdout := ""; stderr := "" |} 0 [Poll true 1] []).
  - reflexivity.
  - reflexivity.
  - reflexivity.
  - reflexivity.
  - unfold plain. cbn [list_ascii_of_string In].
    split; intros H; repeat (destruct H as [H|H]; [discriminate H|]); exact H.
  - unfold plain. cbn [list_ascii_of_string In].
    split; intros H; repeat (destruct H as [H|H]; [discriminate H|]); exact H.
  - reflexivity.
  - reflexivity.
  - vm_compute. lia.
Defined.

End RunSpec.

(** * Records that arrive in one read *)
Module StreamSpec.
Import NetJobs Scenarios Predicates.

Lemma append_assoc (s t u : string) : (s ++ t) ++ u = s ++ t ++ u.
Proof.
  induction s as [|c s IH]; [reflexivity|].
  change ((String c s ++ t) ++ u) with (String c ((s ++ t) ++ u)).
  now rewrite IH.
Qed.

Lemma tab_free_app s t :
  NetJobsAgent.tab_free s -> NetJobsAgent.tab_free t ->
  NetJobsAgent.tab_free (s ++ t).
Proof.
  intros Hs Ht. induction s as [|c s IH]; [exact Ht|].
  apply NetJobsAgentSpec.tab_free_cons in Hs as [Hc Hs].
  change (String c s ++ t) with (String c (s ++ t)).
  unfold NetJobsAgent.tab_free. cbn [list_ascii_of_string In].
  intros [H|H]; [now apply Hc | now apply (IH Hs)].
Qed.

(** The fields that [process_result_string] finds in a record followed, in
    the same buffer, by [tail]. *)
Lemma record_then_tail name command status output tail :
  NetJobsAgent.tab_free name -> NetJobsAgent.tab_free command ->
  NetJobsAgent.tab_free status ->
  split TAB (record_of name command (status ++ SOCKET_DELIMITER ++ output) ++ tail)
  = name :: command :: status :: split TAB (output ++ tail).
Proof.
  intros Hn Hc Hs. unfold record_of. rewrite !append_assoc.
  now apply NetJobsAgentSpec.record_fields.
Qed.

(** X25.  Records carry no terminator.  When two records of an agent
    arrive in one read, the listener stores the first one only, with the
    name field of the second appended to its output; nothing is stored for
    the command of the second record. *)
Theorem coalesced_records_keep_only_the_first
    name command status output name' command' rest' test row :
  NetJobsAgent.tab_free name -> NetJobsAgent.tab_free command ->
  NetJobsAgent.tab_free status -> NetJobsAgent.tab_free output ->
  NetJobsAgent.tab_free name' ->
  results test !! name = Some row ->
  process_result_string
    (record_of name command (status ++ SOCKET_DELIMITER ++ output)
       ++ record_of name' command' rest') test
  = Ok (set_results
          (<[name := <[command := Some (status, output ++ name')]> row]>
             (results test)) test).
Proof.
  intros Hn Hc Hs Ho Hn' Hrow.
  rewrite (NetJobsSpec.process_result_string_full _ _ name command status
             (output ++ name') (split TAB (command' ++ SOCKET_DELIMITER ++ rest'))).
  - now apply NetJobsSpec.store_known_target.
  - rewrite record_then_tail by assumption. do 3 f_equal.
    unfold record_of. rewrite <- append_assoc.
    unfold SOCKET_DELIMITER at 1.
    change (String TAB "" ++ command' ++ SOCKET_DELIMITER ++ rest')
      with (String TAB (command' ++ SOCKET_DELIMITER ++ rest')).
    apply NetJobsAgentSpec.split_tab_free. now apply tab_free_app.
Qed.

Lemma coalesced_records_keep_only_the_first_witness :
  process_result_string
    (record_of "t1" "c1" ("SUCCESS" ++ SOCKET_DELIMITER ++ "one")
       ++ record_of "t1" "c2" ("SUCCESS" ++ SOCKET_DELIMITER ++ "two")) test1
  = Ok (set_results
          (<["t1" := <["c1" := Some ("SUCCESS", "one" ++ "t1")]> {["c1" := None]}]>
             (results test1)) test1).
Proof.
  apply (coalesced_records_keep_only_the_first "t1" "c1" "SUCCESS" "one"
           "t1" "c2" ("SUCCESS" ++ SOCKET_DELIMITER ++ "two") test1
           {["c1" := None]});
    try reflexivity;
    unfold NetJobsAgent.tab_free; cbn [list_ascii_of_string In];
    intros H; repeat (destruct H as [H|H]; [discriminate H|]); exact H.
Defined.

(** X26.  When the last record of an agent and its DONE message arrive in
    one read, the listener does not see the DONE: it stores the record with
    the text of the DONE message at the end of the output and is still in
    its loop after that read. *)
Theorem done_after_record_in_one_read_is_not_seen
    target timeout elapsedTime name command status output evs st row :
  running target (fst st) = true ->
  deadline_reached timeout elapsedTime = false ->
  NetJobsAgent.tab_free name -> NetJobsAgent.tab_free command ->
  NetJobsAgent.tab_free status -> NetJobsAgent.tab_free output ->
  results (snd st) !! name = Some row ->
  let buffer := record_of name command (status ++ SOCKET_DELIMITER ++ output)
                  ++ DONE_STRING in
  let st' := (fst st,
              set_results
                (<[name := <[command := Some (status, output ++ DONE_STRING)]> row]>
                   (results (snd st))) (snd st)) in
  listen_loop target timeout (Turn elapsedTime (Received buffer) :: evs) st
  = listen_loop target timeout evs st'
  /\ running target (fst st') = true
  /\ listen_loop target timeout [Turn elapsedTime (Received buffer)] st = None.
Proof.
  intros Hrun Hdl Hn Hc Hs Ho Hrow buffer st'.
  assert (Hfields : split TAB buffer
                    = [name; command; status; output ++ DONE_STRING]).
  { subst buffer. rewrite record_then_tail by assumption. do 3 f_equal.
    apply WireSpec.split_whole. apply tab_free_app; [exact Ho|].
    unfold NetJobsAgent.tab_free. cbn [list_ascii_of_string In DONE_STRING].
    intros H. repeat (destruct H as [H|H]; [discriminate H|]). exact H. }
  assert (Hstep : forall evs,
    listen_loop target timeout (Turn elapsedTime (Received buffer) :: evs) st
    = listen_loop target timeout evs st').
  { intros evs0. cbn [listen_loop]. rewrite Hrun, Hdl. cbn [negb].
    destruct (String.eqb_spec buffer "") as [E|_];
      [rewrite E in Hfields; discriminate Hfields|].
    destruct (String.eqb_spec buffer DONE_STRING) as [E|_];
      [rewrite E in Hfields; discriminate Hfields|].
    rewrite (NetJobsSpec.process_result_string_full _ _ _ _ _ _ _ Hfields).
    now rewrite (NetJobsSpec.store_known_target _ _ _ _ _ Hrow). }
  split; [apply Hstep|]. split; [exact Hrun|].
  rewrite Hstep. cbn [listen_loop]. subst st'. cbn [fst]. now rewrite Hrun.
Qed.

Lemma done_after_record_in_one_read_is_not_seen_witness :
  let st := (set_running "t1" true started1, test1) in
  let buffer := record_of "t1" "c1" ("SUCCESS" ++ SOCKET_DELIMITER ++ "one")
                  ++ DONE_STRING in
  let st' := (fst st,
              set_results
                (<["t1" := <["c1" := Some ("SUCCESS", "one" ++ DONE_STRING)]>
                              {["c1" := None]}]>
                   (results (snd st))) (snd st)) in
  listen_loop "t1" (Some 30) (Turn 1 (Received buffer) :: [Turn 2 NotReady]) st
  = listen_loop "t1" (Some 30) [Turn 2 NotReady] st'
  /\ running "t1" (fst st') = true
  /\ listen_loop "t1" (Some 30) [Turn 1 (Received buffer)] st = None.
Proof.
  apply (done_after_record_in_one_read_is_not_seen "t1" (Some 30) 1
           "t1" "c1" "SUCCESS" "one" [Turn 2 NotReady]
           (set_running "t1" true started1, test1) {["c1" := None]});
    try reflexivity;
    unfold NetJobsAgent.tab_free; cbn [list_ascii_of_string In];
    intros H; repeat (destruct H as [H|H]; [discriminate H|]); exact H.
Defined.

End StreamSpec.

(** * Properties of the reading of timeouts *)
Module TimeoutsReadSpec.
Import Timeouts Predicates.

Lemma last_char_snoc s u : last_char (s ++ String u "") = Some u.
Proof.
  induction s as [|c s IH]; [reflexivity|].
  change (String c s ++ String u "") with (String c (s ++ String u "")).
  cbn [last_char]. rewrite IH.
  destruct s; reflexivity.
Qed.

Lemma but_last_snoc s u : but_last (s ++ String u "") = s.
Proof.
  induction s as [|c s IH]; [reflexivity|].
  change (String c s ++ String u "") with (String c (s ++ String u "")).
  cbn [but_last]. rewrite IH.
  destruct s; reflexivity.
Qed.

Lemma int_pretty (t : Z) : int (pretty t) = Some t.
Proof.
  destruct (WireSpec.py_int_pretty t) as [Hint Hs]. rewrite <- Hint.
  assert (Hl : forall s, unspaced s -> int_lstrip s = s).
  { intros [|c s] H; [reflexivity|].
    apply WireSpec.unspaced_cons in H as [Hc _]. cbn [int_lstrip].
    assert (Hi : int_space c = false).
    { revert Hc. unfold NetJobsAgent.is_space, int_space.
      generalize (nat_of_ascii c). intros n Hn.
      apply orb_false_iff in Hn as [H1 H2]. apply orb_false_iff. split;
        [exact H1|].
      apply Nat.eqb_neq. intros ->. discriminate H2. }
    now rewrite Hi. }
  unfold int, NetJobsAgent.py_int. rewrite (WireSpec.strip_unspaced _ Hs).
  rewrite (Hl _ Hs). unfold int_rstrip.
  rewrite Hl by (apply WireSpec.unspaced_rev_app; [assumption | constructor]).
  unfold String.rev. rewrite WireSpec.rev_app_rev_app. cbn [String.rev_app].
  now rewrite WireSpec.append_empty_r.
Qed.

(** X27.  A timeout written as an integer followed by one character is
    read as that integer times a multiplier.  The multiplier is 1 for every
    character other than [h] and [m], [s] or not; for [h] and [m] it is
    3600 and 60 only in an interpreter in which equal one-character strings
    are one object, and 1 otherwise, so that [1h] is then read as one
    second.  In both cases [0s] is read as the same value as [none], the
    value that stands for no timeout. *)
Theorem timeout_text_is_value_times_unit
    (shared : bool) (value : Z) (unit : ascii) :
  evaluate_timeout_status shared (pretty value ++ String unit "")
  = Ok (value * (if shared && Ascii.eqb unit "h" then 3600
                 else if shared && Ascii.eqb unit "m" then 60 else 1))
  /\ evaluate_timeout_status false (pretty value ++ String unit "") = Ok value
  /\ evaluate_timeout_status shared (pretty 0 ++ "s")
     = evaluate_timeout_status shared "none".
Proof.
  assert (Hfirst : forall shared,
    evaluate_timeout_status shared (pretty value ++ String unit "")
    = Ok (value * (if shared && Ascii.eqb unit "h" then 3600
                   else if shared && Ascii.eqb unit "m" then 60 else 1))).
  { intros shared0. pose proof (int_pretty value) as Hint.
    unfold evaluate_timeout_status.
    destruct (String.eqb_spec (pretty value ++ String unit "") "none") as [E|_].
    - exfalso. apply (f_equal but_last) in E. rewrite but_last_snoc in E.
      rewrite E in Hint. discriminate Hint.
    - rewrite last_char_snoc, but_last_snoc, Hint. reflexivity. }
  split; [apply Hfirst|]. split.
  - rewrite Hfirst. cbn [andb]. f_equal. lia.
  - now destruct shared.
Qed.

End TimeoutsReadSpec.

(** * Properties of the parser of the configuration file *)
Module ParserSpec.
Import Parser Predicates.

Lemma parse_lines_app shared lines1 : forall lines2 l,
  parse_lines shared (lines1 ++ lines2)%list l
  = let! l1 := parse_lines shared lines1 l in parse_lines shared lines2 l1.
Proof.
  induction lines1 as [|line lines1 IH]; intros lines2 l; [reflexivity|].
  cbn [app parse_lines]. destruct (parse_line shared line l) as [l1|e];
    cbn [bind]; [apply IH | reflexivity].
Qed.

Lemma queue_app file more :
  queue (file ++ more)%list = (queue file ++ queue more)%list.
Proof. unfold queue. now rewrite map_app, List.filter_app. Qed.

Lemma queue_stripped file line :
  In line (queue file) -> exists raw, In raw file /\ line = strip raw.
Proof.
  unfold queue. intros H. apply List.filter_In in H as [H _].
  apply List.in_map_iff in H as (raw & <- & Hin). eauto.
Qed.

Lemma read_timeout_nonneg shared tokens timeout :
  read_timeout shared tokens = Ok timeout -> 0 <= timeout.
Proof.
  unfold read_timeout.
  destruct (list_getitem tokens 1) as [text|]; cbn [bind]; [|discriminate].
  destruct (Timeouts.evaluate_timeout_status shared text) as [t|[]];
    try discriminate.
  destruct (Z.ltb_spec t 0); [discriminate|]. intros [= <-]. lia.
Qed.

(** What the first block of a turn leaves: the test list as it was, and
    the plan either emptied by a label line or kept, with a general timeout
    that is kept or not negative. *)
Lemma before_target_ok shared line tokens l l0 :
  before_target shared line tokens l = Ok l0 ->
  tests l0 = tests l
  /\ ((specs l0 = [] /\ timeouts l0 = ∅ /\ generalTimeout l0 = 0)
      \/ (specs l0 = specs l /\ timeouts l0 = timeouts l
          /\ (generalTimeout l0 = generalTimeout l \/ 0 <= generalTimeout l0))).
Proof.
  unfold before_target. destruct (state l).
  - destruct (re_match TEST_LABEL_REGEX line); cbn [negb]; [|discriminate].
    destruct (list_getitem tokens 0); cbn [bind]; [|discriminate].
    intros [= <-]. cbn. split; [reflexivity|]. left. now repeat split.
  - destruct (re_match TEST_GENERAL_TIMEOUT_REGEX line).
    { destruct (read_timeout shared tokens) as [timeout|] eqn:E; cbn [bind];
        [|discriminate].
      apply read_timeout_nonneg in E. intros [= <-]. cbn.
      split; [reflexivity|]. right. now repeat split; try right. }
    destruct (re_match TEST_MIN_HOSTS_REGEX line).
    { destruct (list_getitem tokens 1) as [text|]; cbn [bind]; [|discriminate].
      destruct (String.eqb text "all").
      - intros [= <-]. cbn. split; [reflexivity|]. right. now repeat split; try left.
      - destruct (Timeouts.int text); [|discriminate].
        intros [= <-]. cbn. split; [reflexivity|]. right.
        now repeat split; try left. }
    destruct (re_match TEST_END_REGEX line); [discriminate|].
    destruct (re_match TEST_TIMEOUT_REGEX line); [discriminate|].
    destruct (re_match TEST_SPEC_REGEX line); [|discriminate].
    intros [= <-]. cbn. split; [reflexivity|]. right. now repeat split; try left.
  - intros [= <-]. split; [reflexivity|]. right. now repeat split; try left.
Qed.

(** The second block adds a test only at a line that matches the end
    pattern. *)
Lemma with_target_tests shared line tokens l l' :
  with_target shared line tokens l = Ok l' ->
  re_match TEST_END_REGEX line = false ->
  tests l' = tests l.
Proof.
  unfold with_target. intros H Hend.
  destruct (re_match TEST_SPEC_REGEX line).
  { destruct (list_getitem tokens 0) as [tgt|]; cbn [bind] in H; [|discriminate].
    destruct (list_getitem tokens 1) as [cmd|]; cbn [bind] in H; [|discriminate].
    destruct (dict_get _ tgt); cbn [bind] in H; [|discriminate].
    destruct (getitem _ tgt); cbn [bind] in H; [|discriminate].
    now injection H as <-. }
  destruct (re_match TEST_TIMEOUT_REGEX line).
  { destruct (read_timeout shared tokens); cbn [bind] in H; [|discriminate].
    destruct (target l) as [tgt|]; [|now injection H as <-].
    destruct (timeouts l !! tgt); [|now injection H as <-].
    destruct (command l); [|discriminate]. now injection H as <-. }
  rewrite Hend in H.
  destruct (re_match TEST_GENERAL_TIMEOUT_REGEX line || re_match TEST_MIN_HOSTS_REGEX line);
    discriminate.
Qed.

Lemma parse_line_tests shared line l l' :
  parse_line shared line l = Ok l' ->
  re_match TEST_END_REGEX line = false ->
  tests l' = tests l.
Proof.
  unfold parse_line. intros H Hend.
  destruct (before_target shared line (re_split line) l) as [l0|] eqn:E;
    cbn [bind] in H; [|discriminate].
  apply before_target_ok in E as [Ht _]. rewrite <- Ht.
  destruct (state l0); try (now injection H as <-).
  now apply (with_target_tests shared line (re_split line)).
Qed.

Lemma parse_lines_tests shared lines : forall l l',
  parse_lines shared lines l = Ok l' ->
  Forall (fun line => re_match TEST_END_REGEX line = false) lines ->
  tests l' = tests l.
Proof.
  induction lines as [|line lines IH]; intros l l' H Hall.
  - now injection H as <-.
  - apply Forall_cons in Hall as [Hline Hall]. cbn [parse_lines] in H.
    destruct (parse_line shared line l) as [l1|] eqn:E; cbn [bind] in H;
      [|discriminate].
    rewrite (IH l1 l' H Hall). now apply (parse_line_tests shared line).
Qed.

(** X28.  Tests are added to the list only at [end] lines.  Lines that
    follow the last [end] line of a file, none of them matching the end
    pattern, add nothing: if the file is accepted with them, it is accepted
    without them with the same list of tests, so that a test block that no
    [end] line closes is left out without any error. *)
Theorem unclosed_block_is_left_out shared file more tests :
  parse_config shared (Some (file ++ more)%list) = Ok tests ->
  Forall (fun line => re_match TEST_END_REGEX (strip line) = false) more ->
  parse_config shared (Some file) = Ok tests.
Proof.
  unfold parse_config. rewrite queue_app, parse_lines_app. intros H Hmore.
  destruct (parse_lines shared (queue file) start_locals) as [l1|] eqn:E1;
    cbn [bind] in H |- *; [|discriminate].
  destruct (parse_lines shared (queue more) l1) as [l2|] eqn:E2;
    cbn [bind] in H; [|discriminate].
  injection H as <-. f_equal. symmetry.
  apply (parse_lines_tests shared (queue more) l1 l2 E2).
  apply List.Forall_forall. intros line Hin.
  apply queue_stripped in Hin as (raw & Hraw & ->).
  rewrite List.Forall_forall in Hmore. now apply Hmore.
Qed.

Lemma unclosed_block_is_left_out_witness :
  parse_config false (Some file_example) = Ok [test_example].
Proof.
  apply (unclosed_block_is_left_out false file_example file_unclosed
           [test_example]).
  - vm_compute. reflexivity.
  - repeat constructor.
Defined.

(** ** Dictionaries in insertion order *)

Lemma in_dict_keys {V} k (d : list (string * V)) :
  in_dict k d = true <-> k ∈ keys d.
Proof.
  unfold in_dict. rewrite existsb_exists. split.
  - intros (x & Hin & Heq). apply String.eqb_eq in Heq as ->.
    now apply list_elem_of_In.
  - intros Hin. exists k. split; [now apply list_elem_of_In | apply String.eqb_refl].
Qed.

Lemma keys_dict_set {V} (d : list (string * V)) k v :
  keys (dict_set d k v) = if in_dict k d then keys d else (keys d ++ [k])%list.
Proof.
  induction d as [|[k' v'] d IH]; [reflexivity|].
  cbn [dict_set]. unfold in_dict in *. cbn [keys map fst existsb] in *.
  rewrite (String.eqb_sym k k').
  destruct (String.eqb k' k); cbn [orb keys map fst]; [reflexivity|].
  fold (keys d). fold (keys d) in IH. unfold keys in *. rewrite IH.
  destruct (existsb (String.eqb k) (map fst d)); reflexivity.
Qed.

Lemma elem_of_dict_set {V} (d : list (string * V)) k v k' v' :
  (k', v') ∈ dict_set d k v ->
  (k' = k /\ v' = v) \/ (k', v') ∈ d.
Proof.
  induction d as [|[k0 v0] d IH]; cbn [dict_set].
  - intros H. apply list_elem_of_singleton in H as [= -> ->]. now left.
  - destruct (String.eqb_spec k0 k) as [->|Hne]; intros H;
      apply elem_of_cons in H as [H|H].
    + injection H as -> ->. now left.
    + right. now apply list_elem_of_further.
    + right. rewrite H. apply list_elem_of_here.
    + destruct (IH H) as [?|?]; [now left | right; now apply list_elem_of_further].
Qed.

(** ** Tokens *)

Lemma colon_free_cons c s :
  colon_free (String c s) <-> c <> ":"%char /\ colon_free s.
Proof.
  unfold colon_free. cbn [list_ascii_of_string In]. split.
  - intros H. split; [intros -> | intros Hin]; apply H; auto.
  - intros [Hc Hs] [H|H]; [now apply Hc | now apply Hs].
Qed.

Lemma re_split_from_colon_free s : forall skipping token,
  token ∈ re_split_from skipping s -> colon_free token.
Proof.
  induction s as [|c s IH]; intros skipping token H.
  - cbn [re_split_from] in H. apply list_elem_of_singleton in H as ->.
    intros [].
  - cbn [re_split_from] in H.
    destruct (skipping && Ascii.eqb c " "); [now apply (IH true)|].
    destruct (Ascii.eqb_spec c ":") as [->|Hc].
    + apply elem_of_cons in H as [->|H]; [intros [] | now apply (IH true)].
    + pose proof (IH false) as IH'.
      destruct (re_split_from false s) as [|t ts].
      * apply list_elem_of_singleton in H as ->.
        apply colon_free_cons. split; [exact Hc | intros []].
      * apply elem_of_cons in H as [->|H].
        -- apply colon_free_cons. split; [exact Hc|].
           apply IH'. apply list_elem_of_here.
        -- apply IH'. now apply list_elem_of_further.
Qed.

Lemma list_getitem_elem_of {V} (l : list V) i v :
  list_getitem l i = Ok v -> v ∈ l.
Proof.
  unfold list_getitem. destruct (l !! i) eqn:E; [|discriminate].
  intros [= <-]. now apply list_elem_of_lookup_2 in E.
Qed.

Lemma but_last_colon_free s : colon_free s -> colon_free (Timeouts.but_last s).
Proof.
  induction s as [|c s IH]; [trivial|].
  intros H. apply colon_free_cons in H as [Hc Hs].
  destruct s as [|c' s']; [intros []|].
  change (Timeouts.but_last (String c (String c' s')))
    with (String c (Timeouts.but_last (String c' s'))).
  apply colon_free_cons. split; [exact Hc | now apply IH].
Qed.

Lemma unquote_colon_free command : colon_free command -> colon_free (unquote command).
Proof.
  intros H. unfold unquote. destruct command as [|c rest]; [exact H|].
  destruct (_ && _ && _); [|exact H].
  apply colon_free_cons in H as [_ H]. now apply but_last_colon_free.
Qed.

(** ** What a line does to the plan *)

Lemma dict_set_Forall {V} (P : string * V -> Prop) d k v :
  (forall e, e ∈ d -> P e) -> P (k, v) ->
  forall e, e ∈ dict_set d k v -> P e.
Proof.
  intros Hd Hkv [k' v'] H.
  apply elem_of_dict_set in H as [[-> ->]|H]; [exact Hkv | now apply Hd].
Qed.

(** The three ways in which the second block of a turn returns: at a job
    line, at a timeout line and at an end line. *)
Lemma with_target_ok shared line tokens l l' :
  with_target shared line tokens l = Ok l' ->
  generalTimeout l' = generalTimeout l
  /\ ((exists target command0 commands tmo,
         target ∈ tokens /\ command0 ∈ tokens
         /\ dict_get (if in_dict target (specs l) then specs l
                      else dict_set (specs l) target []) target = Ok commands
         /\ match timeouts l !! target with
            | None => <[target := ∅]> (timeouts l)
            | Some _ => timeouts l
            end !! target = Some tmo
         /\ specs l'
            = dict_set (if in_dict target (specs l) then specs l
                        else dict_set (specs l) target [])
                target (commands ++ [unquote command0])%list
         /\ timeouts l'
            = <[target := <[unquote command0 := Some (generalTimeout l)]> tmo]>
                match timeouts l !! target with
                | None => <[target := ∅]> (timeouts l)
                | Some _ => timeouts l
                end
         /\ tests l' = tests l)
      \/ (specs l' = specs l /\ tests l' = tests l
          /\ (timeouts l' = timeouts l
              \/ (exists target,
                    timeouts l !! target = None
                    /\ timeouts l' = <[target := ∅]> (timeouts l))
              \/ (exists target tmo command timeout,
                    0 <= timeout
                    /\ timeouts l !! target = Some tmo
                    /\ timeouts l'
                       = <[target := <[command := Some timeout]> tmo]> (timeouts l))))
      \/ (specs l' = specs l /\ timeouts l' = timeouts l
          /\ exists test,
               NetJobs.TestConfig_init (testLabel l) (generalTimeout l)
                 (minHosts l) (specs l) (timeouts l) = Ok test
               /\ tests l' = (tests l ++ [test])%list)).
Proof.
  unfold with_target. intros H.
  destruct (re_match TEST_SPEC_REGEX line).
  { destruct (list_getitem tokens 0) as [tgt|] eqn:E0; cbn [bind] in H;
      [|discriminate].
    destruct (list_getitem tokens 1) as [cmd|] eqn:E1; cbn [bind] in H;
      [|discriminate].
    destruct (dict_get _ tgt) as [commands|] eqn:Eget; cbn [bind] in H;
      [|discriminate].
    unfold getitem in H.
    destruct (_ !! tgt) as [tmo|] eqn:Etmo in H; cbn [bind] in H; [|discriminate].
    injection H as <-. cbn [generalTimeout specs timeouts tests].
    split; [reflexivity|]. left. exists tgt, cmd, commands, tmo.
    apply list_getitem_elem_of in E0, E1. now repeat split. }
  destruct (re_match TEST_TIMEOUT_REGEX line).
  { destruct (read_timeout shared tokens) as [timeout|] eqn:Et; cbn [bind] in H;
      [|discriminate].
    apply read_timeout_nonneg in Et.
    destruct (target l) as [tgt|].
    2:{ injection H as <-. split; [reflexivity|]. right. left.
        now repeat split; try left. }
    destruct (timeouts l !! tgt) as [tmo|] eqn:Etmo.
    2:{ injection H as <-. cbn. split; [reflexivity|]. right. left.
        split; [reflexivity|]. split; [reflexivity|]. right. left. now exists tgt. }
    destruct (command l) as [cmd|]; [|discriminate].
    injection H as <-. cbn. split; [reflexivity|]. right. left.
    split; [reflexivity|]. split; [reflexivity|]. right. right.
    now exists tgt, tmo, cmd, timeout. }
  destruct (re_match TEST_END_REGEX line).
  { destruct (NetJobs.TestConfig_init _ _ _ _ _) as [test|] eqn:Ei; cbn [bind] in H;
      [|discriminate].
    injection H as <-. cbn. split; [reflexivity|]. right. right.
    split; [reflexivity|]. split; [reflexivity|]. now exists test. }
  destruct (re_match TEST_GENERAL_TIMEOUT_REGEX line || re_match TEST_MIN_HOSTS_REGEX line);
    discriminate.
Qed.

Lemma plan_timeout_Some tmos target command v :
  NetJobs.plan_timeout tmos target command = Some v
  <-> exists tmo, tmos !! target = Some tmo /\ tmo !! command = Some v.
Proof.
  unfold NetJobs.plan_timeout. destruct (tmos !! target) as [tmo|]; cbn.
  - split; [intros H; now exists tmo | intros (x & [= <-] & H); exact H].
  - split; [discriminate | intros (x & [=] & _)].
Qed.

Lemma NoDup_keys_dict_set {V} (d : list (string * V)) k v :
  NoDup (keys d) -> NoDup (keys (dict_set d k v)).
Proof.
  intros H. rewrite keys_dict_set. destruct (in_dict k d) eqn:E; [exact H|].
  apply NoDup_app. split; [exact H|]. split; [|apply NoDup_singleton].
  intros x Hx Hk. apply list_elem_of_singleton in Hk as ->.
  apply in_dict_keys in Hx. congruence.
Qed.

Lemma TestConfig_init_generalTimeout label generalTimeout minHosts sp tmos test :
  NetJobs.TestConfig_init label generalTimeout minHosts sp tmos = Ok test ->
  NetJobs.generalTimeout test = generalTimeout.
Proof.
  unfold NetJobs.TestConfig_init.
  destruct (NetJobs.init_targets generalTimeout tmos sp ∅ ∅) as [[res lt]|];
    cbn [bind]; [|discriminate].
  now intros [= <-].
Qed.

Lemma before_target_invariant shared line tokens l l0 :
  before_target shared line tokens l = Ok l0 ->
  parser_invariant l -> parser_invariant l0.
Proof.
  intros H (Hcf & Hp & Hnn & Hgt & Hts).
  apply before_target_ok in H as [Ht [(Hs & Htm & Hg)|(Hs & Htm & Hg)]];
    unfold parser_invariant; rewrite Ht, Hs, Htm.
  - rewrite Hg. split; [|split; [|split; [|split; [lia | exact Hts]]]].
    + intros t cs Hin. apply elem_of_nil in Hin as [].
    + split; [constructor|]. intros t cs c Hin. apply elem_of_nil in Hin as [].
    + intros t tmo c v Hl. rewrite lookup_empty in Hl. discriminate.
  - split; [exact Hcf|]. split; [exact Hp|]. split; [exact Hnn|].
    split; [|exact Hts]. destruct Hg as [->|Hg]; assumption.
Qed.

(** The timeouts after a job line or a timeout line: the entry of one job
    is set to an integer that is not negative, the others are kept. *)
Lemma set_timeout_kept (tm : gmap string (gmap string (option Z)))
    target command timeout tmo (sp : list (string * list string)) :
  match tm !! target with
  | None => <[target := ∅]> tm
  | Some _ => tm
  end !! target = Some tmo ->
  0 <= timeout ->
  timeouts_nonneg tm ->
  (forall t cs c, (t, cs) ∈ sp -> c ∈ cs ->
     exists z, NetJobs.plan_timeout tm t c = Some (Some z)) ->
  let tm' := <[target := <[command := Some timeout]> tmo]>
               match tm !! target with
               | None => <[target := ∅]> tm
               | Some _ => tm
               end in
  timeouts_nonneg tm'
  /\ (exists z, NetJobs.plan_timeout tm' target command = Some (Some z))
  /\ (forall t cs c, (t, cs) ∈ sp -> c ∈ cs ->
        exists z, NetJobs.plan_timeout tm' t c = Some (Some z)).
Proof.
  intros Htmo Ht Hnn Hcov tm'.
  assert (Hold : forall c v, tmo !! c = Some v ->
            exists x, tm !! target = Some x /\ x !! c = Some v).
  { intros c v Hc. destruct (tm !! target) as [x|] eqn:E.
    - assert (x = tmo) as -> by congruence. now exists tmo.
    - rewrite lookup_insert_eq in Htmo. assert (tmo = ∅) as -> by congruence.
      rewrite lookup_empty in Hc. discriminate. }
  assert (Hkeep : forall x, tm !! target = Some x -> tmo = x).
  { intros x E. rewrite E in Htmo. congruence. }
  assert (Hother : forall t, t <> target -> tm' !! t = tm !! t).
  { intros t Hne. subst tm'. rewrite lookup_insert_ne by congruence.
    destruct (tm !! target); [reflexivity|].
    now rewrite lookup_insert_ne by congruence. }
  assert (Hsame : tm' !! target = Some (<[command := Some timeout]> tmo))
    by (subst tm'; apply lookup_insert_eq).
  split; [|split].
  - intros t x c v Hx Hc. destruct (decide (t = target)) as [->|Hne].
    + rewrite Hsame in Hx. injection Hx as <-.
      destruct (decide (c = command)) as [->|Hc'].
      * rewrite lookup_insert_eq in Hc. injection Hc as <-. now exists timeout.
      * rewrite lookup_insert_ne in Hc by congruence.
        destruct (Hold c v Hc) as (y & Hy & Hyc). now apply (Hnn target y c v).
    + rewrite Hother in Hx by exact Hne. now apply (Hnn t x c v).
  - exists timeout. apply plan_timeout_Some. eexists. split; [exact Hsame|].
    apply lookup_insert_eq.
  - intros t cs c Hin Hc. destruct (Hcov t cs c Hin Hc) as (z & Hz).
    apply plan_timeout_Some in Hz as (x & Hx & Hxc).
    destruct (decide (t = target)) as [->|Hne].
    + apply Hkeep in Hx as <-.
      destruct (decide (c = command)) as [->|Hc'].
      * exists timeout. apply plan_timeout_Some. eexists. split; [exact Hsame|].
        apply lookup_insert_eq.
      * exists z. apply plan_timeout_Some. eexists. split; [exact Hsame|].
        now rewrite lookup_insert_ne by congruence.
    + exists z. apply plan_timeout_Some. exists x. split; [|exact Hxc].
      now rewrite Hother.
Qed.

Lemma with_target_invariant shared line tokens l l' :
  (forall token, token ∈ tokens -> colon_free token) ->
  with_target shared line tokens l = Ok l' ->
  parser_invariant l -> parser_invariant l'.
Proof.
  intros Htok H (Hcf & [Hnd Hcov] & Hnn & Hgt & Hts).
  apply with_target_ok in H as [Hg [Hjob|[Htmo|Hend]]]; unfold parser_invariant.
  - destruct Hjob as (tgt & cmd0 & commands & tmo & Htgt & Hcmd & Hget & Htmo
                      & -> & -> & ->).
    rewrite Hg.
    set (specs1 := if in_dict tgt (specs l) then specs l
                   else dict_set (specs l) tgt []) in *.
    destruct (set_timeout_kept (timeouts l) tgt (unquote cmd0) (generalTimeout l)
                tmo (specs l) Htmo Hgt Hnn Hcov) as (Hnn' & Hnew & Hcov').
    assert (Hin1 : (tgt, commands) ∈ specs1)
      by now apply NetJobsSpec.dict_get_elem_of.
    assert (Hs1 : forall e, e ∈ specs1 -> e ∈ specs l \/ e = (tgt, [])).
    { subst specs1. destruct (in_dict tgt (specs l)); [now left|].
      intros [k v] He. apply elem_of_dict_set in He as [[-> ->]|He];
        [now right | now left]. }
    split; [|split; [split|split; [exact Hnn' | split; [exact Hgt | exact Hts]]]].
    + intros t cs Hin. revert t cs Hin.
      assert (HP : forall e : string * list string,
                e ∈ dict_set specs1 tgt (commands ++ [unquote cmd0])%list ->
                colon_free e.1 /\ forall c, c ∈ e.2 -> colon_free c).
      { assert (HP1 : forall e : string * list string, e ∈ specs1 ->
                  colon_free e.1 /\ forall c, c ∈ e.2 -> colon_free c).
        { intros [k v] He. destruct (Hs1 _ He) as [He'|[= -> ->]].
          - now apply Hcf.
          - split; [now apply Htok|]. intros c Hc. apply elem_of_nil in Hc as []. }
        apply dict_set_Forall; [exact HP1|]. cbn [fst snd].
        split; [now apply Htok|]. intros c Hc.
        apply elem_of_app in Hc as [Hc|Hc].
        - now apply (HP1 (tgt, commands) Hin1).
        - apply list_elem_of_singleton in Hc as ->.
          apply unquote_colon_free. now apply Htok. }
      intros t cs Hin. exact (HP (t, cs) Hin).
    + apply NoDup_keys_dict_set. subst specs1.
      destruct (in_dict tgt (specs l)); [exact Hnd | now apply NoDup_keys_dict_set].
    + set (tm' := <[tgt := <[unquote cmd0 := Some (generalTimeout l)]> tmo]>
                    match timeouts l !! tgt with
                    | None => <[tgt := ∅]> (timeouts l)
                    | Some _ => timeouts l
                    end) in *.
      assert (HQ1 : forall e : string * list string, e ∈ specs1 ->
                forall c, c ∈ e.2 ->
                  exists z, NetJobs.plan_timeout tm' e.1 c = Some (Some z)).
      { intros [k v] He c Hc. destruct (Hs1 _ He) as [He'|[= -> ->]].
        - now apply (Hcov' k v c).
        - apply elem_of_nil in Hc as []. }
      intros t cs c Hin Hc.
      refine (dict_set_Forall
                (fun e => forall c, c ∈ e.2 ->
                   exists z, NetJobs.plan_timeout tm' e.1 c = Some (Some z))
                specs1 tgt _ HQ1 _ (t, cs) Hin c Hc).
      cbn [fst snd]. intros c' Hc'.
      apply elem_of_app in Hc' as [Hc'|Hc'].
      * now apply (HQ1 (tgt, commands) Hin1).
      * apply list_elem_of_singleton in Hc' as ->. exact Hnew.
  - destruct Htmo as (-> & -> & Htm). rewrite Hg.
    split; [exact Hcf|].
    destruct Htm as [->|[(tgt & Hnone & ->)|(tgt & tmo & cmd & timeout & Ht & Hsome & ->)]].
    + now repeat split.
    + split; [split; [exact Hnd|]|split; [|split; [exact Hgt | exact Hts]]].
      * intros t cs c Hin Hc. destruct (Hcov t cs c Hin Hc) as (z & Hz).
        exists z. apply plan_timeout_Some in Hz as (x & Hx & Hxc).
        apply plan_timeout_Some. exists x. split; [|exact Hxc].
        rewrite lookup_insert_ne; [exact Hx | congruence].
      * intros t x c v Hx Hxc. destruct (decide (t = tgt)) as [->|Hne].
        -- rewrite lookup_insert_eq in Hx. injection Hx as <-.
           rewrite lookup_empty in Hxc. discriminate.
        -- rewrite lookup_insert_ne in Hx by congruence. now apply (Hnn t x c v).
    + assert (Hm : match timeouts l !! tgt with
                   | None => <[tgt := ∅]> (timeouts l)
                   | Some _ => timeouts l
                   end = timeouts l) by now rewrite Hsome.
      pose proof (set_timeout_kept (timeouts l) tgt cmd timeout tmo (specs l)) as Hk.
      rewrite Hm in Hk. destruct (Hk Hsome Ht Hnn Hcov) as (Hnn' & _ & Hcov').
      now repeat split.
  - destruct Hend as (-> & -> & test & Hinit & ->). rewrite Hg.
    split; [exact Hcf|]. split; [now split|]. split; [exact Hnn|].
    split; [exact Hgt|]. apply Forall_app. split; [exact Hts|].
    constructor; [|constructor].
    pose proof (TestConfig_init_generalTimeout _ _ _ _ _ _ Hinit) as Hgen.
    apply NetJobsMore.TestConfig_init_fields in Hinit as (_ & _ & Hsp & Htm).
    unfold well_formed. rewrite Hsp, Htm, Hgen.
    split; [exact Hcf|]. split; [split; [exact Hnd | exact Hcov]|].
    split; [exact Hnn | exact Hgt].
Qed.

Lemma parse_line_invariant shared line l l' :
  parse_line shared line l = Ok l' ->
  parser_invariant l -> parser_invariant l'.
Proof.
  unfold parse_line. intros H Hinv.
  destruct (before_target shared line (re_split line) l) as [l0|] eqn:E;
    cbn [bind] in H; [|discriminate].
  apply (before_target_invariant shared line _ l l0 E) in Hinv.
  destruct (state l0); try (now injection H as <-).
  apply (with_target_invariant shared line (re_split line) l0 l'); try assumption.
  intros token Hin. now apply (re_split_from_colon_free line false).
Qed.

Lemma parse_lines_invariant shared lines : forall l l',
  parse_lines shared lines l = Ok l' ->
  parser_invariant l -> parser_invariant l'.
Proof.
  induction lines as [|line lines IH]; intros l l' H Hinv.
  - now injection H as <-.
  - cbn [parse_lines] in H.
    destruct (parse_line shared line l) as [l1|] eqn:E; cbn [bind] in H;
      [|discriminate].
    apply (IH l1 l' H). now apply (parse_line_invariant shared line l).
Qed.

Lemma parse_config_invariant shared file tests :
  parse_config shared (Some file) = Ok tests ->
  Forall (fun test => colon_free_plan (NetJobs.specs test) /\ well_formed test) tests.
Proof.
  unfold parse_config.
  destruct (parse_lines shared (queue file) start_locals) as [l|] eqn:E;
    cbn [bind]; [|discriminate].
  intros [= <-].
  apply parse_lines_invariant in E as (_ & _ & _ & _ & H); [exact H|].
  unfold parser_invariant, start_locals.
  cbn [specs timeouts generalTimeout tests].
  split; [|split; [|split; [|split; [unfold TIMEOUT_NONE; lia | constructor]]]].
  - intros t cs Hin. apply elem_of_nil in Hin as [].
  - split; [constructor|]. intros t cs c Hin. apply elem_of_nil in Hin as [].
  - intros t tmo c v Hl. rewrite lookup_empty in Hl. discriminate.
Qed.

(** X29.  No target and no command of a test that the parser returns has a
    colon: both are tokens of a line that was cut at every colon. *)
Theorem parsed_commands_have_no_colon shared file tests :
  parse_config shared (Some file) = Ok tests ->
  Forall (fun test => colon_free_plan (NetJobs.specs test)) tests.
Proof.
  intros H. apply parse_config_invariant in H.
  eapply Forall_impl; [exact H|]. now intros test [Hcf _].
Qed.

Lemma parsed_commands_have_no_colon_witness :
  Forall (fun test => colon_free_plan (NetJobs.specs test)) [test_example].
Proof.
  apply (parsed_commands_have_no_colon false file_example [test_example]).
  vm_compute. reflexivity.
Defined.

(** X30.  Every test that the parser returns names no target twice in its
    plan and has, for every job of the plan, a timeout that is an integer
    and not negative, as is its general timeout; no stored timeout is
    [None]. *)
Theorem parsed_tests_are_well_formed shared file tests :
  parse_config shared (Some file) = Ok tests ->
  Forall well_formed tests.
Proof.
  intros H. apply parse_config_invariant in H.
  eapply Forall_impl; [exact H|]. now intros test [_ Hwf].
Qed.

Lemma parsed_tests_are_well_formed_witness :
  Forall well_formed [test_example].
Proof.
  apply (parsed_tests_are_well_formed false file_example [test_example]).
  vm_compute. reflexivity.
Defined.

End ParserSpec.
